(** * Pyjoyment: the select reactor and the user agent's connection engine

    A shallow embedding of [Pyjo/Reactor/Select.py] and of the connection
    engine of [Pyjo/UserAgent/__init__.py], with the properties of the
    reactor's dispatch round, of [remove] and [watch], and of the engine's
    start, write and callback paths.

    Conventions of the embedding.
    - Instants and durations ([steady_time()], [after], [timeout]) are
      rational numbers of seconds.
    - A Python method is a computation in the monad [M]: it threads the
      state of the objects it mutates, may raise, and records the calls it
      makes to the outside (callbacks, [select], [sleep]) in a trace.
    - Callables stored in a table are values of a type of callables; what a
      callable does when it is called is given by the environment, since a
      callback may do anything to the object that calls it. *)

From Stdlib Require Import QArith.
From stdpp Require Import gmap strings list.


(** ** Exceptions and outcomes *)

Inductive exn : Type :=
  | KeyError
  | AttributeError
  | TypeError
  | ReferenceError
  | socket_error
  | Exception (msg : string).

(** [OutOfFuel] is the outcome of a [while] loop that did not finish within
    the number of iterations the model was given. *)
Inductive outcome (A : Type) : Type :=
  | Ok (a : A)
  | Raise (e : exn)
  | OutOfFuel.
Arguments Ok {A} a.
Arguments Raise {A} e.
Arguments OutOfFuel {A}.

(** ** The monad of methods: state, exceptions and a trace of outside calls *)

Definition M (St Ev A : Type) : Type := St -> outcome A * St * list Ev.

Section MonadOps.
Context {St Ev : Type}.

Definition ret {A} (a : A) : M St Ev A := fun s => (Ok a, s, []).

Definition bind {A B} (m : M St Ev A) (k : A -> M St Ev B) : M St Ev B :=
  fun s =>
    match m s with
    | (Ok a, s1, t1) => let '(r, s2, t2) := k a s1 in (r, s2, t1 ++ t2)
    | (Raise e, s1, t1) => (Raise e, s1, t1)
    | (OutOfFuel, s1, t1) => (OutOfFuel, s1, t1)
    end.

Definition raise {A} (e : exn) : M St Ev A := fun s => (Raise e, s, []).
Definition diverge {A} : M St Ev A := fun s => (OutOfFuel, s, []).
Definition gets {A} (f : St -> A) : M St Ev A := fun s => (Ok (f s), s, []).
Definition modify (f : St -> St) : M St Ev unit := fun s => (Ok tt, f s, []).
Definition tell (e : Ev) : M St Ev unit := fun s => (Ok tt, s, [e]).
(** A value that is either there or raises. *)
Definition of_outcome {A} (o : outcome A) : M St Ev A := fun s => (o, s, []).
(** A call to the outside that changes the state and may raise. *)
Definition outside {A} (f : St -> outcome A * St) : M St Ev A :=
  fun s => let '(r, s') := f s in (r, s', []).

Definition result {A} (x : outcome A * St * list Ev) : outcome A := x.1.1.
Definition final {A} (x : outcome A * St * list Ev) : St := x.1.2.
Definition trace {A} (x : outcome A * St * list Ev) : list Ev := x.2.
End MonadOps.

Declare Scope py_scope.
Delimit Scope py_scope with py.
Notation "x <- c1 ;; c2" := (bind c1 (fun x => c2))
(at level 100, c1 at next level, right associativity) : py_scope.
Notation "c1 ;; c2" := (bind c1 (fun _ => c2))
(at level 100, right associativity) : py_scope.
Open Scope py_scope.

(** ** A Python [dict] with string keys, in its iteration order

  [set] keeps the place of a key that is already there and puts a new key
  at the end; [del] takes the key out. *)

Module PyDict.
Section Dict.
Context {V : Type}.

Fixpoint get (k : string) (d : list (string * V)) : option V :=
  match d with
  | [] => None
  | (k', v) :: d' => if decide (k = k') then Some v else get k d'
  end.

Definition contains (k : string) (d : list (string * V)) : bool :=
  match get k d with Some _ => true | None => false end.

Fixpoint set (k : string) (v : V) (d : list (string * V)) : list (string * V) :=
  match d with
  | [] => [(k, v)]
  | (k', v') :: d' =>
      if decide (k = k') then (k, v) :: d' else (k', v') :: set k v d'
  end.

Fixpoint del (k : string) (d : list (string * V)) : list (string * V) :=
  match d with
  | [] => []
  | (k', v') :: d' =>
      if decide (k = k') then del k d' else (k', v') :: del k d'
  end.

Definition keys (d : list (string * V)) : list string := d.*1.
Definition values (d : list (string * V)) : list V := d.*2.
Definition is_empty (d : list (string * V)) : bool :=
  match d with [] => true | _ => false end.
End Dict.
End PyDict.

(** ** Pyjo.Reactor.Select *)

Module Reactor.

Definition fd := Z.
Definition tid := string.

(** A handle is what [io], [watch] and [remove] are given. [ClosedSocket]
    is a handle whose [fileno()] raises [socket.error], as a closed socket
    does where the interpreter raises for it; where [fileno()] of a closed
    socket returns -1, the handle is [Socket (-1)]. *)
Inductive handle : Type :=
  | Socket (n : fd)
  | ClosedSocket.

Definition fileno (h : handle) : outcome fd :=
  match h with
  | Socket n => Ok n
  | ClosedSocket => Raise socket_error
  end.

(** The argument of [remove]: [None], a timer id (a [str]) or a handle. *)
Inductive removable : Type :=
  | RNone
  | RTimer (t : tid)
  | RHandle (h : handle).

Definition Qlt_bool (a b : Q) : bool := negb (Qle_bool b a).

(** [min(times)] of a non-empty list: the first smallest element. *)
Definition py_min (x : Q) (xs : list Q) : Q :=
  fold_left (fun m y => if Qlt_bool y m then y else m) xs x.

Section Data.
(** [CB]: the callables handed to the reactor. [Ext]: everything outside the
    reactor object (clock, kernel, other objects). *)
Context {CB Ext : Type}.

(** A timer is the dict [{'cb', 'after', 'time'}], with the key
    ['recurring'] for a recurring timer. *)
Record timer_t : Type := mk_timer {
  t_cb : option CB;
  t_after : Q;
  t_time : Q;
  t_recurring : option Q
}.

Record io_rec : Type := Io { io_cb : CB }.

Record reactor : Type := Reactor_ {
  _running : bool;
  _timers : list (tid * timer_t);
  _ios : gmap fd io_rec;
  _inputs : list fd;
  _outputs : list fd
}.

Definition set_running (b : bool) (r : reactor) : reactor :=
  Reactor_ b (_timers r) (_ios r) (_inputs r) (_outputs r).
Definition set_timers (t : list (tid * timer_t)) (r : reactor) : reactor :=
  Reactor_ (_running r) t (_ios r) (_inputs r) (_outputs r).
Definition set_ios (i : gmap fd io_rec) (r : reactor) : reactor :=
  Reactor_ (_running r) (_timers r) i (_inputs r) (_outputs r).
Definition set_inputs (l : list fd) (r : reactor) : reactor :=
  Reactor_ (_running r) (_timers r) (_ios r) l (_outputs r).
Definition set_outputs (l : list fd) (r : reactor) : reactor :=
  Reactor_ (_running r) (_timers r) (_ios r) (_inputs r) l.

Record world : Type := World { self : reactor; ext : Ext }.

Definition on_self (f : reactor -> reactor) (w : world) : world :=
  World (f (self w)) (ext w).

(** What [_sandbox] is asked to call: the watcher of a descriptor on its
    read or write path, or a timer, with the timer as it was found in
    the table and the instant [now] of the pass. *)
Inductive dispatch : Type :=
  | Read (f : fd)
  | Write (f : fd)
  | Timer (t : tid) (found : timer_t) (now : Q).

(** The calls a method makes to the outside. [EvCall] carries the state
    the callback starts from. *)
Inductive event : Type :=
  | EvSelect (rlist wlist xlist : list fd) (timeout : Q)
  | EvSleep (timeout : Q)
  | EvCall (d : dispatch) (cb : CB) (args : list Z) (w : world).

End Data.
Arguments timer_t : clear implicits.
Arguments io_rec : clear implicits.
Arguments reactor : clear implicits.
Arguments world : clear implicits.
Arguments dispatch : clear implicits.
Arguments event : clear implicits.

(** *** The environment of the reactor *)

Class Environment (CB Ext : Type) : Type := {
  (** [steady_time()] *)
  steady_time : Ext -> Q * Ext;
  (** [rand()] *)
  rand : Ext -> Q * Ext;
  (** [md5_sum('t{0}{1}'.format(time, rand))]: the digest, or the exception
      of [hashlib] where it refuses text that is not bytes *)
  md5_sum : Q -> Q -> outcome tid;
  (** [select.select(rlist, wlist, xlist, timeout)] *)
  select_select :
    list fd -> list fd -> list fd -> Q -> Ext ->
    outcome (list fd * list fd * list fd) * Ext;
  (** [time.sleep(timeout)] *)
  time_sleep : Q -> Ext -> Ext;
  (** [list(set(l))]: the elements of [l], each once, in the set's order *)
  list_set : list fd -> list fd;
  (** calling a callable on its arguments *)
  call : CB -> list Z -> world CB Ext -> outcome unit * world CB Ext
}.

Section Methods.
Context {CB Ext : Type} `{!Environment CB Ext}.

Abbreviation R := (M (world CB Ext) (event CB Ext)).

Definition on_ext {A} (f : Ext -> A * Ext) : R A :=
  outside (fun w => let '(a, e) := f (ext w) in (Ok a, World (self w) e)).

(** *** Methods *)

Definition stop : R unit := modify (on_self (set_running false)).

(** [select.select] on the lists it is given. *)
Definition do_select (rlist wlist xlist : list fd) (timeout : Q)
  : R (list fd * list fd * list fd) :=
  tell (EvSelect rlist wlist xlist timeout) ;;
  outside (fun w =>
    let '(o, e) := select_select rlist wlist xlist timeout (ext w) in
    (o, World (self w) e)).

Definition is_readable (h : handle) : R bool :=
  n <- of_outcome (fileno h) ;;
  ready <- do_select [n] [] [] 0 ;;
  let '(readable, _, _) := ready in
  ret (bool_decide (n ∈ readable)).

Definition is_running : R bool := gets (fun w => _running (self w)).

Definition again (t : tid) : R unit :=
  tm <- gets (fun w => PyDict.get t (_timers (self w))) ;;
  match tm with
  | None => raise KeyError
  | Some tm =>
      now <- on_ext steady_time ;;
      modify (on_self (fun r =>
        set_timers (PyDict.set t
          (mk_timer (t_cb tm) (t_after tm) (now + t_after tm)%Q (t_recurring tm))
          (_timers r)) r))
  end.

Definition watch (h : handle) (read write : bool) : R unit :=
  n <- of_outcome (fileno h) ;;
  modify (on_self (fun r =>
    if read && negb (bool_decide (n ∈ _inputs r))
    then set_inputs (_inputs r ++ [n]) r else r)) ;;
  modify (on_self (fun r =>
    if write && negb (bool_decide (n ∈ _outputs r))
    then set_outputs (_outputs r ++ [n]) r else r)).

Definition io (cb : CB) (h : handle) : R unit :=
  n <- of_outcome (fileno h) ;;
  modify (on_self (fun r => set_ios (<[n := Io cb]> (_ios r)) r)) ;;
  watch h true true.

(** [list.remove(x)]: takes out the first occurrence. *)
Fixpoint list_remove (x : fd) (l : list fd) : list fd :=
  match l with
  | [] => []
  | y :: l' => if decide (x = y) then l' else y :: list_remove x l'
  end.

(** [remove] returns [None], [True] or [False]. *)
Definition remove (x : removable) : R (option bool) :=
  match x with
  | RNone => ret None
  | RTimer t =>
      r <- gets self ;;
      if PyDict.contains t (_timers r) then
        modify (on_self (set_timers (PyDict.del t (_timers r)))) ;;
        ret (Some true)
      else ret (Some false)
  | RHandle h =>
      match fileno h with
      | Ok n =>
          modify (on_self (fun r =>
            if bool_decide (n ∈ _inputs r)
            then set_inputs (list_remove n (_inputs r)) r else r)) ;;
          modify (on_self (fun r =>
            if bool_decide (n ∈ _outputs r)
            then set_outputs (list_remove n (_outputs r)) r else r)) ;;
          r <- gets self ;;
          match _ios r !! n with
          | Some _ =>
              modify (on_self (set_ios (delete n (_ios r)))) ;;
              ret (Some true)
          | None => ret (Some false)
          end
      | Raise socket_error => ret (Some false)
      | Raise e => raise e
      | OutOfFuel => diverge
      end
  end.

Definition reset : R unit :=
  modify (on_self (fun r => Reactor_ (_running r) [] ∅ [] [])).

Fixpoint _timer_id (fuel : nat) : R tid :=
  match fuel with
  | O => diverge
  | S fuel' =>
      now <- on_ext steady_time ;;
      rnd <- on_ext rand ;;
      t <- of_outcome (md5_sum now rnd) ;;
      r <- gets self ;;
      if PyDict.contains t (_timers r) then _timer_id fuel' else ret t
  end.

Definition _timer (fuel : nat) (cb : option CB) (recurring : bool) (after : Q)
  : R tid :=
  t <- _timer_id fuel ;;
  now <- on_ext steady_time ;;
  let tm := mk_timer cb after (now + after)%Q
              (if recurring then Some after else None) in
  modify (on_self (fun r => set_timers (PyDict.set t tm (_timers r)) r)) ;;
  ret t.

Definition timer (fuel : nat) (cb : option CB) (after : Q) : R tid :=
  _timer fuel cb false after.

Definition recurring (fuel : nat) (cb : option CB) (after : Q) : R tid :=
  _timer fuel cb true after.

Definition _sandbox (cb : CB) (d : dispatch CB) (args : list Z) : R unit :=
  w <- gets id ;;
  tell (EvCall d cb args w) ;;
  outside (call cb args).

(** The body of [for fd in list(set(...))]; the result is what it adds
    to [i]. *)
Definition io_step (readable writable exceptional : list fd) (n : fd) : R nat :=
  if bool_decide (n ∈ readable) || bool_decide (n ∈ exceptional) then
    r <- gets self ;;
    match _ios r !! n with
    | None => raise KeyError
    | Some i => _sandbox (io_cb i) (Read n) [0%Z] ;; ret 1%nat
    end
  else if bool_decide (n ∈ writable) then
    r <- gets self ;;
    match _ios r !! n with
    | None => raise KeyError
    | Some i => _sandbox (io_cb i) (Write n) [1%Z] ;; ret 1%nat
    end
  else ret 0%nat.

Fixpoint io_loop (readable writable exceptional : list fd) (fds : list fd)
  : R nat :=
  match fds with
  | [] => ret 0%nat
  | n :: fds' =>
      i <- io_step readable writable exceptional n ;;
      j <- io_loop readable writable exceptional fds' ;;
      ret (i + j)%nat
  end.

(** The branch [if self._ios:] of the pass. *)
Definition io_phase (timeout : Q) : R nat :=
  r <- gets self ;;
  ready <- do_select (_inputs r) (_outputs r) (_inputs r) timeout ;;
  let '(readable, writable, exceptional) := ready in
  io_loop readable writable exceptional
    (list_set (exceptional ++ readable ++ writable)).

(** The body of [for tid in list(self._timers)]. *)
Definition timer_step (now : Q) (t : tid) : R nat :=
  tm <- gets (fun w => PyDict.get t (_timers (self w))) ;;
  match tm with
  | None => ret 0%nat
  | Some tm =>
      if Qlt_bool now (t_time tm) then ret 0%nat
      else
        match t_recurring tm with
        | Some interval =>
            modify (on_self (fun r =>
              set_timers (PyDict.set t
                (mk_timer (t_cb tm) (t_after tm) (now + interval)%Q
                        (t_recurring tm))
                (_timers r)) r))
        | None => remove (RTimer t) ;; ret tt
        end ;;
        match t_cb tm with
        | Some cb => _sandbox cb (Timer t tm now) []
        | None => ret tt
        end ;;
        ret 1%nat
  end.

Fixpoint timer_loop (now : Q) (tids : list tid) : R nat :=
  match tids with
  | [] => ret 0%nat
  | t :: tids' =>
      i <- timer_step now t ;;
      j <- timer_loop now tids' ;;
      ret (i + j)%nat
  end.

(** The timers of the pass: [now = steady_time()], then the loop over
    the keys the table has at that moment. *)
Definition timers_phase : R nat :=
  now <- on_ext steady_time ;;
  tids <- gets (fun w => PyDict.keys (_timers (self w))) ;;
  timer_loop now tids.

(** How the [while not i] loop was left. *)
Inductive exit : Type :=
  | Returned   (* return self.stop() *)
  | Completed. (* i became non-zero *)

Fixpoint one_tick_loop (fuel : nat) : R exit :=
  match fuel with
  | O => diverge
  | S fuel' =>
      r <- gets self ;;
      if PyDict.is_empty (_timers r) && bool_decide (_ios r = ∅) then
        stop ;; ret Returned
      else
        timeout <-
          match map t_time (PyDict.values (_timers r)) with
          | x :: xs =>
              now <- on_ext steady_time ;; ret (py_min x xs - now)%Q
          | [] => ret (1 # 2)%Q
          end ;;
        let timeout := if Qlt_bool timeout 0 then 0%Q else timeout in
        i <-
          (if negb (bool_decide (_ios r = ∅)) then io_phase timeout
           else if negb (Qeq_bool timeout 0) then
             tell (EvSleep timeout) ;;
             on_ext (fun e => (tt, time_sleep timeout e)) ;;
             ret 0%nat
           else ret 0%nat) ;;
        j <- timers_phase ;;
        if (i + j =? 0)%nat then one_tick_loop fuel' else ret Completed
  end.

Definition one_tick (fuel : nat) : R unit :=
  running <- gets (fun w => _running (self w)) ;;
  modify (on_self (set_running true)) ;;
  e <- one_tick_loop fuel ;;
  match e with
  | Returned => ret tt
  | Completed =>
      now_running <- gets (fun w => _running (self w)) ;;
      if now_running then modify (on_self (set_running running)) else ret tt
  end.

(** [while self._running: self.one_tick()], for at most [fuel] rounds. *)
Fixpoint start_loop (fuel tick_fuel : nat) : R unit :=
  running <- gets (fun w => _running (self w)) ;;
  if running then
    match fuel with
    | O => diverge
    | S fuel' => one_tick tick_fuel ;; start_loop fuel' tick_fuel
    end
  else ret tt.

Definition start (fuel tick_fuel : nat) : R unit :=
  modify (on_self (set_running true)) ;;
  start_loop fuel tick_fuel.

End Methods.

(** *** What the properties speak of *)

Section Observations.
Context {CB Ext : Type} `{!Environment CB Ext}.
Implicit Types (w : world CB Ext) (r : reactor CB) (t : tid) (n : fd).

(** The state with [_running] false. *)
Definition stopped w : world CB Ext := on_self (set_running false) w.

(** Whether an event is the call of a timer's callback. *)
Definition timer_call (ev : event CB Ext) : bool :=
  match ev with
  | EvCall (Timer _ _ _) _ _ _ => true
  | _ => false
  end.

(** After its bookkeeping, a step calls the callback, if there is one, and
    counts one event. *)
Definition call_timer (t : tid) (tm : timer_t CB) (now : Q) w
  : outcome nat * world CB Ext * list (event CB Ext) :=
  match t_cb tm with
  | Some cb =>
      (match (call cb [] w).1 with
       | Ok _ => Ok 1%nat
       | Raise e => Raise e
       | OutOfFuel => OutOfFuel
       end,
       (call cb [] w).2,
       [EvCall (Timer t tm now) cb [] w])
  | None => (Ok 1%nat, w, [])
  end.

(** A timer with the deadline [now + interval]. *)
Definition rescheduled (tm : timer_t CB) (now interval : Q) : timer_t CB :=
  mk_timer (t_cb tm) (t_after tm) (now + interval)%Q (t_recurring tm).

(** The ids of the timers whose callbacks are called, in the order of the
    calls. *)
Definition fired (tr : list (event CB Ext)) : list tid :=
  omap (fun ev => match ev with
                  | EvCall (Timer t _ _) _ _ _ => Some t
                  | _ => None
                  end) tr.

(** The order the timers of one pass would be called in by deadline: of two
    calls of the pass, the one of the timer with the earlier deadline does
    not come after the other. *)
Definition dispatched_by_deadline (tr : list (event CB Ext)) : Prop :=
  forall (i j : nat) ta tma tb tmb now cba cbb argsa argsb wa wb,
    tr !! i = Some (EvCall (Timer ta tma now) cba argsa wa) ->
    tr !! j = Some (EvCall (Timer tb tmb now) cbb argsb wb) ->
    (t_time tma < t_time tmb)%Q ->
    (i <= j)%nat.

(** The calls of the watcher of [n] on the read and on the write path. *)
Definition is_read (n : fd) (ev : event CB Ext) : bool :=
  match ev with
  | EvCall (Read m) _ _ _ => bool_decide (m = n)
  | _ => false
  end.

Definition is_write (n : fd) (ev : event CB Ext) : bool :=
  match ev with
  | EvCall (Write m) _ _ _ => bool_decide (m = n)
  | _ => false
  end.

(** How many events of a trace satisfy [f]. *)
Fixpoint count (f : event CB Ext -> bool) (tr : list (event CB Ext)) : nat :=
  match tr with
  | [] => 0
  | ev :: tr' => ((if f ev then 1 else 0) + count f tr')%nat
  end.


(** What one descriptor of the loop gives: nothing, or one call. *)
Definition call_io (d : dispatch CB) (cb : CB) (arg : Z) w
  : outcome nat * world CB Ext * list (event CB Ext) :=
  (match (call cb [arg] w).1 with
   | Ok _ => Ok 1%nat
   | Raise e => Raise e
   | OutOfFuel => OutOfFuel
   end,
   (call cb [arg] w).2,
   [EvCall d cb [arg] w]).

(** The interest lists hold each descriptor at most once. *)
Definition interest_ok r : Prop := NoDup (_inputs r) /\ NoDup (_outputs r).

(** Whether [remove] finds the entry: a live timer, or a watcher. *)
Definition found (x : removable) r : bool :=
  match x with
  | RTimer t => PyDict.contains t (_timers r)
  | RHandle (Socket n) => bool_decide (is_Some (_ios r !! n))
  | RHandle ClosedSocket => false
  | RNone => false
  end.

(** Nothing of the entry is in the reactor: no timer of that id; for a
    descriptor, no watcher and no interest. *)
Definition absent (x : removable) r : Prop :=
  match x with
  | RTimer t => PyDict.get t (_timers r) = None
  | RHandle (Socket n) =>
      _ios r !! n = None /\ (n ∉ _inputs r) /\ (n ∉ _outputs r)
  | RHandle ClosedSocket => True
  | RNone => True
  end.

(** The interest list after [if fd in l: l.remove(fd)]. *)
Definition dropped n (l : list fd) : list fd :=
  if bool_decide (n ∈ l) then list_remove n l else l.

(** The methods of the reactor. *)
Inductive method : Type :=
  | m_again (t : tid)
  | m_io (cb : CB) (h : handle)
  | m_is_readable (h : handle)
  | m_is_running
  | m_one_tick (fuel : nat)
  | m_recurring (fuel : nat) (cb : option CB) (after : Q)
  | m_remove (x : removable)
  | m_reset
  | m_start (fuel tick_fuel : nat)
  | m_stop
  | m_timer (fuel : nat) (cb : option CB) (after : Q)
  | m_watch (h : handle) (rd wr : bool).

(** Calling a method, whatever it returns. *)
Definition run_method (m : method) : M (world CB Ext) (event CB Ext) unit :=
  match m with
  | m_again t => again t
  | m_io cb h => io cb h
  | m_is_readable h => is_readable h ;; ret tt
  | m_is_running => is_running ;; ret tt
  | m_one_tick fuel => one_tick fuel
  | m_recurring fuel cb after => recurring fuel cb after ;; ret tt
  | m_remove x => remove x ;; ret tt
  | m_reset => reset
  | m_start fuel tick_fuel => start fuel tick_fuel
  | m_stop => stop
  | m_timer fuel cb after => timer fuel cb after ;; ret tt
  | m_watch h rd wr => watch h rd wr
  end.

(** Every descriptor that is in an interest list of [w] is in that list
    of [w']. *)
Definition keeps_interest w w' : Prop :=
  _inputs (self w) ⊆ _inputs (self w') /\
  _outputs (self w) ⊆ _outputs (self w').

(** A computation that keeps the interest of every descriptor. *)
Definition grows {A} (m : M (world CB Ext) (event CB Ext) A) : Prop :=
  forall w, keeps_interest w (final (m w)).

End Observations.

(** *** More of the reactor: the inherited [next_tick], and what a pass
    leaves *)

Section More.
Context {CB Ext : Type} `{!Environment CB Ext}.
Implicit Types (w : world CB Ext) (r : reactor CB) (t : tid) (n : fd).

(** [Pyjo.Reactor.next_tick(cb)], which the select reactor inherits: it
    calls [self.timer(0, cb)], and [timer(cb, after)] of the select reactor
    takes the two the other way round, [cb = 0] and [after = cb]. [_timer]
    searches for an id, which raises where [md5_sum] does, and then adds
    [after], the callable, to [steady_time()], which raises [TypeError]. *)
Definition next_tick (fuel : nat) (cb : CB) : M (world CB Ext) (event CB Ext) tid :=
  _ <- _timer_id fuel ;;
  _ <- on_ext steady_time ;;
  raise TypeError.

(** Whether a timer is due at [now]: not [t['time'] > now]. *)
Definition is_due (now : Q) (tm : timer_t CB) : bool :=
  negb (Qlt_bool now (t_time tm)).

(** The table after a pass at [now] whose callbacks leave the reactor
    alone: the timers that are not due as they are, the due recurring ones
    rescheduled, the due one-shot ones gone. *)
Fixpoint after_pass (now : Q) (d : list (tid * timer_t CB)) : list (tid * timer_t CB) :=
  match d with
  | [] => []
  | (k, tm) :: d' =>
      if is_due now tm then
        match t_recurring tm with
        | Some interval => (k, rescheduled tm now interval) :: after_pass now d'
        | None => after_pass now d'
        end
      else (k, tm) :: after_pass now d'
  end.

(** The ids of the due timers that have a callback, in the order of the
    table. *)
Fixpoint due_callbacks (now : Q) (d : list (tid * timer_t CB)) : list tid :=
  match d with
  | [] => []
  | (k, tm) :: d' =>
      if is_due now tm then
        match t_cb tm with
        | Some _ => k :: due_callbacks now d'
        | None => due_callbacks now d'
        end
      else due_callbacks now d'
  end.

(** How many timers are due. *)
Fixpoint due_count (now : Q) (d : list (tid * timer_t CB)) : nat :=
  match d with
  | [] => 0
  | (_, tm) :: d' => ((if is_due now tm then 1 else 0) + due_count now d')%nat
  end.

(** A wait of a round that is in order: [select] with a timeout that is
    not negative, [sleep] with a timeout above zero. *)
Definition wait_ok (ev : event CB Ext) : Prop :=
  match ev with
  | EvSelect _ _ _ timeout => (0 <= timeout)%Q
  | EvSleep timeout => (0 < timeout)%Q
  | EvCall _ _ _ _ => True
  end.

(** Whether [select] reported [n] as readable or exceptional, and whether
    it reported it as writable only. *)
Definition on_read_path (rl xl : list fd) (n : fd) : bool :=
  bool_decide (n ∈ rl) || bool_decide (n ∈ xl).

Definition on_write_path (rl wl xl : list fd) (n : fd) : bool :=
  negb (on_read_path rl xl n) && bool_decide (n ∈ wl).

(** A computation that leaves interest lists without duplicates when it
    starts with such lists. *)
Definition keeps_interest_ok {A} (m : M (world CB Ext) (event CB Ext) A) : Prop :=
  forall w, interest_ok (self w) -> interest_ok (self (final (m w))).

(** A callback that returns and leaves the reactor object as it is. *)
Definition inert (cb : CB) : Prop :=
  forall args w, (call cb args w).1 = Ok tt /\ self (call cb args w).2 = self w.

End More.

End Reactor.

(** ** Pyjo.UserAgent: the connection engine *)

Module UserAgent.

Definition cid := string.
Definition stream := string.
Definition bytes := string.
(** A transaction object; it lives outside the engine. *)
Definition tx := nat.
(** The identity of a dict or of a [nonlocals()] object. *)
Definition loc := nat.

(** How a name captured by a closure reaches the engine: [Strong] when the
    name is bound to the engine itself (the parameter [self] of a method),
    [Proxy] when it is bound to [weakref.proxy(self)]. *)
Inductive engine_ref : Type :=
  | Strong
  | Proxy.

(** The callables the engine creates or is given, each with the names it
    captures from the scope it is created in. *)
Inductive callable : Type :=
  | user_cb (n : nat)
  | method_connected (self : engine_ref)
  | client_cb (self : engine_ref) (connect_vars : loc)
  | lambda_timeout (self : engine_ref) (c : cid)
  | lambda_close (self : engine_ref) (c : cid)
  | lambda_error (self : engine_ref) (c : cid)
  | lambda_read (self : engine_ref) (c : cid)
  | lambda_resume (self : engine_ref) (c : cid)
  | lambda_drain (self : engine_ref) (c : cid)
  | lambda_request_timeout (self : engine_ref) (c : cid).

(** The reference to the engine a callable holds, if it holds one. *)
Definition engine_of (cb : callable) : option engine_ref :=
  match cb with
  | user_cb _ => None
  | method_connected r | client_cb r _ => Some r
  | lambda_timeout r _ | lambda_close r _ | lambda_error r _
  | lambda_read r _ | lambda_resume r _ | lambda_drain r _
  | lambda_request_timeout r _ => Some r
  end.

(** A callable owns the engine when it keeps it alive. *)
Definition owns_engine (cb : callable) : bool :=
  match engine_of cb with
  | Some Strong => true
  | _ => false
  end.

(** The values callbacks are called with. *)
Inductive pyval : Type :=
  | PNone
  | PStr (s : string)
  | PObj.

Definition truthy (v : pyval) : bool :=
  match v with
  | PNone => false
  | PStr s => negb (bool_decide (s = EmptyString))
  | PObj => true
  end.

(** The dict [{'cb', 'nb', 'tx', 'writing'}] of a connection. *)
Record conn : Type := Conn {
  c_cb : callable;
  c_nb : bool;
  c_tx : option tx;
  c_writing : bool
}.

(** A value of the table [_connections]: a dict, by identity, or a value
    that is not true. *)
Inductive conn_val : Type :=
  | Falsy
  | Dict (l : loc).

(** The object [connect_vars = nonlocals()] of [_connect]. *)
Record connect_vars_t : Type := ConnectVars {
  cv_cb : callable;
  cv_ua : engine_ref;
  cv_cid : option cid
}.

(** The keyword arguments of [IOLoop.client]. *)
Record options : Type := Options {
  o_address : string;
  o_port : Z;
  o_timeout : Q;
  o_local_address : option string;
  o_handle : option string
}.

Record agent : Type := Agent {
  connect_timeout : Q;
  inactivity_timeout : Q;
  local_address : option string;
  request_timeout : Q;
  _connections : gmap cid conn_val
}.

Definition set_connections (m : gmap cid conn_val) (a : agent) : agent :=
  Agent (connect_timeout a) (inactivity_timeout a) (local_address a)
        (request_timeout a) m.

(** The attributes the class [Pyjo_UserAgent] defines, and [emit] and [on],
    which it uses from [Pyjo.EventEmitter]. *)
Definition attributes : list string :=
  ["connect_timeout"; "inactivity_timeout"; "ioloop"; "local_address";
   "request_timeout"; "transactor"; "_connections"; "build_tx"; "get";
   "start"; "_connect"; "_connected"; "_connection"; "_error"; "_finish";
   "_loop"; "_read"; "_start"; "_url"; "_write";
   "emit"; "on"].

Section Data.
Context {Ext : Type}.

(** The engine, the dicts and [nonlocals()] objects it created, the
    reactors of its two loops ([self.ioloop] and [Pyjo.IOLoop.singleton()])
    and everything else. [alive] is false once the engine object has been
    reclaimed, which does not happen while something owns it. *)
Record world : Type := World {
  ua : agent;
  alive : bool;
  dicts : gmap loc conn;
  nonlocals : gmap loc connect_vars_t;
  ioloop : Reactor.reactor callable;
  singleton : Reactor.reactor callable;
  ext : Ext
}.

Definition on_ua (f : agent -> agent) (w : world) : world :=
  World (f (ua w)) (alive w) (dicts w) (nonlocals w) (ioloop w) (singleton w)
        (ext w).
Definition set_dicts (d : gmap loc conn) (w : world) : world :=
  World (ua w) (alive w) d (nonlocals w) (ioloop w) (singleton w) (ext w).
Definition set_nonlocals (n : gmap loc connect_vars_t) (w : world) : world :=
  World (ua w) (alive w) (dicts w) n (ioloop w) (singleton w) (ext w).
Definition set_ext (e : Ext) (w : world) : world :=
  World (ua w) (alive w) (dicts w) (nonlocals w) (ioloop w) (singleton w) e.

(** [_loop(nb)], as the reactor of the loop it returns. *)
Definition _loop (nb : bool) (w : world) : Reactor.reactor callable :=
  if nb then singleton w else ioloop w.

Definition set_loop (nb : bool) (r : Reactor.reactor callable) (w : world) : world :=
  if nb
  then World (ua w) (alive w) (dicts w) (nonlocals w) (ioloop w) r (ext w)
  else World (ua w) (alive w) (dicts w) (nonlocals w) r (singleton w) (ext w).

(** The calls the engine makes to its collaborators. [EvClientWrite]
    carries the state [tx.client_write()] starts from. *)
Inductive event : Type :=
  | EvEmit (name : string) (t : tx)
  | EvClient (nb : bool) (cb : callable) (o : options)
  | EvStreamOn (s : stream) (name : string) (cb : callable)
  | EvStreamSet (nb : bool) (c : cid) (timeout : Q)
  | EvTxOn (t : tx) (name : string) (cb : callable)
  | EvClientWrite (t : tx) (w : world)
  | EvClientRead (t : tx) (data : bytes)
  | EvStreamWrite (nb : bool) (c : cid) (data : bytes) (cb : option callable)
  | EvCall (cb : callable) (args : list pyval).

End Data.
Arguments world : clear implicits.
Arguments event : clear implicits.

(** *** The collaborators of the engine

    The transactor, the transactions, the streams, [IOLoop.client] and
    [EventEmitter.emit] are not part of the engine; [_error] and [_finish]
    are its methods, and their bodies are not part of these sources. *)

Class Environment (Ext : Type) : Type := {
  (** the reactors of the two loops *)
  reactor_env :: Reactor.Environment callable Ext;
  (** [self.emit(name, tx)] *)
  emit : string -> tx -> world Ext -> outcome unit * world Ext;
  (** [tx.connection] *)
  tx_connection : tx -> Ext -> option string;
  (** [self.transactor.endpoint(tx)] and [self.transactor.peer(tx)] *)
  endpoint : tx -> Ext -> outcome (string * string * Z) * Ext;
  peer : tx -> Ext -> outcome (string * string * Z) * Ext;
  (** the id [loop.client(cb, **options)] returns *)
  client : bool -> options -> Ext -> outcome cid * Ext;
  (** [tx.is_writing] and [tx.is_finished] *)
  is_writing : tx -> Ext -> bool;
  is_finished : tx -> Ext -> bool;
  (** [tx.client_write()] and [tx.client_read(chunk)] *)
  client_write : tx -> world Ext -> outcome bytes * world Ext;
  client_read : tx -> bytes -> world Ext -> outcome unit * world Ext;
  (** [loop.stream(cid).set(timeout=...)] and [stream.write(chunk, cb)] *)
  stream_set : bool -> cid -> Q -> Ext -> outcome unit * Ext;
  stream_write : bool -> cid -> bytes -> Ext -> outcome unit * Ext;
  (** storing the connection id and the socket names in the transaction *)
  tx_store : tx -> cid -> Ext -> outcome unit * Ext;
  (** [self._error(cid, err)] and [self._finish(cid, close)] *)
  _error : cid -> string -> world Ext -> outcome unit * world Ext;
  _finish : cid -> bool -> world Ext -> outcome unit * world Ext;
  (** calling a callable of the caller *)
  call : callable -> list pyval -> world Ext -> outcome unit * world Ext
}.

Section Methods.
Context {Ext : Type} `{!Environment Ext}.

Abbreviation U := (M (world Ext) (event Ext)).

Definition on_ext {A} (f : Ext -> outcome A * Ext) : U A :=
  outside (fun w => let '(a, e) := f (ext w) in (a, set_ext e w)).

(** A method of the reactor of [_loop(nb)], run on that reactor. *)
Definition on_loop {A} (nb : bool)
    (m : M (Reactor.world callable Ext) (Reactor.event callable Ext) A) : U A :=
  outside (fun w =>
    let '(a, rw, _) := m (Reactor.World (_loop nb w) (ext w)) in
    (a, set_loop nb (Reactor.self rw) (set_ext (Reactor.ext rw) w))).

(** Modelled from the spec: [IOLoop.timer] is not part of these sources;
    a timeout is an ordinary one-shot timer of the loop's reactor. *)
Definition IOLoop_timer (fuel : nat) (nb : bool) (cb : callable) (after : Q)
  : U Reactor.tid :=
  on_loop nb (Reactor.timer fuel (Some cb) after).

(** Reaching the engine through a captured name: the engine itself is
    there; using a proxy of an engine that is gone raises
    [ReferenceError], also for its truth value. *)
Definition resolve (r : engine_ref) : U unit :=
  match r with
  | Strong => ret tt
  | Proxy =>
      live <- gets alive ;;
      if live then ret tt else raise ReferenceError
  end.

(** [self.name] for a name that is looked up on the engine. *)
Definition getattr (name : string) : U unit :=
  if bool_decide (name ∈ attributes) then ret tt else raise AttributeError.

(** The dict a reference points to. A dict lives as long as it is referred
    to, so the lookup finds it; the model raises otherwise. *)
Definition dict_at (l : loc) : U conn :=
  d <- gets (fun w => dicts w !! l) ;;
  match d with
  | Some d => ret d
  | None => raise (Exception "dangling reference")
  end.

Definition set_writing (l : loc) (b : bool) : U unit :=
  modify (fun w =>
    set_dicts (alter (fun d => Conn (c_cb d) (c_nb d) (c_tx d) b) l (dicts w)) w).

Definition get_is_writing (t : tx) : U bool := gets (fun w => is_writing t (ext w)).
Definition get_is_finished (t : tx) : U bool := gets (fun w => is_finished t (ext w)).

Definition do_stream_write (nb : bool) (c : cid) (data : bytes)
    (cb : option callable) : U unit :=
  tell (EvStreamWrite nb c data cb) ;;
  on_ext (stream_write nb c data).

Definition _write (c : cid) : U unit :=
  a <- gets ua ;;
  match _connections a !! c with
  | None => ret tt
  | Some Falsy => ret tt
  | Some (Dict l) =>
      d <- dict_at l ;;
      match c_tx d with
      | None => ret tt
      | Some t =>
          wants <- get_is_writing t ;;
          if negb wants then ret tt
          else if c_writing d then ret tt
          else
            set_writing l true ;;
            w <- gets id ;;
            tell (EvClientWrite t w) ;;
            chunk <- outside (client_write t) ;;
            set_writing l false ;;
            d' <- dict_at l ;;
            do_stream_write (c_nb d') c chunk None ;;
            finished <- get_is_finished t ;;
            (* self._finish(cid): _finish takes (cid, close) *)
            (if finished then raise TypeError else ret tt) ;;
            wants <- get_is_writing t ;;
            if negb wants then ret tt
            else do_stream_write (c_nb d') c EmptyString
                   (Some (lambda_drain Proxy c))
      end
  end.

Definition _read (c : cid) (chunk : bytes) : U unit :=
  a <- gets ua ;;
  match _connections a !! c with
  | None => ret tt
  | Some Falsy =>
      modify (on_ua (fun a => set_connections (delete c (_connections a)) a))
  | Some (Dict l) =>
      d <- dict_at l ;;
      match c_tx d with
      | None => getattr "_remove"
      | Some t =>
          tell (EvClientRead t chunk) ;;
          outside (client_read t chunk) ;;
          finished <- get_is_finished t ;;
          if finished then outside (_finish c false)
          else
            wants <- get_is_writing t ;;
            if wants then _write c else ret tt
      end
  end.

Definition _connected (c : cid) : U unit :=
  a <- gets ua ;;
  match _connections a !! c with
  | None => raise KeyError
  | Some Falsy => raise TypeError
  | Some (Dict l) =>
      d <- dict_at l ;;
      tell (EvStreamSet (c_nb d) c (inactivity_timeout a)) ;;
      on_ext (stream_set (c_nb d) c (inactivity_timeout a)) ;;
      match c_tx d with
      | None => raise AttributeError
      | Some t =>
          on_ext (tx_store t c) ;;
          (* self = weakref.proxy(self) *)
          tell (EvTxOn t "resume" (lambda_resume Proxy c)) ;;
          _write c
      end
  end.

(** [cb(cid)] at the end of [client_cb]. *)
Definition call_cb (cb : callable) (c : cid) : U unit :=
  tell (EvCall cb [PStr c]) ;;
  match cb with
  | method_connected _ => _connected c
  | _ => outside (call cb [PStr c])
  end.

(** The body of [client_cb(loop, err, stream)], for the closure that
    captured [self] and [connect_vars]. *)
Definition run_client_cb (self : engine_ref) (connect_vars : loc)
    (err : pyval) (s : stream) : U unit :=
  v <- gets (fun w => nonlocals w !! connect_vars) ;;
  match v with
  | None => raise (Exception "dangling reference")
  | Some v =>
      match cv_cid v with
      | None => raise AttributeError
      | Some c =>
          (* if not ua: the truth value of the proxy, which is true for
             a live engine *)
          resolve (cv_ua v) ;;
          if truthy err then
            match err with
            | PStr e => outside (_error c e)
            | _ => outside (_error c EmptyString)
            end
          else
            tell (EvStreamOn s "timeout" (lambda_timeout self c)) ;;
            tell (EvStreamOn s "close" (lambda_close self c)) ;;
            tell (EvStreamOn s "error" (lambda_error self c)) ;;
            tell (EvStreamOn s "read" (lambda_read self c)) ;;
            call_cb (cv_cb v) c
      end
  end.

(** What the callables of the engine do when they are called. *)
Definition fire (cb : callable) (args : list pyval) : U unit :=
  match cb, args with
  | client_cb self cv, [_; err; PStr s] => run_client_cb self cv err s
  | lambda_timeout self c, [_] =>
      resolve self ;; outside (_error c "Inactivity timeout")
  | lambda_close self c, [ua] =>
      if truthy ua then resolve self ;; outside (_finish c true) else ret tt
  | lambda_error self c, [ua; PStr err] =>
      if truthy ua then resolve self ;; outside (_error c err) else ret tt
  | lambda_read self c, [_; PStr chunk] => resolve self ;; _read c chunk
  | lambda_resume self c, [_] => resolve self ;; _write c
  | lambda_drain self c, [_] => resolve self ;; _write c
  | lambda_request_timeout self c, [_] =>
      resolve self ;; outside (_error c "Request timeout")
  | method_connected self, [PStr c] => resolve self ;; _connected c
  | _, _ => outside (call cb args)
  end.

Definition _connect (nb peer_ : bool) (t : tx) (handle : option string)
    (cb : callable) : U cid :=
  a <- gets ua ;;
  p <- on_ext (if peer_ then peer t else endpoint t) ;;
  let '(proto, host, port) := p in
  let local := local_address a in
  let o := Options host port (connect_timeout a)
             (match local with
              | Some s => if bool_decide (s = EmptyString) then None else Some s
              | None => None
              end)
             (match handle with
              | Some s => if bool_decide (s = EmptyString) then None else Some s
              | None => None
              end) in
  cv <- gets (fun w => fresh (dom (nonlocals w))) ;;
  modify (fun w => set_nonlocals (<[cv := ConnectVars cb Proxy None]> (nonlocals w)) w) ;;
  tell (EvClient nb (client_cb Strong cv) o) ;;
  c <- on_ext (client nb o) ;;
  modify (fun w =>
    set_nonlocals (alter (fun v => ConnectVars (cv_cb v) (cv_ua v) (Some c)) cv
                     (nonlocals w)) w) ;;
  ret c.

Definition _connection (nb : bool) (t : tx) (cb : callable) : U cid :=
  handle <- gets (fun w => tx_connection t (ext w)) ;;
  _ <- on_ext (endpoint t) ;;
  c <- _connect nb true t handle (method_connected Strong) ;;
  l <- gets (fun w => fresh (dom (dicts w))) ;;
  modify (fun w => set_dicts (<[l := Conn cb nb (Some t) false]> (dicts w)) w) ;;
  modify (on_ua (fun a => set_connections (<[c := Dict l]> (_connections a)) a)) ;;
  ret c.

Definition _start (fuel : nat) (nb : bool) (t : tx) (cb : callable) : U cid :=
  tell (EvEmit "start" t) ;;
  outside (emit "start" t) ;;
  c <- _connection nb t cb ;;
  timeout <- gets (fun w => request_timeout (ua w)) ;;
  (if negb (Qeq_bool timeout 0) then
     (* self.connections[id][timeout] = self._loop(nb).timer(...): the
        right-hand side first, then the target *)
     _ <- IOLoop_timer fuel nb (lambda_request_timeout Strong c) timeout ;;
     getattr "connections"
   else ret tt) ;;
  ret c.

End Methods.

(** *** What the properties speak of *)

Section Observations.
Context {Ext : Type}.

(** Whether an event is a call of [tx.client_write()]. *)
Definition is_client_write (ev : event Ext) : bool :=
  match ev with
  | EvClientWrite _ _ => true
  | _ => false
  end.

(** The handlers given to [stream.on], with their event names. *)
Definition stream_handlers (tr : list (event Ext)) : list (string * callable) :=
  omap (fun ev => match ev with
                  | EvStreamOn _ name cb => Some (name, cb)
                  | _ => None
                  end) tr.

End Observations.

Section InFlight.
Context {Ext : Type} `{!Environment Ext}.

(** What a trace hands to the stream: the bytes of each [stream.write],
    with its completion callback. *)
Definition stream_writes (tr : list (event Ext)) : list (bytes * option callable) :=
  omap (fun ev => match ev with
                  | EvStreamWrite _ _ data cb => Some (data, cb)
                  | _ => None
                  end) tr.

(** At most one write in flight for a connection, as the spec has it. A
    write is in flight from [stream.write] until its completion; so when
    a write request has handed bytes to the stream, a second request for
    the connection, made before any completion callback has been called,
    hands the stream nothing. *)
Definition one_write_in_flight (c : cid) (w : world Ext) : Prop :=
  stream_writes (trace (_write c w)) <> [] ->
  stream_writes (trace (_write c (final (_write c w)))) = [].

End InFlight.

End UserAgent.

(** ** Pyjo.Util: the environment variables *)

Module Util.

(** [os.environ]: the variables that are set, each with its text. *)
Definition environ := gmap string string.

(** What [getenv] returns: the text of a variable, or the default it was
    given, which is [None], a text or a number. *)
Inductive value : Type :=
  | VNone
  | VStr (s : string)
  | VInt (z : Z).

(** The truth value of what [getenv] returned, as in [if DEBUG:]. *)
Definition truth (v : value) : bool :=
  match v with
  | VNone => false
  | VStr s => negb (bool_decide (s = EmptyString))
  | VInt z => negb (z =? 0)%Z
  end.

(** [getenv(name, default)]: [os.environ.get(name, default)]. *)
Definition getenv (name : string) (default : value) (env : environ) : value :=
  match env !! name with
  | Some s => VStr s
  | None => default
  end.

(** [setenv(name, value)]: with [None] the variable is deleted if it is
    there, otherwise it is set. *)
Definition setenv (name : string) (v : option string) (env : environ) : environ :=
  match v with
  | None =>
      if bool_decide (is_Some (env !! name)) then delete name env else env
  | Some s => <[name := s]> env
  end.

(** [Pyjo.Reactor.detect()]. *)
Definition detect (env : environ) : value :=
  getenv "PYJO_REACTOR" (VStr "Pyjo.Reactor.Poll") env.

(** [DEBUG] of [Pyjo.Reactor.Select], as the module computes it when it is
    loaded. *)
Definition DEBUG (env : environ) : value :=
  getenv "PYJO_REACTOR_DEBUG" (VInt 0) env.

End Util.

(** ** Scenarios: a concrete environment and concrete states *)

Module Scenario.

(** The outside of the scenarios: the clock, and what the next [select]
    reports as readable, writable and exceptional. *)
Record outside_t : Type := Outside {
  clock : Q;
  ready : list Z * list Z * list Z
}.

(** Each descriptor once, in the order of first occurrence. *)
Fixpoint dedup (l : list Z) : list Z :=
  match l with
  | [] => []
  | x :: l' => x :: filter (fun y => y ≠ x) (dedup l')
  end.

(** No callback does anything, the clock stands still except in [sleep],
    and [md5_sum] gives a digest. *)
#[global] Instance reactor_env {CB : Type} : Reactor.Environment CB outside_t := {|
  Reactor.steady_time e := (clock e, e);
  Reactor.rand e := (0%Q, e);
  Reactor.md5_sum now r := Ok "d41d8cd98f00b204e9800998ecf8427e";
  Reactor.select_select rl wl xl timeout e := (Ok (ready e), e);
  Reactor.time_sleep timeout e := Outside (clock e + timeout)%Q (ready e);
  Reactor.list_set := dedup;
  Reactor.call cb args w := (Ok tt, w)
|}.

(** The same outside on an interpreter whose [hashlib] refuses text:
    [md5_sum] of the text ['t...'] raises [TypeError]. *)
Definition strict_env {CB : Type} : Reactor.Environment CB outside_t := {|
  Reactor.steady_time e := (clock e, e);
  Reactor.rand e := (0%Q, e);
  Reactor.md5_sum now r := Raise TypeError;
  Reactor.select_select rl wl xl timeout e := (Ok (ready e), e);
  Reactor.time_sleep timeout e := Outside (clock e + timeout)%Q (ready e);
  Reactor.list_set := dedup;
  Reactor.call cb args w := (Ok tt, w)
|}.


Definition quiet (now : Q) : outside_t := Outside now ([], [], []).

Definition empty_reactor : Reactor.reactor nat :=
  Reactor.Reactor_ false [] ∅ [] [].

(** Two one-shot timers: ["a"], first in the table, is due at 50, and ["b"]
    at 10. *)
Definition timer_a : Reactor.timer_t nat := Reactor.mk_timer (Some 1%nat) 50 50 None.
Definition timer_b : Reactor.timer_t nat := Reactor.mk_timer (Some 2%nat) 10 10 None.
Definition two_timers : Reactor.reactor nat :=
  Reactor.Reactor_ false [("a", timer_a); ("b", timer_b)] ∅ [] [].

(** A recurring timer of interval 20, due at 10. *)
Definition ticker : Reactor.timer_t nat :=
  Reactor.mk_timer (Some 3%nat) 20 10 (Some 20%Q).
Definition one_ticker : Reactor.reactor nat :=
  Reactor.Reactor_ false [("r", ticker)] ∅ [] [].


(** Descriptor 7 with a watcher and both interests. *)
Definition watching : Reactor.reactor nat :=
  Reactor.Reactor_ false [] {[ 7%Z := Reactor.Io 4%nat ]} [7%Z] [7%Z].

(** The collaborators of the engine: connecting gives the id ["c1"], the
    transaction always wants to write and is never finished, and nothing
    else does anything. *)
#[global] Instance agent_env : UserAgent.Environment outside_t := {|
  UserAgent.reactor_env := reactor_env;
  UserAgent.emit name t w := (Ok tt, w);
  UserAgent.tx_connection t e := None;
  UserAgent.endpoint t e := (Ok ("http", "example.com", 80%Z), e);
  UserAgent.peer t e := (Ok ("http", "example.com", 80%Z), e);
  UserAgent.client nb o e := (Ok "c1", e);
  UserAgent.is_writing t e := true;
  UserAgent.is_finished t e := false;
  UserAgent.client_write t w := (Ok "GET / HTTP/1.1", w);
  UserAgent.client_read t data w := (Ok tt, w);
  UserAgent.stream_set nb c timeout e := (Ok tt, e);
  UserAgent.stream_write nb c data e := (Ok tt, e);
  UserAgent.tx_store t c e := (Ok tt, e);
  UserAgent._error c err w := (Ok tt, w);
  UserAgent._finish c close w := (Ok tt, w);
  UserAgent.call cb args w := (Ok tt, w)
|}.

Definition idle_loop : Reactor.reactor UserAgent.callable :=
  Reactor.Reactor_ false [] ∅ [] [].

(** An engine with no connection and the request timeout [timeout]. *)
Definition fresh_engine (timeout : Q) : UserAgent.world outside_t :=
  UserAgent.World (UserAgent.Agent 10 30 None timeout ∅) true ∅ ∅
    idle_loop idle_loop (quiet 100).

(** An engine whose connection ["c1"] is in the middle of a write. *)
Definition writing_engine : UserAgent.world outside_t :=
  UserAgent.World
    (UserAgent.Agent 10 30 None 0 {[ "c1" := UserAgent.Dict 0%nat ]})
    true
    {[ 0%nat := UserAgent.Conn (UserAgent.user_cb 0) false (Some 0%nat) true ]}
    ∅ idle_loop idle_loop (quiet 100).

(** The same engine once it has been reclaimed. *)
Definition reclaimed_engine : UserAgent.world outside_t :=
  UserAgent.World (UserAgent.ua writing_engine) false
    (UserAgent.dicts writing_engine) ∅ idle_loop idle_loop (quiet 100).

(** Collaborators as in [agent_env], but with a transaction that is
    finished as soon as it is asked. *)
Definition finishing_env : UserAgent.Environment outside_t := {|
  UserAgent.reactor_env := reactor_env;
  UserAgent.emit name t w := (Ok tt, w);
  UserAgent.tx_connection t e := None;
  UserAgent.endpoint t e := (Ok ("http", "example.com", 80%Z), e);
  UserAgent.peer t e := (Ok ("http", "example.com", 80%Z), e);
  UserAgent.client nb o e := (Ok "c1", e);
  UserAgent.is_writing t e := true;
  UserAgent.is_finished t e := true;
  UserAgent.client_write t w := (Ok "GET / HTTP/1.1", w);
  UserAgent.client_read t data w := (Ok tt, w);
  UserAgent.stream_set nb c timeout e := (Ok tt, e);
  UserAgent.stream_write nb c data e := (Ok tt, e);
  UserAgent.tx_store t c e := (Ok tt, e);
  UserAgent._error c err w := (Ok tt, w);
  UserAgent._finish c close w := (Ok tt, w);
  UserAgent.call cb args w := (Ok tt, w)
|}.

(** Collaborators as in [agent_env], but with a transaction whose
    [client_write] raises. *)
Definition failing_env : UserAgent.Environment outside_t := {|
  UserAgent.reactor_env := reactor_env;
  UserAgent.emit name t w := (Ok tt, w);
  UserAgent.tx_connection t e := None;
  UserAgent.endpoint t e := (Ok ("http", "example.com", 80%Z), e);
  UserAgent.peer t e := (Ok ("http", "example.com", 80%Z), e);
  UserAgent.client nb o e := (Ok "c1", e);
  UserAgent.is_writing t e := true;
  UserAgent.is_finished t e := false;
  UserAgent.client_write t w := (Raise (Exception "no chunk"), w);
  UserAgent.client_read t data w := (Ok tt, w);
  UserAgent.stream_set nb c timeout e := (Ok tt, e);
  UserAgent.stream_write nb c data e := (Ok tt, e);
  UserAgent.tx_store t c e := (Ok tt, e);
  UserAgent._error c err w := (Ok tt, w);
  UserAgent._finish c close w := (Ok tt, w);
  UserAgent.call cb args w := (Ok tt, w)
|}.

(** An engine whose connection ["c1"] is not writing. *)
Definition ready_engine : UserAgent.world outside_t :=
  UserAgent.World
    (UserAgent.Agent 10 30 None 0 {[ "c1" := UserAgent.Dict 0%nat ]})
    true
    {[ 0%nat := UserAgent.Conn (UserAgent.user_cb 0) false (Some 0%nat) false ]}
    ∅ idle_loop idle_loop (quiet 100).

(** An engine whose record of ["c1"] is not a dict. *)
Definition stale_engine : UserAgent.world outside_t :=
  UserAgent.World
    (UserAgent.Agent 10 30 None 0 {[ "c1" := UserAgent.Falsy ]})
    true ∅ ∅ idle_loop idle_loop (quiet 100).

End Scenario.

(** * Properties *)

(** ** The monad *)

Section MonadFacts.
Context {St Ev : Type}.

Lemma result_bind {A B} (m : M St Ev A) (k : A -> M St Ev B) s :
  result (bind m k s) =
  match result (m s) with
  | Ok a => result (k a (final (m s)))
  | Raise e => Raise e
  | OutOfFuel => OutOfFuel
  end.
Proof.
  unfold bind, result, final.
  destruct (m s) as [[[a|e|] s1] t1]; simpl; try reflexivity.
  destruct (k a s1) as [[r s2] t2]; reflexivity.
Qed.

Lemma final_bind {A B} (m : M St Ev A) (k : A -> M St Ev B) s :
  final (bind m k s) =
  match result (m s) with
  | Ok a => final (k a (final (m s)))
  | _ => final (m s)
  end.
Proof.
  unfold bind, result, final.
  destruct (m s) as [[[a|e|] s1] t1]; simpl; try reflexivity.
  destruct (k a s1) as [[r s2] t2]; reflexivity.
Qed.

Lemma trace_bind {A B} (m : M St Ev A) (k : A -> M St Ev B) s :
  trace (bind m k s) =
  trace (m s) ++
  match result (m s) with
  | Ok a => trace (k a (final (m s)))
  | _ => []
  end.
Proof.
  unfold bind, result, final, trace.
  destruct (m s) as [[[a|e|] s1] t1]; simpl; rewrite ?app_nil_r; try reflexivity.
  destruct (k a s1) as [[r s2] t2]; reflexivity.
Qed.

Lemma trace_bind_Forall {A B} (P : Ev -> Prop)
    (m : M St Ev A) (k : A -> M St Ev B) s :
  Forall P (trace (m s)) ->
  (forall a s', Forall P (trace (k a s'))) ->
  Forall P (trace (bind m k s)).
Proof.
  intros Hm Hk. rewrite trace_bind. apply Forall_app. split; [exact Hm|].
  destruct (result (m s)); [apply Hk | constructor | constructor].
Qed.

Lemma bind_ret {A B} (a : A) (k : A -> M St Ev B) s : bind (ret a) k s = k a s.
Proof. unfold bind, ret. destruct (k a s) as [[r s2] t2]. reflexivity. Qed.

Lemma bind_gets {A B} (f : St -> A) (k : A -> M St Ev B) s :
  bind (gets f) k s = k (f s) s.
Proof. unfold bind, gets. destruct (k (f s) s) as [[r s2] t2]. reflexivity. Qed.

Lemma bind_modify {B} (f : St -> St) (k : unit -> M St Ev B) s :
  bind (modify f) k s = k tt (f s).
Proof. unfold bind, modify. destruct (k tt (f s)) as [[r s2] t2]. reflexivity. Qed.

Lemma bind_tell {B} (e : Ev) (k : unit -> M St Ev B) s :
  bind (tell e) k s = (result (k tt s), final (k tt s), e :: trace (k tt s)).
Proof. unfold bind, tell. destruct (k tt s) as [[r s2] t2]. reflexivity. Qed.

Lemma bind_raise {A B} (e : exn) (k : A -> M St Ev B) s :
  bind (raise e) k s = (Raise e, s, []).
Proof. reflexivity. Qed.

Lemma bind_of_outcome {A B} (o : outcome A) (k : A -> M St Ev B) s :
  bind (of_outcome o) k s =
  match o with
  | Ok a => k a s
  | Raise e => (Raise e, s, [])
  | OutOfFuel => (OutOfFuel, s, [])
  end.
Proof.
  unfold bind, of_outcome. destruct o as [a|e|]; try reflexivity.
  destruct (k a s) as [[r s2] t2]. reflexivity.
Qed.

Lemma bind_outside {A B} (f : St -> outcome A * St) (k : A -> M St Ev B) s :
  bind (outside f) k s =
  match (f s).1 with
  | Ok a => k a (f s).2
  | Raise e => (Raise e, (f s).2, [])
  | OutOfFuel => (OutOfFuel, (f s).2, [])
  end.
Proof.
  unfold bind, outside. destruct (f s) as [[a|e|] s1]; simpl; try reflexivity.
  destruct (k a s1) as [[r s2] t2]. reflexivity.
Qed.

Lemma bind_assoc {A B C} (m : M St Ev A) (k : A -> M St Ev B)
    (h : B -> M St Ev C) s :
  bind (bind m k) h s = bind m (fun a => bind (k a) h) s.
Proof.
  unfold bind. destruct (m s) as [[[a|e|] s1] t1]; try reflexivity.
  destruct (k a s1) as [[[b|e|] s2] t2]; try reflexivity.
  destruct (h b s2) as [[r s3] t3]. rewrite app_assoc. reflexivity.
Qed.

Lemma bind_silent {A B} (m : M St Ev A) (k : A -> M St Ev B) s a s1 :
  m s = (Ok a, s1, []) -> bind m k s = k a s1.
Proof.
  intros E. unfold bind. rewrite E. destruct (k a s1) as [[r s2] t2]. reflexivity.
Qed.

Lemma bind_Ok_inv {A B} (m : M St Ev A) (k : A -> M St Ev B) s b :
  result (bind m k s) = Ok b ->
  exists a, result (m s) = Ok a /\
            result (k a (final (m s))) = Ok b /\
            final (bind m k s) = final (k a (final (m s))).
Proof.
  rewrite result_bind, final_bind.
  destruct (result (m s)) as [a|e|]; [|discriminate..].
  intros H. exists a. auto.
Qed.

Lemma trace_outside {A} (f : St -> outcome A * St) s :
  trace (outside (Ev := Ev) f s) = [].
Proof. unfold outside. destruct (f s). reflexivity. Qed.

Lemma run_eta {A} (x : outcome A * St * list Ev) :
  x = (result x, final x, trace x).
Proof. destruct x as [[r s] t]. reflexivity. Qed.

End MonadFacts.

(** ** The dict *)

Section PyDictFacts.
Context {V : Type}.
Implicit Types (d : list (string * V)) (k : string).

Lemma PyDict_get_del k d : PyDict.get k (PyDict.del k d) = None.
Proof.
  induction d as [|[k' v'] d IH]; simpl; [reflexivity|].
  destruct (decide (k = k')) as [->|Hne]; [exact IH|].
  simpl. destruct (decide (k = k')); [contradiction | exact IH].
Qed.

Lemma PyDict_get_set k v d : PyDict.get k (PyDict.set k v d) = Some v.
Proof.
  induction d as [|[k' v'] d IH]; simpl.
  - destruct (decide (k = k)); [reflexivity | contradiction].
  - destruct (decide (k = k')) as [->|Hne]; simpl.
    + destruct (decide (k' = k')); [reflexivity | contradiction].
    + destruct (decide (k = k')); [contradiction | exact IH].
Qed.

Lemma PyDict_contains_get k d :
  PyDict.contains k d = true <-> exists v, PyDict.get k d = Some v.
Proof.
  unfold PyDict.contains. destruct (PyDict.get k d) as [v|].
  - split; [eauto | reflexivity].
  - split; [discriminate | intros [v Hv]; discriminate].
Qed.

Lemma PyDict_del_absent k d : PyDict.get k d = None -> PyDict.del k d = d.
Proof.
  induction d as [|[k' v'] d IH]; simpl; [reflexivity|].
  destruct (decide (k = k')); [discriminate|].
  intros H. rewrite IH; [reflexivity | exact H].
Qed.

End PyDictFacts.

(** ** The reactor *)

Module ReactorFacts.
Import Reactor.

Section Facts.
Context {CB Ext : Type} `{!Environment CB Ext}.
Implicit Types (w : world CB Ext) (r : reactor CB) (t : tid) (n : fd).
Implicit Types (tr : list (event CB Ext)).

(** *** An empty reactor stops *)

(** C6. With no timer and no watcher, [one_tick] sets [_running] to false
    and returns at once: it consults neither the clock nor [select], does
    not sleep and calls no callback, and the outside is as it was. [start]
    on such a reactor returns after that one round. *)
Theorem one_tick_empty_stops (fuel rounds : nat) w :
  _timers (self w) = [] ->
  _ios (self w) = ∅ ->
  one_tick (S fuel) w = (Ok tt, stopped w, []) /\
  start (S rounds) (S fuel) w = (Ok tt, stopped w, []).
Proof.
  destruct w as [[run tms ios ins outs] e]. simpl. intros -> ->.
  split; [reflexivity | destruct rounds; reflexivity].
Qed.

(** *** What a round calls *)

Lemma trace_on_ext {A} (f : Ext -> A * Ext) w : trace (on_ext f w) = [].
Proof. unfold on_ext. apply trace_outside. Qed.

Lemma trace_sandbox cb d args w :
  trace (_sandbox cb d args w) = [EvCall d cb args w].
Proof.
  unfold _sandbox. rewrite trace_bind. simpl. rewrite trace_bind. simpl.
  rewrite trace_outside. reflexivity.
Qed.

Lemma result_on_ext {A} (f : Ext -> A * Ext) w :
  result (on_ext f w) = Ok (f (ext w)).1 /\
  final (on_ext f w) = World (self w) (f (ext w)).2.
Proof. unfold on_ext, outside. destruct (f (ext w)). split; reflexivity. Qed.

Lemma timer_loop_trace_at (P : event CB Ext -> Prop) now :
  (forall t w, Forall P (trace (timer_step now t w))) ->
  forall tids w, Forall P (trace (timer_loop now tids w)).
Proof.
  intros Hstep tids.
  induction tids as [|t tids IH]; intros w; simpl.
  - constructor.
  - apply trace_bind_Forall; [apply Hstep|]. intros i w1.
    apply trace_bind_Forall; [apply IH|]. intros j w2. constructor.
Qed.

(** The trace of a round, piece by piece: a property of events that holds
    of what each timer step records, and of every event that is not the
    call of a timer, holds of the whole round. *)
Section RoundTrace.
Variable P : event CB Ext -> Prop.
Hypothesis P_other : forall ev, timer_call ev = false -> P ev.
Hypothesis P_timer_step : forall now t w, Forall P (trace (timer_step now t w)).

Lemma timer_loop_trace now tids w : Forall P (trace (timer_loop now tids w)).
Proof. apply timer_loop_trace_at. apply P_timer_step. Qed.

Lemma timers_phase_trace w : Forall P (trace (timers_phase w)).
Proof.
  unfold timers_phase.
  apply trace_bind_Forall; [rewrite trace_on_ext; constructor|]. intros now w1.
  apply trace_bind_Forall; [constructor|]. intros tids w2.
  apply timer_loop_trace.
Qed.

Lemma io_step_trace rl wl xl n w : Forall P (trace (io_step rl wl xl n w)).
Proof.
  unfold io_step.
  destruct (bool_decide (n ∈ rl) || bool_decide (n ∈ xl)).
  - apply trace_bind_Forall; [constructor|]. intros r w1.
    destruct (_ios r !! n) as [i|]; [|constructor].
    apply trace_bind_Forall; [|intros; constructor].
    rewrite trace_sandbox. repeat constructor. apply P_other. reflexivity.
  - destruct (bool_decide (n ∈ wl)); [|constructor].
    apply trace_bind_Forall; [constructor|]. intros r w1.
    destruct (_ios r !! n) as [i|]; [|constructor].
    apply trace_bind_Forall; [|intros; constructor].
    rewrite trace_sandbox. repeat constructor. apply P_other. reflexivity.
Qed.

Lemma io_loop_trace rl wl xl fds w : Forall P (trace (io_loop rl wl xl fds w)).
Proof.
  revert w. induction fds as [|n fds IH]; intros w; simpl.
  - constructor.
  - apply trace_bind_Forall; [apply io_step_trace|]. intros i w1.
    apply trace_bind_Forall; [apply IH|]. intros j w2. constructor.
Qed.

Lemma do_select_trace rl wl xl timeout w :
  Forall P (trace (do_select rl wl xl timeout w)).
Proof.
  unfold do_select. rewrite bind_tell. unfold trace at 1. simpl.
  rewrite trace_outside. repeat constructor. apply P_other. reflexivity.
Qed.

Lemma io_phase_trace timeout w : Forall P (trace (io_phase timeout w)).
Proof.
  unfold io_phase.
  apply trace_bind_Forall; [constructor|]. intros r w1.
  apply trace_bind_Forall; [apply do_select_trace|].
  intros [[rl wl] xl] w3. apply io_loop_trace.
Qed.

Lemma one_tick_loop_trace fuel w : Forall P (trace (one_tick_loop fuel w)).
Proof.
  revert w. induction fuel as [|fuel IH]; intros w; simpl; [constructor|].
  apply trace_bind_Forall; [constructor|]. intros r w1.
  destruct (PyDict.is_empty (_timers r) && bool_decide (_ios r = ∅)).
  { apply trace_bind_Forall; [constructor | intros; constructor]. }
  apply trace_bind_Forall.
  { destruct (map t_time (PyDict.values (_timers r))); [constructor|].
    apply trace_bind_Forall; [rewrite trace_on_ext; constructor|].
    intros; constructor. }
  intros timeout w2.
  apply trace_bind_Forall.
  { destruct (negb (bool_decide (_ios r = ∅))); [apply io_phase_trace|].
    destruct (negb (Qeq_bool _ 0)); [|constructor].
    apply trace_bind_Forall.
    { repeat constructor. apply P_other. reflexivity. }
    intros _ w3.
    apply trace_bind_Forall; [rewrite trace_on_ext; constructor|].
    intros; constructor. }
  intros i w3.
  apply trace_bind_Forall; [apply timers_phase_trace|]. intros j w4.
  destruct (i + j =? 0)%nat; [apply IH | constructor].
Qed.

Lemma one_tick_trace fuel w : Forall P (trace (one_tick fuel w)).
Proof.
  unfold one_tick.
  apply trace_bind_Forall; [constructor|]. intros running w1.
  apply trace_bind_Forall; [constructor|]. intros _ w2.
  apply trace_bind_Forall; [apply one_tick_loop_trace|]. intros e w3.
  destruct e; [constructor|].
  apply trace_bind_Forall; [constructor|]. intros b w4.
  destruct b; constructor.
Qed.

End RoundTrace.

(** *** One timer step *)

Lemma remove_timer_eq t w :
  remove (RTimer t) w =
  (Ok (Some (PyDict.contains t (_timers (self w)))),
   (if PyDict.contains t (_timers (self w))
    then on_self (set_timers (PyDict.del t (_timers (self w)))) w else w),
   []).
Proof.
  unfold remove. rewrite bind_gets.
  destruct (PyDict.contains t (_timers (self w))); [|reflexivity].
  rewrite bind_modify. reflexivity.
Qed.

Lemma sandbox_eq cb d args w :
  _sandbox cb d args w =
  ((call cb args w).1, (call cb args w).2, [EvCall d cb args w]).
Proof.
  unfold _sandbox. rewrite bind_gets, bind_tell. unfold outside, id.
  destruct (call cb args w). reflexivity.
Qed.

Lemma call_timer_eq t tm now w :
  bind (match t_cb tm with
        | Some cb => _sandbox cb (Timer t tm now) []
        | None => ret tt
        end) (fun _ => ret 1%nat) w = call_timer t tm now w.
Proof.
  unfold call_timer. destruct (t_cb tm) as [cb|]; [|reflexivity].
  unfold bind. rewrite sandbox_eq.
  destruct (call cb [] w) as [[[]|e|] w2]; reflexivity.
Qed.

Lemma timer_step_skip now t w :
  match PyDict.get t (_timers (self w)) with
  | Some tm => Qlt_bool now (t_time tm) = true
  | None => True
  end ->
  timer_step now t w = (Ok 0%nat, w, []).
Proof.
  unfold timer_step. rewrite bind_gets.
  destruct (PyDict.get t (_timers (self w))) as [tm|]; [|reflexivity].
  intros ->. reflexivity.
Qed.

Lemma timer_step_one_shot now t tm w :
  PyDict.get t (_timers (self w)) = Some tm ->
  Qlt_bool now (t_time tm) = false ->
  t_recurring tm = None ->
  timer_step now t w =
  call_timer t tm now (on_self (set_timers (PyDict.del t (_timers (self w)))) w).
Proof.
  intros Hget Hdue Hrec.
  assert (Hc : PyDict.contains t (_timers (self w)) = true).
  { apply PyDict_contains_get. eauto. }
  unfold timer_step. rewrite bind_gets, Hget, Hdue, Hrec.
  rewrite bind_assoc.
  rewrite (bind_silent _ _ _ _ _ (remove_timer_eq t w)), Hc.
  rewrite bind_ret. apply call_timer_eq.
Qed.

Lemma timer_step_recurring now t tm interval w :
  PyDict.get t (_timers (self w)) = Some tm ->
  Qlt_bool now (t_time tm) = false ->
  t_recurring tm = Some interval ->
  timer_step now t w =
  call_timer t tm now
    (on_self (set_timers (PyDict.set t (rescheduled tm now interval)
                            (_timers (self w)))) w).
Proof.
  intros Hget Hdue Hrec.
  unfold timer_step. rewrite bind_gets, Hget, Hdue, Hrec.
  rewrite bind_modify. rewrite call_timer_eq. f_equal.
  unfold on_self, rescheduled. rewrite Hrec. reflexivity.
Qed.

(** The cases of a step. *)
Lemma timer_step_cases now t w :
  timer_step now t w = (Ok 0%nat, w, []) \/
  exists tm, PyDict.get t (_timers (self w)) = Some tm /\
    Qlt_bool now (t_time tm) = false /\
    ((t_recurring tm = None /\
      timer_step now t w =
      call_timer t tm now
        (on_self (set_timers (PyDict.del t (_timers (self w)))) w)) \/
     (exists interval, t_recurring tm = Some interval /\
      timer_step now t w =
      call_timer t tm now
        (on_self (set_timers (PyDict.set t (rescheduled tm now interval)
                                (_timers (self w)))) w))).
Proof.
  destruct (PyDict.get t (_timers (self w))) as [tm|] eqn:Hget.
  - destruct (Qlt_bool now (t_time tm)) eqn:Hdue.
    + left. apply timer_step_skip. rewrite Hget. exact Hdue.
    + right. exists tm. split; [reflexivity|]. split; [exact Hdue|].
      destruct (t_recurring tm) as [interval|] eqn:Hrec.
      * right. exists interval. split; [reflexivity|].
        apply timer_step_recurring; assumption.
      * left. split; [reflexivity|]. apply timer_step_one_shot; assumption.
  - left. apply timer_step_skip. rewrite Hget. exact I.
Qed.

Lemma call_timer_trace t tm now w :
  trace (call_timer t tm now w) =
  match t_cb tm with
  | Some cb => [EvCall (Timer t tm now) cb [] w]
  | None => []
  end.
Proof. unfold call_timer. destruct (t_cb tm); reflexivity. Qed.

(** *** One-shot timers *)

(** C4. Whenever [one_tick] calls the callback of a timer that it found in
    the table as a one-shot timer (no key ['recurring']), the state the
    callback starts from has no entry for the timer's id: the callback sees
    a table from which its own timer is gone. *)
Theorem one_shot_removed_before_callback fuel w0 t tm now cb args w :
  EvCall (Timer t tm now) cb args w ∈ trace (one_tick fuel w0) ->
  t_recurring tm = None ->
  PyDict.get t (_timers (self w)) = None.
Proof.
  intros Hin. revert Hin.
  pose (P := fun ev : event CB Ext =>
    match ev with
    | EvCall (Timer t tm _) _ _ w =>
        t_recurring tm = None -> PyDict.get t (_timers (self w)) = None
    | _ => True
    end).
  assert (HP : Forall P (trace (one_tick fuel w0))).
  { apply one_tick_trace.
    - intros [| |[] ? ? ?]; simpl; intros; try exact I; discriminate.
    - clear. intros now t w.
      destruct (timer_step_cases now t w) as [-> | (tm & Hget & Hdue & Hcase)];
        [constructor|].
      destruct Hcase as [[Hrec ->] | (interval & Hrec & ->)];
        rewrite call_timer_trace; destruct (t_cb tm); repeat constructor; simpl.
      + intros _. apply PyDict_get_del.
      + rewrite Hrec. discriminate. }
  rewrite Forall_forall in HP. intros Hin. exact (HP _ Hin).
Qed.

(** *** Recurring timers *)

(** C5. A recurring timer that is due is rescheduled to the instant [now]
    of the pass plus its interval, whatever its previous deadline was, and
    keeps its callback, its [after] and its interval; this is the state in
    which its callback, if it has one, is called. In a round of [one_tick]
    every call of a recurring timer's callback starts from a table that
    holds the timer so rescheduled, and [now] is what [steady_time()]
    returned at the start of the timers' pass. *)
Theorem recurring_rescheduled_from_now :
  (forall now t tm interval w,
     PyDict.get t (_timers (self w)) = Some tm ->
     Qlt_bool now (t_time tm) = false ->
     t_recurring tm = Some interval ->
     timer_step now t w =
     call_timer t tm now
       (on_self (set_timers
          (PyDict.set t
             (mk_timer (t_cb tm) (t_after tm) (now + interval)%Q (Some interval))
             (_timers (self w)))) w)) /\
  (forall fuel w0 t tm now cb args w interval,
     EvCall (Timer t tm now) cb args w ∈ trace (one_tick fuel w0) ->
     t_recurring tm = Some interval ->
     PyDict.get t (_timers (self w)) =
     Some (mk_timer (t_cb tm) (t_after tm) (now + interval)%Q (Some interval))) /\
  (forall w0 t tm now cb args w,
     EvCall (Timer t tm now) cb args w ∈ trace (timers_phase w0) ->
     now = (steady_time (ext w0)).1).
Proof.
  split; [|split].
  - intros now t tm interval w Hget Hdue Hrec.
    rewrite (timer_step_recurring now t tm interval w Hget Hdue Hrec).
    unfold rescheduled. rewrite Hrec. reflexivity.
  - intros fuel w0 t tm now cb args w interval Hin. revert interval.
    pose (P := fun ev : event CB Ext =>
      match ev with
      | EvCall (Timer t tm now) _ _ w =>
          forall interval, t_recurring tm = Some interval ->
          PyDict.get t (_timers (self w)) =
          Some (mk_timer (t_cb tm) (t_after tm) (now + interval)%Q (Some interval))
      | _ => True
      end).
    assert (HP : Forall P (trace (one_tick fuel w0))).
    { apply one_tick_trace.
      - intros [| |[] ? ? ?]; simpl; intros; try exact I; discriminate.
      - clear. intros now t w.
        destruct (timer_step_cases now t w) as [-> | (tm & Hget & Hdue & Hcase)];
          [constructor|].
        destruct Hcase as [[Hrec ->] | (interval & Hrec & ->)];
          rewrite call_timer_trace; destruct (t_cb tm) eqn:Hcb;
          repeat constructor; simpl.
        + intros interval Hi. rewrite Hrec in Hi. discriminate.
        + intros i Hi. rewrite Hrec in Hi. injection Hi as <-.
          rewrite PyDict_get_set. unfold rescheduled. rewrite Hrec, Hcb.
          reflexivity. }
    rewrite Forall_forall in HP. exact (HP _ Hin).
  - intros w0 t tm now cb args w Hin.
    pose (P := fun ev : event CB Ext =>
      match ev with
      | EvCall (Timer _ _ now) _ _ _ => now = (steady_time (ext w0)).1
      | _ => True
      end).
    assert (HP : Forall P (trace (timers_phase w0))).
    { unfold timers_phase. rewrite trace_bind.
      destruct (result_on_ext steady_time w0) as [-> _].
      rewrite trace_on_ext. simpl.
      rewrite bind_gets. apply timer_loop_trace_at.
      intros t' w'.
      destruct (timer_step_cases (steady_time (ext w0)).1 t' w')
        as [-> | (tm' & Hget & Hdue & Hcase)]; [constructor|].
      destruct Hcase as [[Hrec ->] | (interval & Hrec & ->)];
        rewrite call_timer_trace; destruct (t_cb tm');
        repeat constructor. }
    rewrite Forall_forall in HP. exact (HP _ Hin).
Qed.

(** *** The order of the timers of a pass *)

Lemma fired_app tr1 tr2 : fired (tr1 ++ tr2) = fired tr1 ++ fired tr2.
Proof. apply omap_app. Qed.

Lemma timer_step_fired now t w :
  fired (trace (timer_step now t w)) = [] \/
  fired (trace (timer_step now t w)) = [t].
Proof.
  destruct (timer_step_cases now t w) as [-> | (tm & Hget & Hdue & Hcase)];
    [left; reflexivity|].
  destruct Hcase as [[Hrec ->] | (interval & Hrec & ->)];
    rewrite call_timer_trace; destruct (t_cb tm); auto.
Qed.

Lemma timer_loop_fired now tids w :
  fired (trace (timer_loop now tids w)) `sublist_of` tids.
Proof.
  revert w. induction tids as [|t tids IH]; intros w; simpl.
  - constructor.
  - rewrite trace_bind, fired_app.
    assert (Hrest :
      fired (match result (timer_step now t w) with
             | Ok i => trace (bind (timer_loop now tids)
                                (fun j => ret (i + j)%nat)
                                (final (timer_step now t w)))
             | _ => []
             end) `sublist_of` tids).
    { destruct (result (timer_step now t w)); try apply sublist_nil_l.
      rewrite trace_bind, fired_app.
      destruct (result (timer_loop now tids _)); simpl;
        rewrite app_nil_r; apply IH. }
    destruct (timer_step_fired now t w) as [-> | ->]; simpl.
    + apply sublist_cons. exact Hrest.
    + apply sublist_skip. exact Hrest.
Qed.

(** C1, as the code has it. In every pass of [one_tick] the timers are
    called in the order in which the table lists them: the ids of the
    timers whose callbacks the pass calls, in the order of the calls, are a
    subsequence of the keys the table has when the pass starts. Deadlines
    decide which timers are due, not their order. *)
Theorem timers_dispatched_in_table_order w :
  fired (trace (timers_phase w)) `sublist_of` PyDict.keys (_timers (self w)).
Proof.
  unfold timers_phase. rewrite trace_bind.
  destruct (result_on_ext steady_time w) as [-> ->].
  rewrite trace_on_ext. simpl. rewrite bind_gets. simpl.
  apply timer_loop_fired.
Qed.

(** *** Descriptors that are ready to read and to write *)

Lemma count_app f tr1 tr2 : count f (tr1 ++ tr2) = (count f tr1 + count f tr2)%nat.
Proof. induction tr1 as [|ev tr1 IH]; simpl; [reflexivity | rewrite IH; lia]. Qed.

Lemma io_step_eq rl wl xl n w :
  io_step rl wl xl n w =
  if bool_decide (n ∈ rl) || bool_decide (n ∈ xl) then
    match _ios (self w) !! n with
    | None => (Raise KeyError, w, [])
    | Some i => call_io (Read n) (io_cb i) 0 w
    end
  else if bool_decide (n ∈ wl) then
    match _ios (self w) !! n with
    | None => (Raise KeyError, w, [])
    | Some i => call_io (Write n) (io_cb i) 1 w
    end
  else (Ok 0%nat, w, []).
Proof.
  unfold io_step, call_io.
  destruct (bool_decide (n ∈ rl) || bool_decide (n ∈ xl)).
  - rewrite bind_gets. destruct (_ios (self w) !! n) as [i|]; [|reflexivity].
    unfold bind. rewrite sandbox_eq.
    destruct (call (io_cb i) [0%Z] w) as [[[]|e|] w2]; reflexivity.
  - destruct (bool_decide (n ∈ wl)); [|reflexivity].
    rewrite bind_gets. destruct (_ios (self w) !! n) as [i|]; [|reflexivity].
    unfold bind. rewrite sandbox_eq.
    destruct (call (io_cb i) [1%Z] w) as [[[]|e|] w2]; reflexivity.
Qed.

Section ReadPriority.
Variables (rl wl xl : list fd) (n : fd).
Hypothesis n_readable : n ∈ rl \/ n ∈ xl.







End ReadPriority.

Lemma io_phase_eq timeout w rl wl xl e :
  select_select (_inputs (self w)) (_outputs (self w)) (_inputs (self w))
    timeout (ext w) = (Ok (rl, wl, xl), e) ->
  io_phase timeout w =
  let x := io_loop rl wl xl (list_set (xl ++ rl ++ wl)) (World (self w) e) in
  (result x, final x,
   EvSelect (_inputs (self w)) (_outputs (self w)) (_inputs (self w)) timeout
     :: trace x).
Proof.
  intros Hsel. unfold io_phase, do_select.
  rewrite bind_gets, bind_assoc, bind_tell.
  rewrite bind_outside, Hsel. simpl. reflexivity.
Qed.


(** *** [remove] *)

Lemma list_remove_NoDup n (l : list fd) : NoDup l -> n ∉ list_remove n l.
Proof.
  induction l as [|m l IH]; simpl; intros Hnd.
  - apply not_elem_of_nil.
  - apply NoDup_cons in Hnd as [Hm Hnd].
    destruct (decide (n = m)) as [->|Hne]; [exact Hm|].
    apply not_elem_of_cons. split; [exact Hne | apply IH; exact Hnd].
Qed.

Lemma list_remove_subseteq n (l : list fd) m : m ∈ list_remove n l -> m ∈ l.
Proof.
  induction l as [|k l IH]; simpl; [auto|].
  destruct (decide (n = k)) as [->|Hne]; rewrite !elem_of_cons; intuition.
Qed.

Lemma list_remove_keeps_NoDup n (l : list fd) : NoDup l -> NoDup (list_remove n l).
Proof.
  induction l as [|m l IH]; simpl; intros Hnd; [constructor|].
  apply NoDup_cons in Hnd as [Hm Hnd].
  destruct (decide (n = m)); [exact Hnd|].
  apply NoDup_cons. split; [|apply IH; exact Hnd].
  intros Hin. apply Hm. eapply list_remove_subseteq. exact Hin.
Qed.

Lemma dropped_absent n l : n ∉ l -> dropped n l = l.
Proof. intros H. unfold dropped. rewrite bool_decide_eq_false_2; auto. Qed.

Lemma dropped_NoDup n l : NoDup l -> n ∉ dropped n l.
Proof.
  intros Hnd. unfold dropped. destruct (bool_decide (n ∈ l)) eqn:Hb.
  - apply list_remove_NoDup. exact Hnd.
  - apply bool_decide_eq_false in Hb. exact Hb.
Qed.

Lemma remove_handle_eq n w :
  remove (RHandle (Socket n)) w =
  (Ok (Some (bool_decide (is_Some (_ios (self w) !! n)))),
   World (Reactor_ (_running (self w)) (_timers (self w))
            (delete n (_ios (self w)))
            (dropped n (_inputs (self w))) (dropped n (_outputs (self w))))
         (ext w),
   []).
Proof.
  destruct w as [[run tms ios ins outs] e].
  unfold remove, fileno, dropped. rewrite !bind_modify, bind_gets.
  cbv beta iota delta [on_self self ext _inputs _outputs _ios _timers _running
                       set_inputs set_outputs set_ios].
  destruct (bool_decide (n ∈ ins)), (bool_decide (n ∈ outs));
    cbv beta iota;
    (destruct (ios !! n) as [i|] eqn:Hi;
     [ rewrite bind_modify, bool_decide_eq_true_2 by eauto; reflexivity
     | rewrite (delete_id ios n Hi),
         bool_decide_eq_false_2 by (intros [? ?]; discriminate);
       reflexivity ]).
Qed.

Lemma remove_closed_eq w :
  remove (RHandle ClosedSocket) w = (Ok (Some false), w, []).
Proof. reflexivity. Qed.

(** C9. For a timer id or a handle, [remove] does not raise and returns
    whether it found the entry: [True] when it deleted a live timer or a
    watcher, [False] otherwise. Afterwards nothing of the entry is left:
    the timer is gone, and the descriptor is in neither interest list and
    has no watcher. On an entry that is absent it changes nothing, and a
    second [remove] of the same entry returns [False] and changes nothing.
    The interest lists are taken to hold each descriptor at most once, as
    [watch] leaves them. *)
Theorem remove_idempotent (x : removable) w :
  x ≠ RNone ->
  interest_ok (self w) ->
  result (remove x w) = Ok (Some (found x (self w))) /\
  trace (remove x w) = [] /\
  absent x (self (final (remove x w))) /\
  (absent x (self w) -> remove x w = (Ok (Some false), w, [])) /\
  remove x (final (remove x w)) = (Ok (Some false), final (remove x w), []).
Proof.
  intros Hx [Hin Hout].
  assert (Hab : forall w', absent x (self w') ->
                           remove x w' = (Ok (Some false), w', [])).
  { clear - Hx. intros w' Ha. destruct x as [|t|[n|]]; [contradiction| | |].
    - simpl in Ha. rewrite remove_timer_eq. unfold PyDict.contains.
      rewrite Ha. reflexivity.
    - destruct Ha as (Hi & Hn & Hm). rewrite remove_handle_eq.
      rewrite Hi, !dropped_absent by assumption.
      rewrite delete_id by exact Hi.
      rewrite bool_decide_eq_false_2 by (intros [? ?]; discriminate).
      destruct w' as [[] ?]. reflexivity.
    - apply remove_closed_eq. }
  assert (Hgone : absent x (self (final (remove x w)))).
  { destruct x as [|t|[n|]]; [contradiction| | |].
    - rewrite remove_timer_eq. simpl. unfold final. simpl.
      destruct (PyDict.contains t (_timers (self w))) eqn:Hc; simpl.
      + apply PyDict_get_del.
      + unfold PyDict.contains in Hc.
        destruct (PyDict.get t (_timers (self w))); [discriminate | reflexivity].
    - rewrite remove_handle_eq. simpl.
      split; [apply lookup_delete_eq|].
      split; apply dropped_NoDup; assumption.
    - exact I. }
  split; [|split; [|split; [exact Hgone | split; [apply Hab | apply Hab; exact Hgone]]]].
  - destruct x as [|t|[n|]]; [contradiction| | |].
    + rewrite remove_timer_eq. reflexivity.
    + rewrite remove_handle_eq. reflexivity.
    + reflexivity.
  - destruct x as [|t|[n|]]; [contradiction| | |].
    + rewrite remove_timer_eq. reflexivity.
    + rewrite remove_handle_eq. reflexivity.
    + reflexivity.
Qed.

(** The interest lists hold each descriptor once in a fresh reactor and
    after [reset], and [watch], [io] and [remove] keep them so. *)
Lemma interest_ok_reset w : interest_ok (self (final (reset w))).
Proof. split; constructor. Qed.

Lemma watch_eq n rd wr w :
  watch (Socket n) rd wr w =
  (Ok tt,
   World (Reactor_ (_running (self w)) (_timers (self w)) (_ios (self w))
            (if rd && negb (bool_decide (n ∈ _inputs (self w)))
             then _inputs (self w) ++ [n] else _inputs (self w))
            (if wr && negb (bool_decide (n ∈ _outputs (self w)))
             then _outputs (self w) ++ [n] else _outputs (self w)))
         (ext w),
   []).
Proof.
  destruct w as [[run tms ios ins outs] e].
  unfold watch, fileno. rewrite bind_of_outcome, bind_modify.
  unfold modify.
  cbv beta iota delta [on_self self ext _inputs _outputs _ios _timers _running
                       set_inputs set_outputs].
  destruct (rd && negb (bool_decide (n ∈ ins))); cbv beta iota;
    destruct (wr && negb (bool_decide (n ∈ outs))); reflexivity.
Qed.

Lemma watch_closed_eq rd wr w :
  watch ClosedSocket rd wr w = (Raise socket_error, w, []).
Proof. reflexivity. Qed.

Lemma NoDup_snoc_fresh n (l : list fd) (b : bool) :
  NoDup l -> NoDup (if b && negb (bool_decide (n ∈ l)) then l ++ [n] else l).
Proof.
  intros Hnd. destruct b; simpl; [|exact Hnd].
  destruct (bool_decide (n ∈ l)) eqn:Hb; simpl; [exact Hnd|].
  apply bool_decide_eq_false in Hb.
  apply NoDup_app. split; [exact Hnd|]. split; [|apply NoDup_singleton].
  intros m Hm Hm'. apply list_elem_of_singleton in Hm'. subst. contradiction.
Qed.

Lemma interest_ok_watch h rd wr w :
  interest_ok (self w) -> interest_ok (self (final (watch h rd wr w))).
Proof.
  intros [Hin Hout]. destruct h as [n|]; [|split; assumption].
  rewrite watch_eq. split; simpl; apply NoDup_snoc_fresh; assumption.
Qed.

Lemma interest_ok_io cb h w :
  interest_ok (self w) -> interest_ok (self (final (io cb h w))).
Proof.
  intros Hok. destruct h as [n|]; [|exact Hok].
  unfold io, fileno. rewrite bind_of_outcome, bind_modify.
  apply (interest_ok_watch (Socket n) true true). destruct w as [[] ?]. exact Hok.
Qed.

Lemma interest_ok_remove x w :
  interest_ok (self w) -> interest_ok (self (final (remove x w))).
Proof.
  intros [Hin Hout]. destruct x as [|t|[n|]]; try (split; assumption).
  - rewrite remove_timer_eq. unfold final. simpl.
    destruct (PyDict.contains t _); split; assumption.
  - rewrite remove_handle_eq. unfold final, dropped. simpl.
    split; [destruct (bool_decide (n ∈ _inputs (self w)))
           | destruct (bool_decide (n ∈ _outputs (self w)))];
      try assumption; apply list_remove_keeps_NoDup; assumption.
Qed.

(** *** [watch] and the interest lists *)

Local Abbreviation Grows := (grows (CB := CB) (Ext := Ext)).

Lemma keeps_interest_refl w : keeps_interest w w.
Proof. split; reflexivity. Qed.

Lemma keeps_interest_trans w1 w2 w3 :
  keeps_interest w1 w2 -> keeps_interest w2 w3 -> keeps_interest w1 w3.
Proof. intros [H1 H2] [H3 H4]. split; etransitivity; eassumption. Qed.

Lemma keeps_interest_same w w' :
  _inputs (self w') = _inputs (self w) ->
  _outputs (self w') = _outputs (self w) ->
  keeps_interest w w'.
Proof. intros H1 H2. unfold keeps_interest. rewrite H1, H2. split; reflexivity. Qed.

Lemma grows_bind {A B} (m : M (world CB Ext) (event CB Ext) A)
    (k : A -> M (world CB Ext) (event CB Ext) B) :
  grows m -> (forall a, Grows (k a)) -> Grows (bind m k).
Proof.
  intros Hm Hk w. rewrite final_bind.
  destruct (result (m w)) as [a| |]; try apply Hm.
  eapply keeps_interest_trans; [apply Hm | apply Hk].
Qed.

Lemma grows_ret {A} (a : A) : Grows (ret a).
Proof. intros w. apply keeps_interest_refl. Qed.

Lemma grows_raise {A} e : Grows (raise (A := A) e).
Proof. intros w. apply keeps_interest_refl. Qed.

Lemma grows_diverge {A} : Grows (diverge (A := A)).
Proof. intros w. apply keeps_interest_refl. Qed.

Lemma grows_gets {A} (f : world CB Ext -> A) : Grows (gets f).
Proof. intros w. apply keeps_interest_refl. Qed.

Lemma grows_tell ev : Grows (tell ev).
Proof. intros w. apply keeps_interest_refl. Qed.

Lemma grows_of_outcome {A} (o : outcome A) : Grows (of_outcome o).
Proof. intros w. apply keeps_interest_refl. Qed.

Lemma grows_on_ext {A} (f : Ext -> A * Ext) : Grows (on_ext f).
Proof.
  intros w. destruct (result_on_ext f w) as [_ ->].
  apply keeps_interest_same; reflexivity.
Qed.

Lemma grows_modify (f : reactor CB -> reactor CB) :
  (forall r, _inputs r ⊆ _inputs (f r) /\ _outputs r ⊆ _outputs (f r)) ->
  Grows (modify (on_self f)).
Proof. intros Hf w. exact (Hf (self w)). Qed.

Lemma grows_set_timers (f : reactor CB -> list (tid * timer_t CB)) :
  Grows (modify (on_self (fun r => set_timers (f r) r))).
Proof. apply grows_modify. intros r. split; reflexivity. Qed.

Lemma grows_set_running b : Grows (modify (on_self (set_running b))).
Proof. apply grows_modify. intros r. split; reflexivity. Qed.

Lemma grows_stop : Grows stop.
Proof. apply grows_set_running. Qed.

Lemma grows_remove_timer t : Grows (remove (RTimer t)).
Proof.
  intros w. rewrite remove_timer_eq. unfold final. simpl.
  destruct (PyDict.contains t _); apply keeps_interest_same; reflexivity.
Qed.

Lemma grows_watch h rd wr : Grows (watch h rd wr).
Proof.
  intros w. destruct h as [n|]; [|apply keeps_interest_refl].
  rewrite watch_eq. unfold final. split; simpl.
  - destruct (rd && _); [apply list_subseteq_app_l|]; reflexivity.
  - destruct (wr && _); [apply list_subseteq_app_l|]; reflexivity.
Qed.

Lemma grows_select rl wl xl timeout : Grows (do_select rl wl xl timeout).
Proof.
  unfold do_select. apply grows_bind; [apply grows_tell|]. intros _.
  intros w. unfold outside, final.
  destruct (select_select _ _ _ _ _) as [o e]. simpl.
  apply keeps_interest_same; reflexivity.
Qed.

(** The steps that keep the interest lists, and a tactic that walks
    through a method along its binds and its case distinctions. *)
Create HintDb grows.
#[local] Hint Resolve grows_ret grows_raise grows_diverge grows_gets
  grows_tell grows_of_outcome grows_on_ext grows_set_running grows_stop
  grows_remove_timer grows_watch grows_select : grows.
#[local] Hint Extern 1 (grows (modify (on_self (fun r => set_timers _ r)))) =>
  apply (grows_set_timers (fun r => PyDict.set _ _ (_timers r))) : grows.

Ltac grows_walk :=
  repeat first
    [ solve [auto with grows]
    | apply grows_bind; [|intro]
    | match goal with
      | |- grows (match ?x with _ => _ end) => destruct x
      end ].

Lemma grows_io cb h : Grows (io cb h).
Proof.
  unfold io. apply grows_bind; [auto with grows|]. intros n.
  apply grows_bind; [|auto with grows].
  apply grows_modify. intros r. split; reflexivity.
Qed.

Lemma grows_again t : Grows (again t).
Proof. unfold again. grows_walk. Qed.

Lemma grows__timer_id fuel : Grows (_timer_id fuel).
Proof. induction fuel as [|fuel IH]; simpl; grows_walk. Qed.

Lemma grows__timer fuel cb rec after : Grows (_timer fuel cb rec after).
Proof.
  pose proof (grows__timer_id fuel). unfold _timer. grows_walk.
Qed.

Section CallbacksKeepInterest.
Hypothesis call_keeps : forall cb args w, keeps_interest w (call cb args w).2.

Lemma grows_sandbox cb d args : Grows (_sandbox cb d args).
Proof. intros w. rewrite sandbox_eq. apply call_keeps. Qed.

#[local] Hint Resolve grows_sandbox : grows.

Lemma grows_timer_step now t : Grows (timer_step now t).
Proof. unfold timer_step. grows_walk. Qed.

Lemma grows_timer_loop now tids : Grows (timer_loop now tids).
Proof.
  pose proof (grows_timer_step now).
  induction tids as [|t tids IH]; simpl; grows_walk.
Qed.

Lemma grows_timers_phase : Grows timers_phase.
Proof.
  pose proof grows_timer_loop. unfold timers_phase. grows_walk.
Qed.

Lemma grows_io_step rl wl xl n : Grows (io_step rl wl xl n).
Proof. unfold io_step. grows_walk. Qed.

Lemma grows_io_loop rl wl xl fds : Grows (io_loop rl wl xl fds).
Proof.
  pose proof (grows_io_step rl wl xl).
  induction fds as [|n fds IH]; simpl; grows_walk.
Qed.

Lemma grows_io_phase timeout : Grows (io_phase timeout).
Proof.
  pose proof grows_io_loop. unfold io_phase. grows_walk.
Qed.

Lemma grows_one_tick_loop fuel : Grows (one_tick_loop fuel).
Proof.
  pose proof grows_io_phase. pose proof grows_timers_phase.
  induction fuel as [|fuel IH]; simpl; grows_walk.
Qed.

Lemma grows_one_tick fuel : Grows (one_tick fuel).
Proof.
  pose proof (grows_one_tick_loop fuel). unfold one_tick. grows_walk.
Qed.

Lemma grows_start_loop fuel tick_fuel : Grows (start_loop fuel tick_fuel).
Proof.
  pose proof (grows_one_tick tick_fuel).
  induction fuel as [|fuel IH]; simpl; grows_walk.
Qed.

Lemma grows_method m :
  match m with m_remove _ | m_reset => False | _ => True end ->
  Grows (run_method m).
Proof.
  pose proof grows_again. pose proof grows_io. pose proof grows__timer.
  pose proof grows_one_tick. pose proof grows_start_loop.
  destruct m; simpl; intros Hm; try contradiction;
    unfold is_readable, is_running, recurring, timer, start; grows_walk.
Qed.

End CallbacksKeepInterest.

(** C10. [watch] never takes a descriptor out of an interest list: with
    [read] false the read list is as it was, with [write] false the write
    list is as it was, and in every case each list is a prefix of what it
    becomes. No method other than [remove] and [reset] clears an interest:
    as long as the callbacks it calls clear none, every descriptor that
    was in an interest list is still in it when the method is done. *)
Theorem watch_only_adds :
  (forall h rd wr w,
     (rd = false ->
      _inputs (self (final (watch h rd wr w))) = _inputs (self w)) /\
     (wr = false ->
      _outputs (self (final (watch h rd wr w))) = _outputs (self w)) /\
     _inputs (self w) `prefix_of` _inputs (self (final (watch h rd wr w))) /\
     _outputs (self w) `prefix_of` _outputs (self (final (watch h rd wr w)))) /\
  ((forall cb args w, keeps_interest w (call cb args w).2) ->
   forall m w,
     match m with m_remove _ | m_reset => False | _ => True end ->
     keeps_interest w (final (run_method m w))).
Proof.
  split.
  - intros h rd wr w. destruct h as [n|].
    + rewrite watch_eq. unfold final. simpl.
      split; [intros ->; reflexivity|]. split; [intros ->; reflexivity|].
      split.
      * destruct (rd && _); [apply prefix_app_r|]; reflexivity.
      * destruct (wr && _); [apply prefix_app_r|]; reflexivity.
    + rewrite watch_closed_eq. unfold final. simpl.
      repeat split; reflexivity.
  - intros Hcall m w Hm. apply grows_method; assumption.
Qed.

End Facts.

(** An empty reactor, one round. *)
Lemma one_tick_empty_stops_witness :
  one_tick 1 (World Scenario.empty_reactor (Scenario.quiet 100)) =
    (Ok tt, World Scenario.empty_reactor (Scenario.quiet 100), []) /\
  start 1 1 (World Scenario.empty_reactor (Scenario.quiet 100)) =
    (Ok tt, World Scenario.empty_reactor (Scenario.quiet 100), []).
Proof.
  apply (one_tick_empty_stops 0 0 (World Scenario.empty_reactor (Scenario.quiet 100)));
    reflexivity.
Defined.

(** The round of the two one-shot timers at the instant 100: when the
    callback of ["a"] is called, the table holds ["b"] only. *)
Lemma one_shot_removed_before_callback_witness :
  PyDict.get "a"
    (_timers (self (World (Reactor_ true [("b", Scenario.timer_b)] ∅ [] [])
                      (Scenario.quiet 100)))) = None.
Proof.
  apply (one_shot_removed_before_callback 1
           (World Scenario.two_timers (Scenario.quiet 100))
           "a" Scenario.timer_a 100%Q 1%nat []).
  - vm_compute. constructor.
  - reflexivity.
Defined.

(** The recurring timer of interval 20 that was due at 10, fired at the
    instant 15: its callback finds it due at 15 + 20, which is not
    10 + 20. *)
Lemma recurring_rescheduled_from_now_witness :
  PyDict.get "r"
    (_timers (self (World
       (Reactor_ true [("r", mk_timer (Some 3%nat) 20 (15 + 20)%Q (Some 20%Q))] ∅ [] [])
       (Scenario.quiet 15)))) =
  Some (mk_timer (Some 3%nat) 20 (15 + 20)%Q (Some 20%Q)) /\
  ~ (15 + 20 == t_time Scenario.ticker + 20)%Q.
Proof.
  split.
  - apply (proj1 (proj2 recurring_rescheduled_from_now) 1
             (World Scenario.one_ticker (Scenario.quiet 15))
             "r" Scenario.ticker 15%Q 3%nat []).
    + vm_compute. constructor.
    + reflexivity.
  - intros H. discriminate H.
Defined.

(** C1, as the spec has it, fails. The table lists ["a"], due at 50, before
    ["b"], due at 10; at the instant 100 both are due, and the round calls
    the callback of ["a"] first. *)
Lemma timers_not_dispatched_by_deadline :
  trace (one_tick 1 (World Scenario.two_timers (Scenario.quiet 100))) =
    [EvCall (Timer "a" Scenario.timer_a 100) 1%nat []
       (World (Reactor_ true [("b", Scenario.timer_b)] ∅ [] []) (Scenario.quiet 100));
     EvCall (Timer "b" Scenario.timer_b 100) 2%nat []
       (World (Reactor_ true [] ∅ [] []) (Scenario.quiet 100))] /\
  ~ dispatched_by_deadline
      (trace (one_tick 1 (World Scenario.two_timers (Scenario.quiet 100)))).
Proof.
  split; [vm_compute; reflexivity|].
  intros H.
  enough (1 <= 0)%nat by lia.
  eapply (H 1%nat 0%nat); [reflexivity | reflexivity | reflexivity].
Qed.



(** Removing descriptor 7 twice: found, then not found and no change. *)
Lemma remove_idempotent_witness :
  let w := World Scenario.watching (Scenario.quiet 0) in
  result (remove (RHandle (Socket 7%Z)) w) = Ok (Some true) /\
  remove (RHandle (Socket 7%Z)) (final (remove (RHandle (Socket 7%Z)) w)) =
    (Ok (Some false), final (remove (RHandle (Socket 7%Z)) w), []).
Proof.
  intros w.
  destruct (remove_idempotent (RHandle (Socket 7%Z)) w)
    as (Hres & _ & _ & _ & Hagain).
  - discriminate.
  - split; apply NoDup_singleton.
  - split; [exact Hres | exact Hagain].
Defined.

(** A descriptor that [watch] registered without [io] has interest and no
    watcher: [remove] takes its interest away and reports [False]. *)
Example remove_watched_only :
  let w := World (CB := nat) Scenario.empty_reactor (Scenario.quiet 0) in
  let w1 := final (watch (Socket 5%Z) true false w) in
  _inputs (self w1) = [5%Z] /\
  remove (RHandle (Socket 5%Z)) w1 = (Ok (Some false), w, []).
Proof. vm_compute. split; reflexivity. Qed.

(** [watch(handle, False, True)] on an empty reactor. *)
Lemma watch_only_adds_witness :
  let w := World (CB := nat) Scenario.empty_reactor (Scenario.quiet 0) in
  _inputs (self (final (watch (Socket 7%Z) false true w))) = [] /\
  _outputs (self (final (watch (Socket 7%Z) false true w))) = [7%Z].
Proof.
  intros w.
  destruct (proj1 watch_only_adds (Socket 7%Z) false true w) as (Hin & _ & _ & _).
  split; [exact (Hin eq_refl) | reflexivity].
Defined.

End ReactorFacts.

(** ** The connection engine *)

Module UserAgentFacts.
Import UserAgent.

Section Facts.
Context {Ext : Type} `{!Environment Ext}.
Implicit Types (w : world Ext) (c : cid) (l : loc) (t : tx).

(** *** The write guard *)

Lemma dict_at_eq l d w : dicts w !! l = Some d -> dict_at l w = (Ok d, w, []).
Proof. intros H. unfold dict_at. rewrite bind_gets, H. reflexivity. Qed.

(** A write request for a connection whose [writing] flag is set does
    nothing. *)
Lemma _write_guarded c l d w :
  _connections (ua w) !! c = Some (Dict l) ->
  dicts w !! l = Some d ->
  c_writing d = true ->
  _write c w = (Ok tt, w, []).
Proof.
  intros Hc Hl Hw. unfold _write. rewrite bind_gets, Hc.
  rewrite (bind_silent _ _ _ _ _ (dict_at_eq l d w Hl)).
  destruct (c_tx d) as [t|]; [|reflexivity].
  unfold get_is_writing. rewrite bind_gets.
  destruct (is_writing t (ext w)); simpl; [|reflexivity].
  rewrite Hw. reflexivity.
Qed.

Lemma do_stream_write_trace nb c data cb w :
  Forall (fun ev => is_client_write ev = false)
    (trace (do_stream_write nb c data cb w)).
Proof.
  unfold do_stream_write. rewrite bind_tell. simpl.
  unfold on_ext. rewrite trace_outside. repeat constructor.
Qed.

(** C3, as the code has it. While the [writing] flag of a connection is
    set, a write request for its id returns at once: it asks the
    transaction for no chunk, writes nothing to the stream, registers no
    completion callback and leaves every state as it is. The flag is set
    in the state [tx.client_write()] starts from, so a request that
    reaches the engine from inside that call is such a no-op: the engine
    never pulls a chunk for a connection while it is pulling one for
    it. *)
Theorem write_in_progress_is_noop c l d w :
  _connections (ua w) !! c = Some (Dict l) ->
  dicts w !! l = Some d ->
  (c_writing d = true -> _write c w = (Ok tt, w, [])) /\
  (forall t w', EvClientWrite t w' ∈ trace (_write c w) ->
                _write c w' = (Ok tt, w', [])).
Proof.
  intros Hc Hl. split; [apply (_write_guarded c l d w Hc Hl)|].
  intros t w'.
  pose (P := fun ev : event Ext =>
    match ev with
    | EvClientWrite _ w' => _write c w' = (Ok tt, w', [])
    | _ => True
    end).
  assert (Hother : forall ev, is_client_write ev = false -> P ev).
  { intros []; simpl; intros; try exact I; discriminate. }
  assert (HP : Forall P (trace (_write c w))).
  { unfold _write. rewrite bind_gets, Hc.
    rewrite (bind_silent _ _ _ _ _ (dict_at_eq l d w Hl)).
    destruct (c_tx d) as [t0|] eqn:Ht; [|constructor].
    unfold get_is_writing at 1. rewrite bind_gets.
    destruct (is_writing t0 (ext w)); simpl; [|constructor].
    destruct (c_writing d) eqn:Hw; [constructor|].
    unfold set_writing at 1. rewrite bind_modify, bind_gets, bind_tell.
    unfold trace at 1. simpl. constructor.
    - (* the state client_write starts from has the flag set *)
      simpl. unfold id.
      eapply _write_guarded.
      + exact Hc.
      + simpl. rewrite lookup_alter_eq, Hl. reflexivity.
      + reflexivity.
    - apply trace_bind_Forall; [rewrite trace_outside; constructor|].
      intros chunk w1.
      apply trace_bind_Forall; [constructor|]. intros _ w2.
      apply trace_bind_Forall.
      { unfold dict_at. apply trace_bind_Forall; [constructor|].
        intros [d2|] w3; constructor. }
      intros d' w3.
      apply trace_bind_Forall.
      { eapply Forall_impl; [apply do_stream_write_trace | exact Hother]. }
      intros _ w4.
      apply trace_bind_Forall; [constructor|]. intros fin w5.
      apply trace_bind_Forall; [destruct fin; constructor|]. intros _ w6.
      apply trace_bind_Forall; [constructor|]. intros wants w7.
      destruct wants; simpl; [|constructor].
      eapply Forall_impl; [apply do_stream_write_trace | exact Hother]. }
  rewrite Forall_forall in HP. intros Hin. exact (HP _ Hin).
Qed.

(** *** Requests for a connection that is gone *)

Lemma _write_unknown c w :
  _connections (ua w) !! c = None -> _write c w = (Ok tt, w, []).
Proof. intros Hc. unfold _write. rewrite bind_gets, Hc. reflexivity. Qed.

Lemma _read_unknown c chunk w :
  _connections (ua w) !! c = None -> _read c chunk w = (Ok tt, w, []).
Proof. intros Hc. unfold _read. rewrite bind_gets, Hc. reflexivity. Qed.

(** *** What the callbacks of a connection hold *)

(** The handlers [client_cb] gives to the stream capture the name [self]
    of [client_cb], which is the [self] of [_connect]. *)
Lemma run_client_cb_handlers self cv v c err s w :
  nonlocals w !! cv = Some v ->
  cv_cid v = Some c ->
  alive w = true ->
  truthy err = false ->
  exists tr,
    trace (run_client_cb self cv err s w) =
    [EvStreamOn s "timeout" (lambda_timeout self c);
     EvStreamOn s "close" (lambda_close self c);
     EvStreamOn s "error" (lambda_error self c);
     EvStreamOn s "read" (lambda_read self c)] ++ tr.
Proof.
  intros Hv Hc Hlive Herr. unfold run_client_cb. rewrite bind_gets, Hv, Hc.
  assert (Hres : resolve (cv_ua v) w = (Ok tt, w, [])).
  { unfold resolve. destruct (cv_ua v); [reflexivity|].
    rewrite bind_gets, Hlive. reflexivity. }
  rewrite (bind_silent _ _ _ _ _ Hres), Herr.
  rewrite !bind_tell. unfold trace at 1. simpl. eauto.
Qed.

(** A callable that holds the proxy raises when it is called after the
    engine is gone; it does not return. *)
Lemma fire_proxy_of_dead_engine c w :
  alive w = false ->
  fire (lambda_resume Proxy c) [PObj] w = (Raise ReferenceError, w, []) /\
  fire (lambda_drain Proxy c) [PObj] w = (Raise ReferenceError, w, []).
Proof.
  intros Hdead. unfold fire, resolve, bind. simpl. rewrite Hdead.
  split; reflexivity.
Qed.

(** *** Starting with a request timeout *)

Lemma getattr_connections w :
  getattr "connections" w = (Raise AttributeError, w, []).
Proof. reflexivity. Qed.

(** X24. [_start] returns a connection id only when the request timeout it
    reads is zero: with any other timeout it arms the timer and then
    raises at [self.connections]. *)
Lemma _start_returns_only_without_timeout fuel nb t cb w c :
  result (_start fuel nb t cb w) = Ok c ->
  Qeq_bool (request_timeout (ua (final (_start fuel nb t cb w)))) 0 = true.
Proof.
  unfold _start. intros H.
  apply bind_Ok_inv in H as (? & _ & H & ->).
  apply bind_Ok_inv in H as (? & _ & H & ->).
  apply bind_Ok_inv in H as (c0 & _ & H & ->).
  set (w3 := final (_connection nb t cb _)) in *.
  rewrite bind_gets in *.
  destruct (Qeq_bool (request_timeout (ua w3)) 0) eqn:Hq; simpl in *.
  - rewrite bind_ret. simpl. exact Hq.
  - exfalso. apply bind_Ok_inv in H as (? & H & _).
    apply bind_Ok_inv in H as (? & _ & H & _).
    rewrite getattr_connections in H. discriminate.
Qed.

End Facts.

(** A write request for ["c1"] while its flag is set. *)
Lemma write_in_progress_is_noop_witness :
  _write "c1" Scenario.writing_engine = (Ok tt, Scenario.writing_engine, []).
Proof.
  refine (proj1 (write_in_progress_is_noop "c1" 0%nat
                   (Conn (user_cb 0) false (Some 0%nat) true)
                   Scenario.writing_engine _ _) _);
    vm_compute; reflexivity.
Defined.

(** C3, as the spec has it, fails. A write request for ["c1"] pulls a
    chunk, hands it to the stream and registers the completion callback;
    the flag is clear when it returns. A second request, made before any
    completion callback has been called, pulls and hands over a chunk
    again and registers a second completion callback: two writes are in
    flight. *)
Lemma second_write_is_not_held_back :
  let w := Scenario.ready_engine in
  stream_writes (trace (_write "c1" w)) =
    [("GET / HTTP/1.1", None); ("", Some (lambda_drain Proxy "c1"))] /\
  stream_writes (trace (_write "c1" (final (_write "c1" w)))) =
    [("GET / HTTP/1.1", None); ("", Some (lambda_drain Proxy "c1"))] /\
  ~ one_write_in_flight "c1" w.
Proof.
  intros w. split; [vm_compute; reflexivity|].
  split; [vm_compute; reflexivity|].
  intros H. assert (Hsecond := H). clear H.
  assert (Hfirst : stream_writes (trace (_write "c1" w)) <> [])
    by (vm_compute; discriminate).
  specialize (Hsecond Hfirst). vm_compute in Hsecond. discriminate Hsecond.
Qed.

(** C2, on the code. With the request timeout 5, [_start] connects, arms one
    one-shot timer on the loop of the blocking mode, whose callback is the
    lambda that reports ['Request timeout'] for the new connection, and
    then raises [AttributeError] where it looks up [self.connections]: it
    does not return the connection id. *)
Theorem _start_request_timeout_raises :
  let out := _start 1 false 0%nat (user_cb 0) (Scenario.fresh_engine 5) in
  result out = Raise AttributeError /\
  Reactor._timers (ioloop (final out)) =
    [("d41d8cd98f00b204e9800998ecf8427e",
      Reactor.mk_timer (Some (lambda_request_timeout Strong "c1")) 5
        (100 + 5)%Q None)] /\
  Reactor._timers (singleton (final out)) = [] /\
  _connections (ua (final out)) !! "c1" = Some (Dict 0%nat) /\
  result (_start 1 false 0%nat (user_cb 0) (Scenario.fresh_engine 0)) = Ok "c1".
Proof. vm_compute. repeat split. Qed.

(** C7, on the code. [_connect] hands [IOLoop.client] a [client_cb] that
    captured the engine itself, and when the connection is established
    [client_cb] registers four handlers with the stream, each of which
    captured the engine itself, not the proxy kept in [connect_vars.ua]:
    every one of them owns the engine. The resume handler of [_connected]
    holds the proxy, as does the completion callback of [_write]; called
    after the engine is gone, such a callback raises [ReferenceError]. *)
Theorem stream_handlers_own_engine :
  let start := _connection false 0%nat (user_cb 0) (Scenario.fresh_engine 0) in
  let fired := fire (client_cb Strong 0%nat) [PObj; PNone; PStr "s"] (final start) in
  trace start =
    [EvClient false (client_cb Strong 0%nat)
       (Options "example.com" 80 10 None None)] /\
  stream_handlers (trace fired) =
    [("timeout", lambda_timeout Strong "c1");
     ("close", lambda_close Strong "c1");
     ("error", lambda_error Strong "c1");
     ("read", lambda_read Strong "c1")] /\
  Forall (fun h => owns_engine h.2 = true) (stream_handlers (trace fired)) /\
  EvTxOn 0%nat "resume" (lambda_resume Proxy "c1") ∈ trace fired /\
  owns_engine (lambda_resume Proxy "c1") = false /\
  result (fire (lambda_drain Proxy "c1") [PObj] Scenario.reclaimed_engine) =
    Raise ReferenceError.
Proof.
  vm_compute. repeat split.
  - repeat constructor.
  - repeat constructor.
Qed.

End UserAgentFacts.

(** ** More of the reactor *)

Module ReactorMore.
Import Reactor ReactorFacts.

Section Facts.
Context {CB Ext : Type} `{!Environment CB Ext}.
Implicit Types (w : world CB Ext) (r : reactor CB) (t : tid) (n : fd).
Implicit Types (d : list (tid * timer_t CB)) (tr : list (event CB Ext)).

(** *** The dict of timers *)

Lemma PyDict_get_set_ne {V} k k' (v : V) (d : list (string * V)) :
  k <> k' -> PyDict.get k' (PyDict.set k v d) = PyDict.get k' d.
Proof.
  intros Hne. induction d as [|[k0 v0] d IH]; simpl.
  - destruct (decide (k' = k)); [congruence | reflexivity].
  - destruct (decide (k = k0)) as [->|Hk]; simpl.
    + destruct (decide (k' = k0)); [congruence | reflexivity].
    + destruct (decide (k' = k0)); [reflexivity | exact IH].
Qed.

Lemma PyDict_keys_set {V} k (v v0 : V) (d : list (string * V)) :
  PyDict.get k d = Some v0 -> PyDict.keys (PyDict.set k v d) = PyDict.keys d.
Proof.
  unfold PyDict.keys. induction d as [|[k0 v1] d IH]; simpl; [discriminate|].
  destruct (decide (k = k0)) as [->|Hk]; simpl; [reflexivity|].
  intros Hg. f_equal. apply IH, Hg.
Qed.

Lemma PyDict_set_absent {V} k (v : V) (d : list (string * V)) :
  PyDict.get k d = None -> PyDict.set k v d = d ++ [(k, v)].
Proof.
  induction d as [|[k0 v0] d IH]; simpl; [reflexivity|].
  destruct (decide (k = k0)); [discriminate|].
  intros Hg. rewrite IH; [reflexivity | exact Hg].
Qed.

Lemma PyDict_del_app_last {V} k (v : V) (d : list (string * V)) :
  PyDict.get k d = None -> PyDict.del k (d ++ [(k, v)]) = d.
Proof.
  induction d as [|[k0 v0] d IH]; simpl.
  - destruct (decide (k = k)); [reflexivity | contradiction].
  - destruct (decide (k = k0)); [discriminate|].
    intros Hg. rewrite IH; [reflexivity | exact Hg].
Qed.

Lemma PyDict_get_app_last {V} k (v : V) (d : list (string * V)) :
  PyDict.get k d = None -> PyDict.get k (d ++ [(k, v)]) = Some v.
Proof.
  induction d as [|[k0 v0] d IH]; simpl.
  - destruct (decide (k = k)); [reflexivity | contradiction].
  - destruct (decide (k = k0)); [discriminate | exact IH].
Qed.

(** *** [again] *)

(** X1. [again] of an id that has no timer raises [KeyError] before it reads
    the clock and changes nothing. For a timer that is there, one-shot or
    recurring, it sets the deadline to the clock's reading plus [after] and
    keeps the callback, [after], the interval and the place in the table;
    every other timer is as it was. *)
Theorem again_rearms t w :
  (PyDict.get t (_timers (self w)) = None ->
   again t w = (Raise KeyError, w, [])) /\
  (forall tm, PyDict.get t (_timers (self w)) = Some tm ->
     let w' := final (again t w) in
     result (again t w) = Ok tt /\
     PyDict.get t (_timers (self w')) =
       Some (mk_timer (t_cb tm) (t_after tm)
               ((steady_time (ext w)).1 + t_after tm)%Q (t_recurring tm)) /\
     PyDict.keys (_timers (self w')) = PyDict.keys (_timers (self w)) /\
     (forall t', t' <> t ->
        PyDict.get t' (_timers (self w')) = PyDict.get t' (_timers (self w))) /\
     _ios (self w') = _ios (self w) /\
     _inputs (self w') = _inputs (self w) /\
     _outputs (self w') = _outputs (self w)).
Proof.
  unfold again. rewrite bind_gets. split.
  - intros ->. reflexivity.
  - intros tm Hg. rewrite Hg. unfold on_ext. rewrite bind_outside.
    destruct (steady_time (ext w)) as [now e] eqn:Hnow. simpl.
    unfold result, final, modify, on_self. simpl.
    split; [reflexivity|]. split; [apply PyDict_get_set|].
    split; [eapply PyDict_keys_set; eassumption|].
    split; [|auto].
    intros t' Hne. apply PyDict_get_set_ne. congruence.
Qed.

(** *** [timer] and [recurring] *)

Lemma bind_on_ext {A B} (f : Ext -> A * Ext)
    (k : A -> M (world CB Ext) (event CB Ext) B) w :
  bind (on_ext f) k w = k (f (ext w)).1 (World (self w) (f (ext w)).2).
Proof.
  unfold on_ext. rewrite bind_outside. destruct (f (ext w)). reflexivity.
Qed.

(** The search for an id touches nothing of the reactor and calls
    nothing, whether it returns, raises or goes on. *)
Lemma _timer_id_quiet fuel w :
  self (final (_timer_id fuel w)) = self w /\ trace (_timer_id fuel w) = [].
Proof.
  revert w. induction fuel as [|fuel IH]; intros w; simpl; [auto|].
  rewrite !bind_on_ext, bind_of_outcome.
  destruct (md5_sum _ _) as [t|e|]; [|auto..].
  rewrite bind_gets. cbn [self].
  destruct (PyDict.contains _ _); [|auto].
  destruct (IH (World (self w) (rand (steady_time (ext w)).2).2)) as [Hs Ht].
  auto.
Qed.

(** The id it returns is one that the table does not hold. *)
Lemma _timer_id_fresh fuel w t :
  result (_timer_id fuel w) = Ok t ->
  PyDict.get t (_timers (self w)) = None.
Proof.
  revert w. induction fuel as [|fuel IH]; intros w; simpl; [discriminate|].
  rewrite !bind_on_ext, bind_of_outcome.
  destruct (md5_sum _ _) as [t0|e|]; [|discriminate..].
  rewrite bind_gets. cbn [self].
  destruct (PyDict.contains _ _) eqn:Hc.
  - intros Hr. exact (IH _ Hr).
  - unfold result, ret. simpl. intros [= <-].
    unfold PyDict.contains in Hc.
    destruct (PyDict.get _ _); [discriminate | reflexivity].
Qed.

(** [_timer] in terms of the search for the id. *)
Lemma _timer_eq fuel cb rec after w :
  _timer fuel cb rec after w =
  match result (_timer_id fuel w) with
  | Ok t =>
      (Ok t,
       World (set_timers
                (PyDict.set t
                   (mk_timer cb after
                      ((steady_time (ext (final (_timer_id fuel w)))).1 + after)%Q
                      (if rec then Some after else None))
                   (_timers (self w)))
                (self w))
             (steady_time (ext (final (_timer_id fuel w)))).2,
       [])
  | Raise e => (Raise e, final (_timer_id fuel w), [])
  | OutOfFuel => (OutOfFuel, final (_timer_id fuel w), [])
  end.
Proof.
  destruct (_timer_id_quiet fuel w) as [Hs Ht]. unfold _timer.
  destruct (_timer_id fuel w) as [[[t0|e0|] w1] tr1] eqn:Hid;
    unfold final, trace, result in *; cbn [fst snd] in *; subst tr1;
    unfold bind at 1; rewrite Hid; [|reflexivity..].
  rewrite bind_on_ext, bind_modify. unfold ret, on_self. cbn [self ext].
  rewrite Hs. reflexivity.
Qed.


(** X3. Removing the timer that [_timer] has just returned finds it, calls
    nothing and leaves the reactor with the timers, the watchers and the
    interests it had before the timer was added. *)
Theorem timer_then_remove fuel cb rec after w t :
  result (_timer fuel cb rec after w) = Ok t ->
  let w' := final (_timer fuel cb rec after w) in
  let w'' := final (remove (RTimer t) w') in
  result (remove (RTimer t) w') = Ok (Some true) /\
  trace (remove (RTimer t) w') = [] /\
  (forall t', PyDict.get t' (_timers (self w'')) = PyDict.get t' (_timers (self w))) /\
  _running (self w'') = _running (self w) /\
  _ios (self w'') = _ios (self w) /\
  _inputs (self w'') = _inputs (self w) /\
  _outputs (self w'') = _outputs (self w) /\
  ext w'' = ext w'.
Proof.
  intros Hr. cbv zeta.
  assert (Hw' : exists tm e,
    final (_timer fuel cb rec after w) =
      World (set_timers (PyDict.set t tm (_timers (self w))) (self w)) e /\
    PyDict.get t (_timers (self w)) = None).
  { revert Hr. rewrite _timer_eq.
    destruct (result (_timer_id fuel w)) as [t0|e0|] eqn:Hid;
      unfold result, final; cbn [fst snd]; [|discriminate..].
    intros [= ->]. eexists _, _. split; [reflexivity|].
    apply (_timer_id_fresh fuel w t Hid). }
  destruct Hw' as (tm & e & -> & Hfresh).
  rewrite remove_timer_eq. unfold PyDict.contains.
  cbn [self _timers set_timers]. rewrite PyDict_get_set.
  unfold result, final, trace, on_self.
  cbn [fst snd self ext _timers _running _ios _inputs _outputs set_timers].
  rewrite PyDict_set_absent by exact Hfresh.
  rewrite PyDict_del_app_last by exact Hfresh. auto 10.
Qed.

(** *** [io] *)

Lemma io_eq cb n w :
  io cb (Socket n) w =
  (Ok tt,
   World (Reactor_ (_running (self w)) (_timers (self w))
            (<[n := Io cb]> (_ios (self w)))
            (if bool_decide (n ∈ _inputs (self w))
             then _inputs (self w) else _inputs (self w) ++ [n])
            (if bool_decide (n ∈ _outputs (self w))
             then _outputs (self w) else _outputs (self w) ++ [n]))
         (ext w),
   []).
Proof.
  unfold io, fileno. rewrite bind_of_outcome, bind_modify, watch_eq.
  destruct w as [[run tms ios ins outs] e]. simpl.
  destruct (bool_decide (n ∈ ins)), (bool_decide (n ∈ outs)); reflexivity.
Qed.

Lemma list_remove_app_last n (l : list fd) :
  n ∉ l -> list_remove n (l ++ [n]) = l.
Proof.
  induction l as [|m l IH]; simpl; intros Hn.
  - destruct (decide (n = n)); [reflexivity | contradiction].
  - apply not_elem_of_cons in Hn as [Hne Hn].
    destruct (decide (n = m)); [contradiction|]. rewrite IH by exact Hn.
    reflexivity.
Qed.

(** X4. [io] for a handle with the descriptor [n] gives the descriptor the
    callback, replacing the one it had, and puts it in both interest lists
    unless it is there; the other watchers and the timers are as they
    were. A second [io] only replaces the callback. *)
Theorem io_registers cb n w :
  let w' := final (io cb (Socket n) w) in
  result (io cb (Socket n) w) = Ok tt /\
  _ios (self w') !! n = Some (Io cb) /\
  (forall m, m <> n -> _ios (self w') !! m = _ios (self w) !! m) /\
  n ∈ _inputs (self w') /\
  n ∈ _outputs (self w') /\
  _timers (self w') = _timers (self w) /\
  (forall cb',
     final (io cb' (Socket n) w') =
     World (set_ios (<[n := Io cb']> (_ios (self w))) (self w')) (ext w')).
Proof.
  cbv zeta. rewrite io_eq. unfold result, final.
  cbn [fst snd self ext _running _timers _ios _inputs _outputs].
  split; [reflexivity|]. split; [apply lookup_insert_eq|].
  split; [intros m Hm; apply lookup_insert_ne; congruence|].
  assert (Hin : forall l : list fd,
            n ∈ (if bool_decide (n ∈ l) then l else l ++ [n])).
  { intros l. destruct (bool_decide (n ∈ l)) eqn:Hb.
    - apply bool_decide_eq_true in Hb. exact Hb.
    - apply elem_of_app. right. apply list_elem_of_singleton. reflexivity. }
  split; [apply Hin|]. split; [apply Hin|]. split; [reflexivity|].
  intros cb'. rewrite io_eq. unfold set_ios.
  cbn [fst snd self ext _running _timers _ios _inputs _outputs].
  rewrite insert_insert_eq.
  rewrite !(bool_decide_eq_true_2 _ (Hin _)). reflexivity.
Qed.

(** X5. For a descriptor that has no watcher and no interest, [remove] after
    [io] finds the watcher and gives back the reactor as it was. *)
Theorem io_then_remove cb n w :
  absent (RHandle (Socket n)) (self w) ->
  remove (RHandle (Socket n)) (final (io cb (Socket n) w)) =
  (Ok (Some true), w, []).
Proof.
  intros (Hi & Hin & Hout). rewrite io_eq. unfold final. cbn [fst snd].
  rewrite remove_handle_eq.
  cbn [self ext _running _timers _ios _inputs _outputs].
  rewrite !(bool_decide_eq_false_2 _ Hin), !(bool_decide_eq_false_2 _ Hout).
  unfold dropped.
  assert (Hlast : forall l : list fd, n ∈ l ++ [n]).
  { intros l. apply elem_of_app. right. apply list_elem_of_singleton. reflexivity. }
  rewrite !(bool_decide_eq_true_2 _ (Hlast _)).
  rewrite !list_remove_app_last by assumption.
  rewrite lookup_insert_eq, delete_insert_id by exact Hi.
  rewrite bool_decide_eq_true_2 by eauto.
  destruct w as [[] ?]. reflexivity.
Qed.

(** *** [reset] *)

(** X6. After [reset] the reactor holds nothing: [remove] finds neither a timer
    nor a watcher, [again] raises for every id, and the next [one_tick]
    stops at once without waiting or calling anything. [reset] leaves
    [_running] and the outside as they are. *)
Theorem reset_empties w :
  let w' := final (reset w) in
  _running (self w') = _running (self w) /\
  ext w' = ext w /\
  (forall x, x <> RNone -> remove x w' = (Ok (Some false), w', [])) /\
  (forall t, again t w' = (Raise KeyError, w', [])) /\
  (forall fuel, one_tick (S fuel) w' = (Ok tt, stopped w', [])).
Proof.
  cbv zeta. unfold reset, final, modify, on_self. simpl.
  split; [reflexivity|]. split; [reflexivity|]. split; [|split].
  - intros [|t|[n|]] Hx; [contradiction | reflexivity..].
  - intros t. reflexivity.
  - intros fuel. reflexivity.
Qed.

(** *** [start] *)

(** X7. When [start] returns, the reactor is not running: the loop is left
    only when [_running] is false. *)
Theorem start_returns_stopped fuel tick_fuel w :
  result (start fuel tick_fuel w) = Ok tt ->
  _running (self (final (start fuel tick_fuel w))) = false.
Proof.
  unfold start. rewrite bind_modify.
  generalize (on_self (set_running true) w). clear w.
  induction fuel as [|fuel IH]; intros w; simpl; rewrite bind_gets.
  - destruct (_running (self w)) eqn:Hr; [discriminate|].
    intros _. exact Hr.
  - destruct (_running (self w)) eqn:Hr; [|intros _; exact Hr].
    rewrite result_bind, final_bind.
    destruct (result (one_tick tick_fuel w)); try discriminate.
    apply IH.
Qed.

(** *** [watch] *)

(** X8. Two calls of [watch] for a handle do what one call with the interests
    of both does, so a repeated call changes nothing; [watch] leaves the
    watchers and the timers alone. *)
Theorem watch_accumulates h rd1 wr1 rd2 wr2 w :
  final (watch h rd2 wr2 (final (watch h rd1 wr1 w))) =
    final (watch h (rd1 || rd2) (wr1 || wr2) w) /\
  _ios (self (final (watch h rd1 wr1 w))) = _ios (self w) /\
  _timers (self (final (watch h rd1 wr1 w))) = _timers (self w).
Proof.
  destruct h as [n|]; [|repeat split; reflexivity].
  rewrite !watch_eq. unfold final.
  cbn [fst snd self ext _running _timers _ios _inputs _outputs].
  split; [|split; reflexivity].
  assert (Hl : forall (l : list fd) (b1 b2 : bool),
    (let l1 := if b1 && negb (bool_decide (n ∈ l)) then l ++ [n] else l in
     if b2 && negb (bool_decide (n ∈ l1)) then l1 ++ [n] else l1) =
    (if (b1 || b2) && negb (bool_decide (n ∈ l)) then l ++ [n] else l)).
  { intros l b1 b2. simpl. destruct (bool_decide (n ∈ l)) eqn:Hb.
    - rewrite !andb_false_r. rewrite Hb. rewrite andb_false_r. reflexivity.
    - destruct b1; simpl.
      + rewrite bool_decide_eq_true_2
          by (apply elem_of_app; right; apply list_elem_of_singleton; reflexivity).
        rewrite andb_false_r. reflexivity.
      + rewrite Hb. reflexivity. }
  pose proof (Hl (_inputs (self w)) rd1 rd2) as H1.
  pose proof (Hl (_outputs (self w)) wr1 wr2) as H2.
  cbv zeta in H1, H2. rewrite H1, H2. reflexivity.
Qed.

(** *** [next_tick] *)

Lemma next_tick_eq fuel cb w :
  next_tick fuel cb w =
  match result (_timer_id fuel w) with
  | Ok _ =>
      (Raise TypeError,
       World (self w) (steady_time (ext (final (_timer_id fuel w)))).2, [])
  | Raise e => (Raise e, final (_timer_id fuel w), [])
  | OutOfFuel => (OutOfFuel, final (_timer_id fuel w), [])
  end.
Proof.
  destruct (_timer_id_quiet fuel w) as [Hs Ht]. unfold next_tick.
  destruct (_timer_id fuel w) as [[[t0|e0|] w1] tr1] eqn:Hid;
    unfold final, trace, result in *; cbn [fst snd] in *; subst tr1;
    unfold bind at 1; rewrite Hid; [|reflexivity..].
  rewrite bind_on_ext. unfold raise. rewrite Hs. reflexivity.
Qed.

(** X9. [next_tick] never schedules the callback on the select reactor: it
    does not return, it calls nothing, and the reactor holds the timers,
    watchers and interests it held. Where the search for the id raises,
    [next_tick] raises that exception; where the search returns an id,
    [next_tick] raises [TypeError]. *)
Theorem next_tick_raises fuel cb w :
  (forall t, result (next_tick fuel cb w) <> Ok t) /\
  self (final (next_tick fuel cb w)) = self w /\
  trace (next_tick fuel cb w) = [] /\
  (forall e, result (_timer_id fuel w) = Raise e ->
     result (next_tick fuel cb w) = Raise e) /\
  (forall t, result (_timer_id fuel w) = Ok t ->
     result (next_tick fuel cb w) = Raise TypeError).
Proof.
  destruct (_timer_id_quiet fuel w) as [Hs Ht]. rewrite next_tick_eq.
  destruct (result (_timer_id fuel w)) as [t0|e0|];
    unfold result, final, trace in *; cbn [fst snd self] in *;
    (split; [discriminate|]); (split; [auto|]); (split; [reflexivity|]);
    split; try discriminate; auto; intros e [= <-]; reflexivity.
Qed.

(** *** Timers and their deadlines *)

Lemma Qlt_bool_false a b : Qlt_bool a b = false -> (b <= a)%Q.
Proof.
  unfold Qlt_bool. intros H. apply negb_false_iff in H.
  apply Qle_bool_iff. exact H.
Qed.

(** X10. [one_tick] never calls the callback of a timer before its deadline:
    every timer it calls was found in the table with a deadline that is not
    after the instant [now] of the pass, the callback called is the one of
    that timer, and it is called without arguments. *)
Theorem timers_never_fire_early fuel w0 t tm now cb args w :
  EvCall (Timer t tm now) cb args w ∈ trace (one_tick fuel w0) ->
  (t_time tm <= now)%Q /\ t_cb tm = Some cb /\ args = [].
Proof.
  pose (P := fun ev : event CB Ext =>
    match ev with
    | EvCall (Timer _ tm now) cb args _ =>
        (t_time tm <= now)%Q /\ t_cb tm = Some cb /\ args = []
    | _ => True
    end).
  assert (HP : Forall P (trace (one_tick fuel w0))).
  { apply one_tick_trace.
    - intros [| |[] ? ? ?]; simpl; intros; try exact I; discriminate.
    - clear. intros now t w.
      destruct (timer_step_cases now t w) as [-> | (tm & Hget & Hdue & Hcase)];
        [constructor|].
      apply Qlt_bool_false in Hdue.
      destruct Hcase as [[Hrec ->] | (interval & Hrec & ->)];
        rewrite call_timer_trace; destruct (t_cb tm) eqn:Hcb;
        repeat constructor; simpl; auto. }
  rewrite Forall_forall in HP. intros Hin. exact (HP _ Hin).
Qed.

(** X11. A one-shot timer cannot be re-armed from its own callback: in the
    state the callback of a one-shot timer starts from, [again] with the
    timer's id raises [KeyError] and [remove] reports that there is no
    such timer. *)
Theorem one_shot_cannot_rearm_itself fuel w0 t tm now cb args w :
  EvCall (Timer t tm now) cb args w ∈ trace (one_tick fuel w0) ->
  t_recurring tm = None ->
  again t w = (Raise KeyError, w, []) /\
  remove (RTimer t) w = (Ok (Some false), w, []).
Proof.
  pose (P := fun ev : event CB Ext =>
    match ev with
    | EvCall (Timer t tm _) _ _ w =>
        t_recurring tm = None -> PyDict.get t (_timers (self w)) = None
    | _ => True
    end).
  assert (HP : Forall P (trace (one_tick fuel w0))).
  { apply one_tick_trace.
    - intros [| |[] ? ? ?]; simpl; intros; try exact I; discriminate.
    - clear. intros now t w.
      destruct (timer_step_cases now t w) as [-> | (tm & Hget & Hdue & Hcase)];
        [constructor|].
      destruct Hcase as [[Hrec ->] | (interval & Hrec & ->)];
        rewrite call_timer_trace; destruct (t_cb tm) eqn:Hcb;
        repeat constructor; simpl.
      + intros _. apply PyDict_get_del.
      + intros Hnone. congruence. }
  rewrite Forall_forall in HP. intros Hin Hrec.
  pose proof (HP _ Hin Hrec) as Hget.
  split.
  - unfold again. rewrite bind_gets, Hget. reflexivity.
  - rewrite remove_timer_eq. unfold PyDict.contains. rewrite Hget. reflexivity.
Qed.

(** *** The waits of a round *)

Lemma timer_step_calls (P : event CB Ext -> Prop) now t w :
  (forall dsp cb args w', P (EvCall dsp cb args w')) ->
  Forall P (trace (timer_step now t w)).
Proof.
  intros HP.
  destruct (timer_step_cases now t w) as [-> | (tm & Hget & Hdue & Hcase)];
    [constructor|].
  destruct Hcase as [[Hrec ->] | (interval & Hrec & ->)];
    rewrite call_timer_trace; destruct (t_cb tm); repeat constructor; apply HP.
Qed.

Lemma io_loop_calls (P : event CB Ext -> Prop) rl wl xl fds w :
  (forall dsp cb args w', P (EvCall dsp cb args w')) ->
  Forall P (trace (io_loop rl wl xl fds w)).
Proof.
  intros HP. revert w. induction fds as [|n fds IH]; intros w; simpl;
    [constructor|].
  apply trace_bind_Forall.
  - rewrite io_step_eq.
    destruct (_ || _); [|destruct (bool_decide _)];
      try destruct (_ios (self w) !! n); repeat constructor; apply HP.
  - intros i w1. apply trace_bind_Forall; [apply IH | intros; constructor].
Qed.

Lemma clamp_nonneg (timeout : Q) :
  (0 <= (if Qlt_bool timeout 0 then 0 else timeout))%Q.
Proof.
  destruct (Qlt_bool timeout 0) eqn:Hlt; [apply Qle_refl|].
  apply Qlt_bool_false. exact Hlt.
Qed.

(** X12. In a round of [one_tick], [select] is never given a negative timeout
    and [time.sleep] is only called with a timeout above zero: a deadline
    that has passed makes the wait zero, and a zero wait without watchers
    is no sleep at all. *)
Theorem waits_are_not_negative fuel w : Forall wait_ok (trace (one_tick fuel w)).
Proof.
  assert (Hcall : forall dsp cb args w', wait_ok (EvCall dsp cb args w'))
    by (intros; exact I).
  assert (Hloop : forall w', Forall wait_ok (trace (one_tick_loop fuel w'))).
  { induction fuel as [|fuel IH]; intros w'; simpl; [constructor|].
    apply trace_bind_Forall; [constructor|]. intros r w1.
    destruct (PyDict.is_empty (_timers r) && bool_decide (_ios r = ∅)).
    { apply trace_bind_Forall; [constructor | intros; constructor]. }
    apply trace_bind_Forall.
    { destruct (map t_time (PyDict.values (_timers r))); [constructor|].
      apply trace_bind_Forall; [rewrite trace_on_ext; constructor|].
      intros; constructor. }
    intros timeout w2. pose proof (clamp_nonneg timeout) as Hge.
    set (wait := if Qlt_bool timeout 0 then 0%Q else timeout) in *.
    apply trace_bind_Forall.
    { destruct (negb (bool_decide (_ios r = ∅))).
      - unfold io_phase. apply trace_bind_Forall; [constructor|]. intros r' w3.
        apply trace_bind_Forall.
        + unfold do_select. rewrite bind_tell. unfold trace at 1. simpl.
          rewrite trace_outside. repeat constructor. exact Hge.
        + intros [[rl wl] xl] w4. apply io_loop_calls. exact Hcall.
      - destruct (negb (Qeq_bool wait 0)) eqn:Hz; [|constructor].
        apply trace_bind_Forall.
        + repeat constructor. simpl.
          apply negb_true_iff, Qeq_bool_neq in Hz.
          apply Qle_lteq in Hge as [Hlt|Heq]; [exact Hlt|].
          exfalso. apply Hz. symmetry. exact Heq.
        + intros _ w3.
          apply trace_bind_Forall; [rewrite trace_on_ext; constructor|].
          intros; constructor. }
    intros i w3.
    apply trace_bind_Forall.
    { apply timers_phase_trace. intros now t w4. apply timer_step_calls, Hcall. }
    intros j w4. destruct (i + j =? 0)%nat; [apply IH | constructor]. }
  unfold one_tick.
  apply trace_bind_Forall; [constructor|]. intros running w1.
  apply trace_bind_Forall; [constructor|]. intros _ w2.
  apply trace_bind_Forall; [apply Hloop|]. intros e w3.
  destruct e; [constructor|].
  apply trace_bind_Forall; [constructor|]. intros b w4.
  destruct b; constructor.
Qed.

(** *** Every ready descriptor, once *)

Lemma io_step_counts rl wl xl m w k :
  result (io_step rl wl xl m w) = Ok k ->
  k = (if on_read_path rl xl m || on_write_path rl wl xl m then 1 else 0)%nat /\
  forall n,
    count (is_read n) (trace (io_step rl wl xl m w)) =
      (if bool_decide (m = n) && on_read_path rl xl m then 1 else 0)%nat /\
    count (is_write n) (trace (io_step rl wl xl m w)) =
      (if bool_decide (m = n) && on_write_path rl wl xl m then 1 else 0)%nat.
Proof.
  rewrite io_step_eq. unfold on_write_path, on_read_path.
  destruct (bool_decide (m ∈ rl) || bool_decide (m ∈ xl)); simpl.
  - destruct (_ios (self w) !! m) as [i|]; [|discriminate].
    unfold call_io, result, trace. simpl.
    destruct (call (io_cb i) [0%Z] w).1; [|discriminate..].
    intros [= <-]. split; [reflexivity|].
    intros n. destruct (bool_decide (m = n)); auto.
  - destruct (bool_decide (m ∈ wl)); simpl.
    + destruct (_ios (self w) !! m) as [i|]; [|discriminate].
      unfold call_io, result, trace. simpl.
      destruct (call (io_cb i) [1%Z] w).1; [|discriminate..].
      intros [= <-]. split; [reflexivity|].
      intros n. destruct (bool_decide (m = n)); auto.
    + unfold result, trace. simpl. intros [= <-]. split; [reflexivity|].
      intros n. destruct (bool_decide (m = n)); auto.
Qed.

Lemma io_loop_counts rl wl xl fds w k :
  NoDup fds ->
  (forall m, m ∈ fds -> on_read_path rl xl m || on_write_path rl wl xl m = true) ->
  result (io_loop rl wl xl fds w) = Ok k ->
  k = length fds /\
  forall n,
    count (is_read n) (trace (io_loop rl wl xl fds w)) =
      (if bool_decide (n ∈ fds) && on_read_path rl xl n then 1 else 0)%nat /\
    count (is_write n) (trace (io_loop rl wl xl fds w)) =
      (if bool_decide (n ∈ fds) && on_write_path rl wl xl n then 1 else 0)%nat.
Proof.
  revert w k. induction fds as [|m fds IH]; intros w k Hnd Hready; simpl.
  - unfold result, trace, ret. simpl. intros [= <-]. auto.
  - apply NoDup_cons in Hnd as [Hm Hnd]. intros Hk.
    apply bind_Ok_inv in Hk as (i & Hi & Hk & _).
    apply bind_Ok_inv in Hk as (j & Hj & Hk & _).
    unfold result, ret in Hk. simpl in Hk. injection Hk as <-.
    destruct (io_step_counts _ _ _ _ _ _ Hi) as [Hieq Hic].
    rewrite (Hready m) in Hieq by (apply elem_of_cons; auto).
    assert (Hready' : forall m', m' ∈ fds ->
      on_read_path rl xl m' || on_write_path rl wl xl m' = true).
    { intros m' Hin. apply Hready, elem_of_cons. auto. }
    destruct (IH _ _ Hnd Hready' Hj) as [Hjeq Hjc].
    split; [lia|]. intros n.
    rewrite trace_bind, Hi, trace_bind, Hj. simpl. rewrite app_nil_r.
    rewrite !count_app.
    destruct (Hic n) as [-> ->]. destruct (Hjc n) as [-> ->].
    destruct (decide (m = n)) as [->|Hne].
    + rewrite (bool_decide_eq_true_2 (n = n)) by reflexivity.
      rewrite (bool_decide_eq_false_2 (n ∈ fds)) by exact Hm.
      rewrite (bool_decide_eq_true_2 (n ∈ n :: fds)) by (apply elem_of_cons; auto).
      simpl. split; [destruct (on_read_path rl xl n) |
                     destruct (on_write_path rl wl xl n)]; reflexivity.
    + rewrite (bool_decide_eq_false_2 (m = n)) by exact Hne. simpl.
      assert (Hiff : bool_decide (n ∈ m :: fds) = bool_decide (n ∈ fds)).
      { apply bool_decide_ext. rewrite elem_of_cons.
        split; [intros [Heq|Hin]; [congruence | exact Hin] | auto]. }
      rewrite Hiff. auto.
Qed.

(** X13. A pass over the ready descriptors that completes calls the watcher of
    each descriptor that [select] reported exactly once, and of no other:
    on the read path if the descriptor is readable or exceptional, on the
    write path if it is writable only; the pass counts one event for each
    of them. [list(set(...))] lists each ready descriptor once. *)
Theorem ready_descriptors_called_once timeout w rl wl xl e k :
  select_select (_inputs (self w)) (_outputs (self w)) (_inputs (self w))
    timeout (ext w) = (Ok (rl, wl, xl), e) ->
  NoDup (list_set (xl ++ rl ++ wl)) ->
  (forall m, m ∈ list_set (xl ++ rl ++ wl) <-> m ∈ xl ++ rl ++ wl) ->
  result (io_phase timeout w) = Ok k ->
  k = length (list_set (xl ++ rl ++ wl)) /\
  forall n,
    count (is_read n) (trace (io_phase timeout w)) =
      (if on_read_path rl xl n then 1 else 0)%nat /\
    count (is_write n) (trace (io_phase timeout w)) =
      (if on_write_path rl wl xl n then 1 else 0)%nat.
Proof.
  intros Hsel Hnd Hset. rewrite (io_phase_eq _ _ _ _ _ _ Hsel).
  cbv zeta. unfold result at 1, trace at 1 2. cbn [fst snd].
  intros Hk.
  assert (Hready : forall m, m ∈ list_set (xl ++ rl ++ wl) ->
    on_read_path rl xl m || on_write_path rl wl xl m = true).
  { intros m Hin. apply Hset in Hin. rewrite !elem_of_app in Hin.
    unfold on_write_path, on_read_path.
    destruct Hin as [Hin | [Hin | Hin]];
      rewrite (bool_decide_eq_true_2 _ Hin);
      repeat (destruct (bool_decide _)); reflexivity. }
  destruct (io_loop_counts _ _ _ _ _ _ Hnd Hready Hk) as [-> Hc].
  split; [reflexivity|]. intros n. simpl.
  destruct (Hc n) as [-> ->].
  destruct (decide (n ∈ list_set (xl ++ rl ++ wl))) as [Hin|Hnin].
  - rewrite (bool_decide_eq_true_2 _ Hin). auto.
  - rewrite (bool_decide_eq_false_2 _ Hnin). simpl.
    assert (Hno : on_read_path rl xl n = false /\ on_write_path rl wl xl n = false).
    { rewrite Hset, !elem_of_app in Hnin. unfold on_write_path, on_read_path.
      rewrite !(bool_decide_eq_false_2 (n ∈ rl)), !(bool_decide_eq_false_2 (n ∈ xl)),
        (bool_decide_eq_false_2 (n ∈ wl)) by tauto. auto. }
    destruct Hno as [-> ->]. auto.
Qed.

(** *** A pass over the timers whose callbacks leave the reactor alone *)

Lemma PyDict_get_notin {V} k (d : list (string * V)) :
  k ∉ PyDict.keys d -> PyDict.get k d = None.
Proof.
  unfold PyDict.keys. induction d as [|[k0 v0] d IH]; simpl; [reflexivity|].
  rewrite not_elem_of_cons. intros [Hne Hnin].
  destruct (decide (k = k0)); [contradiction | apply IH, Hnin].
Qed.

Lemma PyDict_get_app_notin {V} k (pre l : list (string * V)) :
  k ∉ PyDict.keys pre -> PyDict.get k (pre ++ l) = PyDict.get k l.
Proof.
  unfold PyDict.keys. induction pre as [|[k0 v0] pre IH]; simpl; [reflexivity|].
  rewrite not_elem_of_cons. intros [Hne Hnin].
  destruct (decide (k = k0)); [contradiction | apply IH, Hnin].
Qed.

Lemma PyDict_set_app_notin {V} k (v : V) (pre l : list (string * V)) :
  k ∉ PyDict.keys pre -> PyDict.set k v (pre ++ l) = pre ++ PyDict.set k v l.
Proof.
  unfold PyDict.keys. induction pre as [|[k0 v0] pre IH]; simpl; [reflexivity|].
  rewrite not_elem_of_cons. intros [Hne Hnin].
  destruct (decide (k = k0)); [contradiction | rewrite IH by exact Hnin; reflexivity].
Qed.

Lemma PyDict_del_app_notin {V} k (pre l : list (string * V)) :
  k ∉ PyDict.keys pre -> PyDict.del k (pre ++ l) = pre ++ PyDict.del k l.
Proof.
  unfold PyDict.keys. induction pre as [|[k0 v0] pre IH]; simpl; [reflexivity|].
  rewrite not_elem_of_cons. intros [Hne Hnin].
  destruct (decide (k = k0)); [contradiction | rewrite IH by exact Hnin; reflexivity].
Qed.

Lemma set_timers_same r : set_timers (_timers r) r = r.
Proof. destruct r; reflexivity. Qed.

Lemma call_timer_inert t tm now w :
  (forall cb, t_cb tm = Some cb -> inert cb) ->
  result (call_timer t tm now w) = Ok 1%nat /\
  self (final (call_timer t tm now w)) = self w /\
  fired (trace (call_timer t tm now w)) =
    match t_cb tm with Some _ => [t] | None => [] end.
Proof.
  intros Hcb. unfold call_timer.
  destruct (t_cb tm) as [cb|]; [|auto].
  destruct (Hcb cb eq_refl [] w) as [Hr Hs].
  unfold result, final, trace. cbn [fst snd]. rewrite Hr, Hs. auto.
Qed.

Lemma timer_step_inert now pre k tm suf w :
  _timers (self w) = pre ++ (k, tm) :: suf ->
  k ∉ PyDict.keys pre ->
  k ∉ PyDict.keys suf ->
  (forall cb, t_cb tm = Some cb -> inert cb) ->
  result (timer_step now k w) = Ok (due_count now [(k, tm)]) /\
  self (final (timer_step now k w)) =
    set_timers (pre ++ after_pass now [(k, tm)] ++ suf) (self w) /\
  fired (trace (timer_step now k w)) = due_callbacks now [(k, tm)].
Proof.
  intros Ht Hpre Hsuf Hcb.
  assert (Hget : PyDict.get k (_timers (self w)) = Some tm).
  { rewrite Ht, PyDict_get_app_notin by exact Hpre. simpl.
    rewrite decide_True by reflexivity. reflexivity. }
  cbn [after_pass due_callbacks due_count]. unfold is_due.
  destruct (Qlt_bool now (t_time tm)) eqn:Hdue; cbn [negb].
  - rewrite timer_step_skip by (rewrite Hget; exact Hdue).
    unfold result, final, trace. cbn [fst snd app].
    rewrite <- Ht, set_timers_same. auto.
  - destruct (t_recurring tm) as [interval|] eqn:Hrec.
    + rewrite (timer_step_recurring _ _ _ _ _ Hget Hdue Hrec).
      destruct (call_timer_inert k tm now
        (on_self (set_timers (PyDict.set k (rescheduled tm now interval)
                                (_timers (self w)))) w) Hcb) as (-> & -> & ->).
      rewrite Ht, PyDict_set_app_notin by exact Hpre. simpl.
      rewrite decide_True by reflexivity.
      destruct (t_cb tm); auto.
    + rewrite (timer_step_one_shot _ _ _ _ Hget Hdue Hrec).
      destruct (call_timer_inert k tm now
        (on_self (set_timers (PyDict.del k (_timers (self w)))) w) Hcb)
        as (-> & -> & ->).
      rewrite Ht, PyDict_del_app_notin by exact Hpre. simpl.
      rewrite decide_True by reflexivity.
      rewrite (PyDict_del_absent k suf) by (apply PyDict_get_notin, Hsuf).
      destruct (t_cb tm); auto.
Qed.

Lemma after_pass_cons now k tm d :
  after_pass now ((k, tm) :: d) = after_pass now [(k, tm)] ++ after_pass now d.
Proof.
  simpl. destruct (is_due now tm); [destruct (t_recurring tm)|]; reflexivity.
Qed.

Lemma due_callbacks_cons now k tm d :
  due_callbacks now ((k, tm) :: d) =
  due_callbacks now [(k, tm)] ++ due_callbacks now d.
Proof.
  simpl. destruct (is_due now tm); [destruct (t_cb tm)|]; reflexivity.
Qed.

Lemma after_pass_keys now d k :
  k ∈ PyDict.keys (after_pass now d) -> k ∈ PyDict.keys d.
Proof.
  unfold PyDict.keys. induction d as [|[k0 tm] d IH]; simpl; [auto|].
  destruct (is_due now tm); [destruct (t_recurring tm)|]; simpl;
    rewrite ?elem_of_cons; intuition.
Qed.

Lemma timer_loop_inert now suf : forall pre w,
  _timers (self w) = pre ++ suf ->
  NoDup (PyDict.keys suf) ->
  (forall k, k ∈ PyDict.keys suf -> k ∉ PyDict.keys pre) ->
  (forall k tm cb, (k, tm) ∈ suf -> t_cb tm = Some cb -> inert cb) ->
  result (timer_loop now (PyDict.keys suf) w) = Ok (due_count now suf) /\
  self (final (timer_loop now (PyDict.keys suf) w)) =
    set_timers (pre ++ after_pass now suf) (self w) /\
  fired (trace (timer_loop now (PyDict.keys suf) w)) = due_callbacks now suf.
Proof.
  induction suf as [|[k tm] suf IH]; intros pre w Ht Hnd Hdisj Hcb.
  - simpl. unfold result, final, trace, ret. cbn [fst snd].
    rewrite <- Ht, set_timers_same. auto.
  - change (PyDict.keys ((k, tm) :: suf)) with (k :: PyDict.keys suf) in *.
    apply NoDup_cons in Hnd as [Hk Hnd].
    assert (Hpre : k ∉ PyDict.keys pre) by (apply Hdisj, elem_of_cons; auto).
    assert (Hcb1 : forall cb, t_cb tm = Some cb -> inert cb).
    { intros cb. apply (Hcb k tm cb), elem_of_cons. auto. }
    destruct (timer_step_inert now pre k tm suf w Ht Hpre Hk Hcb1)
      as (Hr1 & Hs1 & Hf1).
    set (w1 := final (timer_step now k w)) in *.
    assert (Ht1 : _timers (self w1) = (pre ++ after_pass now [(k, tm)]) ++ suf).
    { rewrite Hs1. simpl. rewrite app_assoc. reflexivity. }
    assert (Hdisj1 : forall k', k' ∈ PyDict.keys suf ->
      k' ∉ PyDict.keys (pre ++ after_pass now [(k, tm)])).
    { intros k' Hin. unfold PyDict.keys. rewrite fmap_app, elem_of_app.
      intros [Hp | Ha].
      - apply (Hdisj k'); [apply elem_of_cons; auto | exact Hp].
      - apply after_pass_keys in Ha. simpl in Ha.
        apply list_elem_of_singleton in Ha. subst k'. contradiction. }
    assert (Hcb' : forall k' tm' cb, (k', tm') ∈ suf -> t_cb tm' = Some cb -> inert cb).
    { intros k' tm' cb Hin. apply (Hcb k' tm' cb), elem_of_cons. auto. }
    destruct (IH _ w1 Ht1 Hnd Hdisj1 Hcb') as (Hr2 & Hs2 & Hf2).
    cbn [timer_loop].
    rewrite after_pass_cons, due_callbacks_cons.
    split; [|split].
    + rewrite result_bind, Hr1. fold w1. rewrite result_bind, Hr2.
      simpl. destruct (is_due now tm); reflexivity.
    + rewrite final_bind, Hr1. fold w1. rewrite final_bind, Hr2.
      change (self (final (timer_loop now (PyDict.keys suf) w1)) =
              set_timers (pre ++ after_pass now [(k, tm)] ++ after_pass now suf)
                (self w)).
      rewrite Hs2, Hs1, <- app_assoc. reflexivity.
    + rewrite trace_bind, Hr1. fold w1. rewrite trace_bind, Hr2.
      change (fired (trace (timer_step now k w) ++
                     trace (timer_loop now (PyDict.keys suf) w1) ++ []) =
              due_callbacks now [(k, tm)] ++ due_callbacks now suf).
      rewrite app_nil_r, fired_app, Hf1, Hf2. reflexivity.
Qed.

(** X14. When the keys of the table are distinct and no callback of a timer
    raises or changes the reactor, a pass over the timers at the instant
    [now] counts every timer that is due, calls the callbacks of the due
    timers in the order of the table, and leaves the table with the
    timers that were not due as they were, the due recurring timers in
    their places with the deadline [now] plus their interval, and no due
    one-shot timer. *)
Theorem timers_pass_result w :
  NoDup (PyDict.keys (_timers (self w))) ->
  (forall k tm cb, (k, tm) ∈ _timers (self w) -> t_cb tm = Some cb -> inert cb) ->
  let now := (steady_time (ext w)).1 in
  result (timers_phase w) = Ok (due_count now (_timers (self w))) /\
  self (final (timers_phase w)) =
    set_timers (after_pass now (_timers (self w))) (self w) /\
  fired (trace (timers_phase w)) = due_callbacks now (_timers (self w)).
Proof.
  intros Hnd Hcb now. unfold timers_phase.
  rewrite bind_on_ext, bind_gets. cbn [self ext].
  apply (timer_loop_inert now (_timers (self w)) []
           (World (self w) (steady_time (ext w)).2)).
  - reflexivity.
  - exact Hnd.
  - intros k _. apply not_elem_of_nil.
  - exact Hcb.
Qed.

(** *** What [one_tick] leaves in [_running] *)

Lemma one_tick_loop_returned fuel : forall w,
  result (one_tick_loop fuel w) = Ok Returned ->
  _running (self (final (one_tick_loop fuel w))) = false.
Proof.
  induction fuel as [|fuel IH]; intros w; [discriminate|].
  cbn [one_tick_loop]. rewrite bind_gets.
  destruct (PyDict.is_empty (_timers (self w)) && bool_decide (_ios (self w) = ∅));
    [reflexivity|].
  intros Hr.
  apply bind_Ok_inv in Hr as (timeout & _ & Hr & ->).
  apply bind_Ok_inv in Hr as (i & _ & Hr & ->).
  apply bind_Ok_inv in Hr as (j & _ & Hr & ->).
  destruct (i + j =? 0)%nat; [apply IH, Hr | discriminate].
Qed.

(** X15. Whatever the callbacks do, when [one_tick] returns, [_running] is
    false or what it was when [one_tick] was called: [one_tick] never
    leaves the reactor running that was not running before. *)
Theorem one_tick_running_false_or_restored fuel w :
  result (one_tick fuel w) = Ok tt ->
  _running (self (final (one_tick fuel w))) = false \/
  _running (self (final (one_tick fuel w))) = _running (self w).
Proof.
  unfold one_tick. rewrite bind_gets, bind_modify. intros Hr.
  apply bind_Ok_inv in Hr as (e & He & Hr & ->).
  destruct e.
  - left. apply one_tick_loop_returned, He.
  - rewrite bind_gets.
    destruct (_running (self (final (one_tick_loop fuel _)))) eqn:Hrun.
    + right. reflexivity.
    + left. exact Hrun.
Qed.

Section Kept.
Context {T : Type} (proj : reactor CB -> T).
Hypothesis proj_timers : forall l r, proj (set_timers l r) = proj r.
Hypothesis call_proj : forall cb args w,
  proj (self (call cb args w).2) = proj (self w).

Local Abbreviation keeps m :=
  (forall w, proj (self (final (m w))) = proj (self w)).

Lemma kept_bind {A B} (m : M (world CB Ext) (event CB Ext) A)
    (k : A -> M (world CB Ext) (event CB Ext) B) :
  keeps m -> (forall a, keeps (k a)) -> keeps (bind m k).
Proof.
  intros Hm Hk w. rewrite final_bind.
  destruct (result (m w)); [rewrite Hk|..]; apply Hm.
Qed.

Lemma kept_on_ext {A} (f : Ext -> A * Ext) : keeps (on_ext f).
Proof. intros w. destruct (result_on_ext f w) as [_ ->]. reflexivity. Qed.

Lemma kept_io_step rl wl xl n : keeps (io_step rl wl xl n).
Proof.
  intros w. rewrite io_step_eq.
  destruct (_ || _); [|destruct (bool_decide _)];
    try destruct (_ios (self w) !! n); try reflexivity; apply call_proj.
Qed.

Lemma kept_io_loop rl wl xl fds : keeps (io_loop rl wl xl fds).
Proof.
  induction fds as [|n fds IH]; [reflexivity|]. cbn [io_loop].
  apply kept_bind; [apply kept_io_step|]. intros i.
  apply kept_bind; [exact IH | reflexivity].
Qed.

Lemma kept_io_phase timeout : keeps (io_phase timeout).
Proof.
  unfold io_phase. apply kept_bind; [reflexivity|]. intros r.
  apply kept_bind.
  - intros w. unfold do_select. rewrite bind_tell. unfold final, outside.
    destruct (select_select _ _ _ _ _). reflexivity.
  - intros [[rl wl] xl]. apply kept_io_loop.
Qed.

Lemma kept_timer_step now t : keeps (timer_step now t).
Proof.
  intros w.
  destruct (timer_step_cases now t w) as [-> | (tm & Hget & Hdue & Hcase)];
    [reflexivity|].
  destruct Hcase as [[Hrec ->] | (interval & Hrec & ->)];
    unfold call_timer; destruct (t_cb tm);
    unfold final; cbn [fst snd]; rewrite ?call_proj; apply proj_timers.
Qed.

Lemma kept_timer_loop now tids : keeps (timer_loop now tids).
Proof.
  induction tids as [|t tids IH]; [reflexivity|]. cbn [timer_loop].
  apply kept_bind; [apply kept_timer_step|]. intros i.
  apply kept_bind; [exact IH | reflexivity].
Qed.

Lemma kept_timers_phase : keeps timers_phase.
Proof.
  unfold timers_phase. apply kept_bind; [apply kept_on_ext|]. intros now.
  apply kept_bind; [reflexivity|]. intros tids. apply kept_timer_loop.
Qed.

Hypothesis proj_running : forall b r, proj (set_running b r) = proj r.

Lemma kept_set_running b :
  keeps (modify (Ev := event CB Ext) (on_self (set_running b))).
Proof. intros w. apply proj_running. Qed.

Lemma kept_one_tick_loop fuel : keeps (one_tick_loop fuel).
Proof.
  induction fuel as [|fuel IH]; [reflexivity|]. cbn [one_tick_loop].
  apply kept_bind; [reflexivity|]. intros r.
  destruct (_ && _).
  { apply kept_bind; [apply kept_set_running | reflexivity]. }
  apply kept_bind.
  { destruct (map t_time _); [reflexivity|].
    apply kept_bind; [apply kept_on_ext | reflexivity]. }
  intros timeout. apply kept_bind.
  { destruct (negb (bool_decide _)); [apply kept_io_phase|].
    destruct (negb (Qeq_bool _ 0)); [|reflexivity].
    apply kept_bind; [reflexivity|]. intros _.
    apply kept_bind; [apply kept_on_ext | reflexivity]. }
  intros i. apply kept_bind; [apply kept_timers_phase|]. intros j.
  destruct (i + j =? 0)%nat; [exact IH | reflexivity].
Qed.

Lemma kept_one_tick fuel : keeps (one_tick fuel).
Proof.
  unfold one_tick. apply kept_bind; [reflexivity|]. intros running.
  apply kept_bind; [apply kept_set_running|]. intros _.
  apply kept_bind; [apply kept_one_tick_loop|]. intros [|]; [reflexivity|].
  apply kept_bind; [reflexivity|]. intros [|];
    [apply kept_set_running | reflexivity].
Qed.

End Kept.

(** A pass that counts no event has called nothing and leaves the reactor
    as it was. *)
Lemma io_loop_zero rl wl xl fds : forall w,
  result (io_loop rl wl xl fds w) = Ok 0%nat ->
  final (io_loop rl wl xl fds w) = w.
Proof.
  induction fds as [|n fds IH]; intros w; [reflexivity|]. cbn [io_loop].
  intros Hr.
  apply bind_Ok_inv in Hr as (i & Hi & Hr & ->).
  apply bind_Ok_inv in Hr as (j & Hj & Hr & ->).
  injection Hr as Hij.
  assert (i = 0%nat) by lia. assert (j = 0%nat) by lia. subst i j.
  assert (Hw : final (io_step rl wl xl n w) = w).
  { revert Hi. rewrite io_step_eq.
    destruct (_ || _); [|destruct (bool_decide _)];
      try destruct (_ios (self w) !! n) as [i|]; try discriminate;
      try reflexivity;
      unfold call_io, result; cbn [fst snd];
      destruct (call (io_cb i) _ w).1; discriminate. }
  rewrite Hw in Hj |- *. change (final (io_loop rl wl xl fds w) = w).
  apply IH, Hj.
Qed.

Lemma io_phase_zero timeout w :
  result (io_phase timeout w) = Ok 0%nat ->
  self (final (io_phase timeout w)) = self w.
Proof.
  unfold io_phase. rewrite bind_gets. intros Hr.
  apply bind_Ok_inv in Hr as ([[rl wl] xl] & Hsel & Hr & ->).
  rewrite (io_loop_zero _ _ _ _ _ Hr).
  unfold do_select. rewrite bind_tell. unfold final, outside.
  destruct (select_select _ _ _ _ _). reflexivity.
Qed.

Lemma timer_loop_zero now tids : forall w,
  result (timer_loop now tids w) = Ok 0%nat ->
  final (timer_loop now tids w) = w.
Proof.
  induction tids as [|t tids IH]; intros w; [reflexivity|]. cbn [timer_loop].
  intros Hr.
  apply bind_Ok_inv in Hr as (i & Hi & Hr & ->).
  apply bind_Ok_inv in Hr as (j & Hj & Hr & ->).
  injection Hr as Hij.
  assert (i = 0%nat) by lia. assert (j = 0%nat) by lia. subst i j.
  assert (Hw : final (timer_step now t w) = w).
  { revert Hi.
    destruct (timer_step_cases now t w) as [-> | (tm & Hget & Hdue & Hcase)];
      [reflexivity|].
    destruct Hcase as [[Hrec ->] | (interval & Hrec & ->)];
      unfold call_timer; destruct (t_cb tm) as [cb|]; try discriminate;
      unfold result; cbn [fst snd];
      destruct (call cb _ _).1; discriminate. }
  rewrite Hw in Hj |- *. change (final (timer_loop now tids w) = w).
  apply IH, Hj.
Qed.

Lemma timers_phase_zero w :
  result (timers_phase w) = Ok 0%nat ->
  self (final (timers_phase w)) = self w.
Proof.
  unfold timers_phase. rewrite bind_on_ext, bind_gets. intros Hr.
  rewrite (timer_loop_zero _ _ _ Hr). reflexivity.
Qed.

Lemma one_tick_loop_completes
    (call_running : forall cb args w,
       _running (self (call cb args w).2) = _running (self w)) fuel :
  forall w e,
  PyDict.is_empty (_timers (self w)) && bool_decide (_ios (self w) = ∅) = false ->
  result (one_tick_loop fuel w) = Ok e ->
  e = Completed /\
  _running (self (final (one_tick_loop fuel w))) = _running (self w).
Proof.
  induction fuel as [|fuel IH]; intros w e Hne; [discriminate|].
  cbn [one_tick_loop]. rewrite bind_gets, Hne.
  set (tm := match map t_time (PyDict.values (_timers (self w))) with
             | [] => ret (1 # 2)%Q
             | x :: xs => now <- on_ext steady_time;; ret (py_min x xs - now)%Q
             end).
  assert (Htm : forall w', self (final (tm w')) = self w').
  { intros w'. unfold tm.
    destruct (map t_time (PyDict.values (_timers (self w)))); [reflexivity|].
    rewrite bind_on_ext. reflexivity. }
  intros Hr.
  apply bind_Ok_inv in Hr as (timeout & _ & Hr & ->).
  set (w1 := final (tm w)) in *.
  assert (H1 : self w1 = self w) by apply Htm.
  set (wait := if Qlt_bool timeout 0 then 0%Q else timeout) in *.
  set (io := if negb (bool_decide (_ios (self w) = ∅)) then io_phase wait
             else if negb (Qeq_bool wait 0)
                  then tell (EvSleep wait);;
                       on_ext (fun e0 => (tt, time_sleep wait e0));; ret 0%nat
                  else ret 0%nat) in *.
  apply bind_Ok_inv in Hr as (i & Hi & Hr & ->).
  set (w2 := final (io w1)) in *.
  apply bind_Ok_inv in Hr as (j & Hj & Hr & ->).
  set (w3 := final (timers_phase w2)) in *.
  assert (Hrun2 : _running (self w2) = _running (self w1)).
  { unfold w2, io.
    destruct (negb (bool_decide _));
      [apply (kept_io_phase _running call_running)|].
    destruct (negb (Qeq_bool wait 0)); [|reflexivity].
    rewrite bind_tell. unfold final. cbn [fst snd].
    rewrite bind_on_ext. reflexivity. }
  assert (Hrun3 : _running (self w3) = _running (self w2))
    by apply (kept_timers_phase _running (fun _ _ => eq_refl) call_running).
  destruct (i + j =? 0)%nat eqn:Hz.
  - apply Nat.eqb_eq in Hz.
    assert (i = 0%nat) by lia. assert (j = 0%nat) by lia. subst i j.
    assert (H2 : self w2 = self w1).
    { unfold w2, io in Hi |- *.
      destruct (negb (bool_decide _)); [apply io_phase_zero, Hi|].
      destruct (negb (Qeq_bool wait 0)); [|reflexivity].
      rewrite bind_tell. unfold final. cbn [fst snd].
      rewrite bind_on_ext. reflexivity. }
    assert (H3 : self w3 = self w2) by apply timers_phase_zero, Hj.
    assert (Hne3 : PyDict.is_empty (_timers (self w3))
                   && bool_decide (_ios (self w3) = ∅) = false)
      by (rewrite H3, H2, H1; exact Hne).
    destruct (IH w3 e Hne3 Hr) as [-> ->].
    rewrite H3, H2, H1. auto.
  - injection Hr as <-. split; [reflexivity|].
    change (_running (self w3) = _running (self w)).
    rewrite Hrun3, Hrun2, H1. reflexivity.
Qed.

Lemma one_tick_busy_running fuel w :
  (forall cb args w', _running (self (call cb args w').2) = _running (self w')) ->
  PyDict.is_empty (_timers (self w)) && bool_decide (_ios (self w) = ∅) = false ->
  result (one_tick fuel w) = Ok tt ->
  _running (self (final (one_tick fuel w))) = _running (self w).
Proof.
  intros Hcb Hne. unfold one_tick. rewrite bind_gets, bind_modify. intros Hr.
  apply bind_Ok_inv in Hr as (e & He & Hr & ->).
  destruct (one_tick_loop_completes Hcb fuel
              (on_self (set_running true) w) e Hne He) as [-> Hrun].
  rewrite bind_gets, Hrun. reflexivity.
Qed.

(** X16. When no callback changes [_running] and the reactor has a timer or a
    watcher, a [one_tick] that returns has dispatched at least one event
    and leaves [_running] as it was when it was called; with nothing to
    watch it leaves [_running] false. *)
Theorem one_tick_restores_running fuel w :
  (forall cb args w', _running (self (call cb args w').2) = _running (self w')) ->
  result (one_tick fuel w) = Ok tt ->
  _running (self (final (one_tick fuel w))) =
    if PyDict.is_empty (_timers (self w)) && bool_decide (_ios (self w) = ∅)
    then false else _running (self w).
Proof.
  intros Hcb Hr.
  destruct (PyDict.is_empty (_timers (self w)) && bool_decide (_ios (self w) = ∅))
    eqn:Hne; [|apply one_tick_busy_running; assumption].
  revert Hr. unfold one_tick. rewrite bind_gets, bind_modify. intros Hr.
  apply bind_Ok_inv in Hr as (e & He & Hr & ->).
  destruct fuel as [|fuel]; [discriminate|].
  revert He. cbn [one_tick_loop]. rewrite bind_gets.
  cbn [on_self self set_running _timers _ios]. rewrite Hne.
  intros [= <-]. reflexivity.
Qed.

(** *** [start] runs until it is stopped *)

Lemma start_loop_runs tick_fuel
    (call_self : forall cb args w', self (call cb args w').2 = self w') fuel :
  forall w,
  _running (self w) = true ->
  _ios (self w) <> ∅ ->
  result (start_loop fuel tick_fuel w) <> Ok tt.
Proof.
  assert (Hrun : forall cb args w',
            _running (self (call cb args w').2) = _running (self w'))
    by (intros; rewrite call_self; reflexivity).
  assert (Hios : forall cb args w',
            _ios (self (call cb args w').2) = _ios (self w'))
    by (intros; rewrite call_self; reflexivity).
  induction fuel as [|fuel IH]; intros w Hr Hne; simpl;
    rewrite bind_gets, Hr; [discriminate|].
  rewrite result_bind.
  destruct (result (one_tick tick_fuel w)) as [[]| |] eqn:Htick;
    [|discriminate..].
  apply IH.
  - rewrite (one_tick_busy_running tick_fuel w Hrun); [exact Hr | | exact Htick].
    rewrite (bool_decide_eq_false_2 _ Hne). apply andb_false_r.
  - rewrite (kept_one_tick _ios (fun _ _ => eq_refl) Hios (fun _ _ => eq_refl)).
    exact Hne.
Qed.

(** X17. While the reactor has a watcher and the callbacks leave the reactor
    as it is, so that none of them stops it, [start] does not return:
    whatever the number of rounds it is given, it is still in its loop
    or has been left by an exception of a callback. *)
Theorem start_runs_until_stopped fuel tick_fuel w :
  (forall cb args w', self (call cb args w').2 = self w') ->
  _ios (self w) <> ∅ ->
  result (start fuel tick_fuel w) <> Ok tt.
Proof.
  intros Hcb Hne. unfold start. rewrite bind_modify.
  apply (start_loop_runs tick_fuel Hcb); [reflexivity | exact Hne].
Qed.


(** *** Interest lists without duplicates *)

Local Abbreviation Tidy := (keeps_interest_ok (CB := CB) (Ext := Ext)).

Lemma tidy_bind {A B} (m : M (world CB Ext) (event CB Ext) A)
    (k : A -> M (world CB Ext) (event CB Ext) B) :
  Tidy m -> (forall a, Tidy (k a)) -> Tidy (bind m k).
Proof.
  intros Hm Hk w Hok. rewrite final_bind.
  destruct (result (m w)); [apply Hk|..]; apply Hm, Hok.
Qed.

Lemma tidy_same {A} (m : M (world CB Ext) (event CB Ext) A) :
  (forall w, self (final (m w)) = self w) -> Tidy m.
Proof. intros Hm w Hok. rewrite Hm. exact Hok. Qed.

Lemma tidy_ret {A} (a : A) : Tidy (ret a).
Proof. apply tidy_same. reflexivity. Qed.

Lemma tidy_raise {A} e : Tidy (raise (A := A) e).
Proof. apply tidy_same. reflexivity. Qed.

Lemma tidy_diverge {A} : Tidy (diverge (A := A)).
Proof. apply tidy_same. reflexivity. Qed.

Lemma tidy_gets {A} (f : world CB Ext -> A) : Tidy (gets f).
Proof. apply tidy_same. reflexivity. Qed.

Lemma tidy_tell ev : Tidy (tell ev).
Proof. apply tidy_same. reflexivity. Qed.

Lemma tidy_of_outcome {A} (o : outcome A) : Tidy (of_outcome o).
Proof. apply tidy_same. reflexivity. Qed.

Lemma tidy_on_ext {A} (f : Ext -> A * Ext) : Tidy (on_ext f).
Proof.
  apply tidy_same. intros w. destruct (result_on_ext f w) as [_ ->]. reflexivity.
Qed.

Lemma tidy_select rl wl xl timeout : Tidy (do_select rl wl xl timeout).
Proof.
  apply tidy_same. intros w. unfold do_select. rewrite bind_tell.
  unfold final, outside. destruct (select_select _ _ _ _ _). reflexivity.
Qed.

Lemma tidy_modify (f : reactor CB -> reactor CB) :
  (forall r, _inputs (f r) = _inputs r /\ _outputs (f r) = _outputs r) ->
  Tidy (modify (on_self f)).
Proof.
  intros Hf w [Hin Hout]. unfold final, modify, on_self, interest_ok. simpl.
  destruct (Hf (self w)) as [-> ->]. auto.
Qed.

Lemma tidy_set_timers (f : reactor CB -> list (tid * timer_t CB)) :
  Tidy (modify (on_self (fun r => set_timers (f r) r))).
Proof. apply tidy_modify. intros r. split; reflexivity. Qed.

Lemma tidy_set_running b : Tidy (modify (on_self (set_running b))).
Proof. apply tidy_modify. intros r. split; reflexivity. Qed.

Lemma tidy_stop : Tidy stop.
Proof. apply tidy_set_running. Qed.

Lemma tidy_remove x : Tidy (remove x).
Proof. intros w. apply interest_ok_remove. Qed.

Lemma tidy_watch h rd wr : Tidy (watch h rd wr).
Proof. intros w. apply interest_ok_watch. Qed.

Lemma tidy_io cb h : Tidy (io cb h).
Proof. intros w. apply interest_ok_io. Qed.

Lemma tidy_reset : Tidy reset.
Proof. intros w _. apply interest_ok_reset. Qed.

Create HintDb tidy.
#[local] Hint Resolve tidy_ret tidy_raise tidy_diverge tidy_gets tidy_tell
  tidy_of_outcome tidy_on_ext tidy_select tidy_set_running tidy_stop
  tidy_remove tidy_watch tidy_io tidy_reset : tidy.
#[local] Hint Extern 1
  (keeps_interest_ok (modify (on_self (fun r => set_timers _ r)))) =>
  apply (tidy_set_timers (fun r => PyDict.set _ _ (_timers r))) : tidy.

Ltac tidy_walk :=
  repeat first
    [ solve [auto with tidy]
    | apply tidy_bind; [|intro]
    | match goal with
      | |- keeps_interest_ok (match ?x with _ => _ end) => destruct x
      end ].

Lemma tidy_again t : Tidy (again t).
Proof. unfold again. tidy_walk. Qed.

Lemma tidy__timer_id fuel : Tidy (_timer_id fuel).
Proof. induction fuel as [|fuel IH]; simpl; tidy_walk. Qed.

Lemma tidy__timer fuel cb rec after : Tidy (_timer fuel cb rec after).
Proof. pose proof (tidy__timer_id fuel). unfold _timer. tidy_walk. Qed.

Section CallbacksKeepDuplicateFree.
Hypothesis call_tidy : forall cb args w,
  interest_ok (self w) -> interest_ok (self (call cb args w).2).

Lemma tidy_sandbox cb dsp args : Tidy (_sandbox cb dsp args).
Proof. intros w. rewrite sandbox_eq. apply call_tidy. Qed.

#[local] Hint Resolve tidy_sandbox : tidy.

Lemma tidy_timer_step now t : Tidy (timer_step now t).
Proof. unfold timer_step. tidy_walk. Qed.

Lemma tidy_timer_loop now tids : Tidy (timer_loop now tids).
Proof.
  pose proof (tidy_timer_step now).
  induction tids as [|t tids IH]; simpl; tidy_walk.
Qed.

Lemma tidy_timers_phase : Tidy timers_phase.
Proof. pose proof tidy_timer_loop. unfold timers_phase. tidy_walk. Qed.

Lemma tidy_io_step rl wl xl n : Tidy (io_step rl wl xl n).
Proof. unfold io_step. tidy_walk. Qed.

Lemma tidy_io_loop rl wl xl fds : Tidy (io_loop rl wl xl fds).
Proof.
  pose proof (tidy_io_step rl wl xl).
  induction fds as [|n fds IH]; simpl; tidy_walk.
Qed.

Lemma tidy_io_phase timeout : Tidy (io_phase timeout).
Proof. pose proof tidy_io_loop. unfold io_phase. tidy_walk. Qed.

Lemma tidy_one_tick_loop fuel : Tidy (one_tick_loop fuel).
Proof.
  pose proof tidy_io_phase. pose proof tidy_timers_phase.
  induction fuel as [|fuel IH]; simpl; tidy_walk.
Qed.

Lemma tidy_one_tick fuel : Tidy (one_tick fuel).
Proof. pose proof (tidy_one_tick_loop fuel). unfold one_tick. tidy_walk. Qed.

Lemma tidy_start_loop fuel tick_fuel : Tidy (start_loop fuel tick_fuel).
Proof.
  pose proof (tidy_one_tick tick_fuel).
  induction fuel as [|fuel IH]; simpl; tidy_walk.
Qed.

End CallbacksKeepDuplicateFree.

(** X18. No method of the reactor puts a descriptor twice in an interest list:
    when the lists [_inputs] and [_outputs] hold each descriptor at most
    once and the callbacks leave them so, they hold each descriptor at
    most once after every method, whether it returns or raises. *)
Theorem interest_lists_stay_duplicate_free (m : method) :
  (forall cb args w,
     interest_ok (self w) -> interest_ok (self (call cb args w).2)) ->
  keeps_interest_ok (run_method m).
Proof.
  intros Hcall.
  pose proof tidy_again. pose proof tidy__timer.
  pose proof (tidy_one_tick Hcall). pose proof (tidy_start_loop Hcall).
  destruct m; simpl; unfold is_readable, is_running, recurring, timer, start;
    tidy_walk.
Qed.

(** *** [is_readable] *)

(** X19. [is_readable] for a handle with the descriptor [n] asks [select]
    about that one descriptor, for reading only and without waiting; it
    answers whether [select] reported the descriptor readable, it raises
    what [select] raises, and it leaves the reactor as it is, whether the
    descriptor is watched or not. *)
Theorem is_readable_polls n w :
  trace (is_readable (Socket n) w) = [EvSelect [n] [] [] 0] /\
  self (final (is_readable (Socket n) w)) = self w /\
  (forall rl wl xl e,
     select_select [n] [] [] 0 (ext w) = (Ok (rl, wl, xl), e) ->
     is_readable (Socket n) w =
     (Ok (bool_decide (n ∈ rl)), World (self w) e, [EvSelect [n] [] [] 0])) /\
  (forall err e,
     select_select [n] [] [] 0 (ext w) = (Raise err, e) ->
     is_readable (Socket n) w =
     (Raise err, World (self w) e, [EvSelect [n] [] [] 0])).
Proof.
  unfold is_readable, fileno. rewrite !bind_of_outcome.
  unfold do_select. rewrite bind_assoc, bind_tell, bind_outside.
  destruct (select_select [n] [] [] 0 (ext w)) as [[[[rl wl] xl]|e|] e'];
    cbn [fst snd]; repeat split; try reflexivity; try discriminate.
  - intros rl' wl' xl' e0 [= <- <- <- <-]. reflexivity.
  - intros err e0 [= <- <-]. reflexivity.
Qed.

End Facts.

(** The recurring timer of interval 20, re-armed at the instant 15. *)
Lemma again_rearms_witness :
  let w := World Scenario.one_ticker (Scenario.quiet 15) in
  PyDict.get "r" (_timers (self (final (again "r" w)))) =
    Some (mk_timer (Some 3%nat) 20 (15 + 20)%Q (Some 20%Q)) /\
  again "x" w = (Raise KeyError, w, []).
Proof.
  intros w. destruct (again_rearms "r" w) as [_ Hthere].
  destruct (Hthere Scenario.ticker) as (_ & Hget & _); [reflexivity|].
  split; [exact Hget|].
  apply (proj1 (again_rearms "x" w)). reflexivity.
Defined.


(** Adding a timer to an empty reactor and removing it again. *)
Lemma timer_then_remove_witness :
  let w := World (CB := nat) Scenario.empty_reactor (Scenario.quiet 100) in
  let w' := final (_timer 1 (Some 1%nat) false 5 w) in
  result (remove (RTimer "d41d8cd98f00b204e9800998ecf8427e") w') = Ok (Some true) /\
  PyDict.get "d41d8cd98f00b204e9800998ecf8427e"
    (_timers (self (final
       (remove (RTimer "d41d8cd98f00b204e9800998ecf8427e") w')))) = None.
Proof.
  intros w w'.
  assert (Hr : result (_timer 1 (Some 1%nat) false 5 w) =
               Ok "d41d8cd98f00b204e9800998ecf8427e")
    by (vm_compute; reflexivity).
  pose proof (timer_then_remove 1 (Some 1%nat) false 5 w
                "d41d8cd98f00b204e9800998ecf8427e" Hr) as H.
  cbv zeta in H. destruct H as (Hres & _ & Hget & _).
  split; [exact Hres|]. exact (Hget "d41d8cd98f00b204e9800998ecf8427e").
Defined.

(** A watcher for descriptor 7 on an empty reactor, and its removal. *)
Lemma io_then_remove_witness :
  let w := World (CB := nat) Scenario.empty_reactor (Scenario.quiet 0) in
  remove (RHandle (Socket 7%Z)) (final (io 4%nat (Socket 7%Z) w)) =
    (Ok (Some true), w, []).
Proof.
  intros w. apply (io_then_remove 4%nat 7%Z w).
  split; [reflexivity|]. split; apply not_elem_of_nil.
Defined.

(** [start] on an empty reactor returns after one round. *)
Lemma start_returns_stopped_witness :
  _running (self (final (start 1 1
    (World (CB := nat) Scenario.empty_reactor (Scenario.quiet 0))))) = false.
Proof.
  apply (start_returns_stopped 1 1
           (World (CB := nat) Scenario.empty_reactor (Scenario.quiet 0))).
  reflexivity.
Defined.

(** [next_tick] on an empty reactor, where [md5_sum] gives a digest and
    where it refuses text. *)
Lemma next_tick_raises_witness :
  let w := World (CB := nat) Scenario.empty_reactor (Scenario.quiet 0) in
  result (next_tick 1 4%nat w) = Raise TypeError /\
  result (@next_tick nat _ Scenario.strict_env 1 4%nat w) = Raise TypeError.
Proof.
  intros w. split.
  - apply (proj2 (proj2 (proj2 (proj2 (next_tick_raises 1 4%nat w))))
             "d41d8cd98f00b204e9800998ecf8427e").
    vm_compute. reflexivity.
  - apply (proj1 (proj2 (proj2 (proj2
             (@next_tick_raises nat _ Scenario.strict_env 1 4%nat w))))
             TypeError).
    vm_compute. reflexivity.
Defined.

(** The round of the two one-shot timers at the instant 15: ["b"], due at
    10, is called, and ["a"], due at 50, is not. *)
Lemma timers_never_fire_early_witness :
  (t_time Scenario.timer_b <= 15)%Q /\
  fired (trace (one_tick 1 (World Scenario.two_timers (Scenario.quiet 15)))) = ["b"].
Proof.
  split; [|reflexivity].
  refine (proj1 (timers_never_fire_early 1
            (World Scenario.two_timers (Scenario.quiet 15))
            "b" Scenario.timer_b 15%Q 2%nat []
            (World (Reactor_ true [("a", Scenario.timer_a)] ∅ [] [])
               (Scenario.quiet 15)) _)).
  vm_compute. constructor.
Defined.

(** The round of the two one-shot timers at the instant 15, seen from
    the callback of ["b"]. *)
Lemma one_shot_cannot_rearm_itself_witness :
  let w := World (Reactor_ true [("a", Scenario.timer_a)] ∅ [] [])
             (Scenario.quiet 15) in
  again "b" w = (Raise KeyError, w, []).
Proof.
  intros w.
  refine (proj1 (one_shot_cannot_rearm_itself 1
            (World Scenario.two_timers (Scenario.quiet 15))
            "b" Scenario.timer_b 15%Q 2%nat [] w _ _)).
  - vm_compute. constructor.
  - reflexivity.
Defined.

(** Descriptor 7, reported writable only: one call on the write path. *)
Lemma ready_descriptors_called_once_witness :
  let w := World Scenario.watching (Scenario.Outside 15 ([], [7%Z], [])) in
  count (is_read 7%Z) (trace (io_phase (1 # 2) w)) = 0%nat /\
  count (is_write 7%Z) (trace (io_phase (1 # 2) w)) = 1%nat.
Proof.
  intros w.
  destruct (ready_descriptors_called_once (1 # 2) w [] [7%Z] [] (ext w) 1%nat)
    as [_ Hcount].
  - reflexivity.
  - apply NoDup_singleton.
  - intros m. reflexivity.
  - reflexivity.
  - exact (Hcount 7%Z).
Defined.

(** The pass over the two one-shot timers at the instant 15. *)
Lemma timers_pass_result_witness :
  let w := World Scenario.two_timers (Scenario.quiet 15) in
  result (timers_phase w) = Ok 1%nat /\
  _timers (self (final (timers_phase w))) = [("a", Scenario.timer_a)] /\
  fired (trace (timers_phase w)) = ["b"].
Proof.
  intros w.
  destruct (timers_pass_result w) as (Hr & Hs & Hf).
  - apply (bool_decide_unpack _). vm_compute. exact I.
  - intros k tm cb _ _ args w'. split; reflexivity.
  - split; [exact Hr|]. split; [rewrite Hs; reflexivity | exact Hf].
Defined.

(** The round of the two timers, on a reactor that was not running. *)
Lemma one_tick_running_false_or_restored_witness :
  let w := World Scenario.two_timers (Scenario.quiet 100) in
  _running (self (final (one_tick 1 w))) = false \/
  _running (self (final (one_tick 1 w))) = _running (self w).
Proof.
  intros w. apply (one_tick_running_false_or_restored 1 w). reflexivity.
Defined.

(** The round of the recurring timer, on a reactor that was not running. *)
Lemma one_tick_restores_running_witness :
  _running (self (final (one_tick 1
    (World Scenario.one_ticker (Scenario.quiet 15))))) = false.
Proof.
  apply (one_tick_restores_running 1
           (World Scenario.one_ticker (Scenario.quiet 15))).
  - intros cb args w'. reflexivity.
  - reflexivity.
Defined.

(** Descriptor 7 is watched and [select] never reports it: [start] is
    still running after two rounds of two passes. *)
Lemma start_runs_until_stopped_witness :
  result (start 2 2 (World Scenario.watching (Scenario.quiet 0))) <> Ok tt.
Proof.
  apply (start_runs_until_stopped 2 2 (World Scenario.watching (Scenario.quiet 0))).
  - intros cb args w'. reflexivity.
  - intros Hempty. apply (f_equal (fun m => m !! 7%Z)) in Hempty.
    vm_compute in Hempty. discriminate Hempty.
Defined.

(** A second watcher for descriptor 7, which is in both lists. *)
Lemma interest_lists_stay_duplicate_free_witness :
  interest_ok (self (final (run_method (m_io 5%nat (Socket 7%Z))
    (World Scenario.watching (Scenario.quiet 0))))).
Proof.
  apply (interest_lists_stay_duplicate_free (m_io 5%nat (Socket 7%Z))).
  - intros cb args w Hok. exact Hok.
  - split; apply NoDup_singleton.
Defined.

End ReactorMore.

(** ** More of the engine *)

Module UserAgentMore.
Import UserAgent UserAgentFacts.

Section Facts.
Context {Ext : Type} `{!Environment Ext}.
Implicit Types (w : world Ext) (c : cid) (l : loc) (t : tx).

(** *** A write request that pulls a chunk *)

(** The start of a write request that passes all its guards: it sets the
    flag and asks the transaction for a chunk. *)
Lemma _write_pulls c l d t w :
  _connections (ua w) !! c = Some (Dict l) ->
  dicts w !! l = Some d ->
  c_tx d = Some t ->
  is_writing t (ext w) = true ->
  c_writing d = false ->
  _write c w =
  bind (tell (EvClientWrite t (final (set_writing l true w))))
    (fun _ =>
       chunk <- outside (client_write t) ;;
       set_writing l false ;;
       d' <- dict_at l ;;
       do_stream_write (c_nb d') c chunk None ;;
       finished <- get_is_finished t ;;
       (if finished then raise TypeError else ret tt) ;;
       wants <- get_is_writing t ;;
       if negb wants then ret tt
       else do_stream_write (c_nb d') c EmptyString
              (Some (lambda_drain Proxy c)))
    (final (set_writing l true w)).
Proof.
  intros Hc Hl Ht Hw Hflag. unfold _write at 1. rewrite bind_gets, Hc.
  rewrite (bind_silent _ _ _ _ _ (dict_at_eq l d w Hl)), Ht.
  unfold get_is_writing at 1. rewrite bind_gets, Hw. cbn [negb]. rewrite Hflag.
  unfold set_writing at 1. rewrite bind_modify, bind_gets. reflexivity.
Qed.

Lemma bind_on_ext_ua {A B} (f : Ext -> outcome A * Ext)
    (k : A -> M (world Ext) (event Ext) B) w :
  bind (on_ext f) k w =
  match (f (ext w)).1 with
  | Ok a => k a (set_ext (f (ext w)).2 w)
  | Raise e => (Raise e, set_ext (f (ext w)).2 w, [])
  | OutOfFuel => (OutOfFuel, set_ext (f (ext w)).2 w, [])
  end.
Proof.
  unfold on_ext. rewrite bind_outside. destruct (f (ext w)). reflexivity.
Qed.

(** X20. When [tx.client_write()] raises and leaves the engine as it found it,
    the write request raises the same exception with the flag [writing]
    of the connection still set, and from then on every write request for
    the connection returns at once: the connection pulls no chunk any
    more. *)
Theorem write_failure_blocks_connection c l d t e w :
  _connections (ua w) !! c = Some (Dict l) ->
  dicts w !! l = Some d ->
  c_tx d = Some t ->
  is_writing t (ext w) = true ->
  c_writing d = false ->
  client_write t (final (set_writing l true w)) =
    (Raise e, final (set_writing l true w)) ->
  _write c w =
    (Raise e, final (set_writing l true w),
     [EvClientWrite t (final (set_writing l true w))]) /\
  dicts (final (set_writing l true w)) !! l =
    Some (Conn (c_cb d) (c_nb d) (c_tx d) true) /\
  _write c (final (set_writing l true w)) =
    (Ok tt, final (set_writing l true w), []).
Proof.
  intros Hc Hl Ht Hw Hflag Hcw.
  assert (Hl0 : dicts (final (set_writing l true w)) !! l =
                Some (Conn (c_cb d) (c_nb d) (c_tx d) true)).
  { unfold set_writing, final, modify. simpl.
    rewrite lookup_alter_eq, Hl. reflexivity. }
  split; [|split; [exact Hl0|]].
  - rewrite (_write_pulls c l d t w Hc Hl Ht Hw Hflag).
    rewrite bind_tell, bind_outside, Hcw. reflexivity.
  - apply (_write_guarded c l _ (final (set_writing l true w)) Hc Hl0).
    reflexivity.
Qed.

Lemma bind_tell_eq {B} (ev : event Ext)
    (k : unit -> M (world Ext) (event Ext) B) w r w' tr :
  k tt w = (r, w', tr) -> bind (tell ev) k w = (r, w', ev :: tr).
Proof. intros Hk. rewrite bind_tell, Hk. reflexivity. Qed.

(** X21. When the transaction is finished after the chunk was written, the
    write request raises [TypeError]: it calls [self._finish(cid)], and
    [_finish] takes [cid] and [close]. The chunk has been pulled and
    written to the stream, the flag [writing] is clear again, and no
    completion callback is registered. *)
Theorem _write_finished_raises c l d t chunk w1 d1 e2 w :
  _connections (ua w) !! c = Some (Dict l) ->
  dicts w !! l = Some d ->
  c_tx d = Some t ->
  is_writing t (ext w) = true ->
  c_writing d = false ->
  client_write t (final (set_writing l true w)) = (Ok chunk, w1) ->
  dicts w1 !! l = Some d1 ->
  stream_write (c_nb d1) c chunk (ext w1) = (Ok tt, e2) ->
  is_finished t e2 = true ->
  _write c w =
    (Raise TypeError, set_ext e2 (final (set_writing l false w1)),
     [EvClientWrite t (final (set_writing l true w));
      EvStreamWrite (c_nb d1) c chunk None]) /\
  dicts (final (_write c w)) !! l =
    Some (Conn (c_cb d1) (c_nb d1) (c_tx d1) false).
Proof.
  intros Hc Hl Ht Hw Hflag Hcw Hl1 Hsw Hfin.
  assert (Hl2 : dicts (final (set_writing l false w1)) !! l =
                Some (Conn (c_cb d1) (c_nb d1) (c_tx d1) false)).
  { unfold set_writing, final, modify. simpl.
    rewrite lookup_alter_eq, Hl1. reflexivity. }
  assert (Heq : _write c w =
    (Raise TypeError, set_ext e2 (final (set_writing l false w1)),
     [EvClientWrite t (final (set_writing l true w));
      EvStreamWrite (c_nb d1) c chunk None])).
  { rewrite (_write_pulls c l d t w Hc Hl Ht Hw Hflag).
    apply bind_tell_eq.
    rewrite bind_outside, Hcw. cbn [fst snd].
    unfold set_writing at 1. rewrite bind_modify.
    change (set_dicts _ w1) with (final (set_writing l false w1)).
    rewrite (bind_silent _ _ _ _ _ (dict_at_eq l _ _ Hl2)). cbn [c_nb].
    unfold do_stream_write at 1. rewrite bind_assoc.
    apply bind_tell_eq.
    rewrite bind_on_ext_ua.
    change (ext (final (set_writing l false w1))) with (ext w1).
    rewrite Hsw. cbn [fst snd].
    unfold get_is_finished. rewrite bind_gets.
    change (ext (set_ext e2 (final (set_writing l false w1)))) with e2.
    rewrite Hfin. reflexivity. }
  split; [exact Heq|]. rewrite Heq. exact Hl2.
Qed.

(** *** Records that are not dicts *)

(** X22. A read for a connection whose record is there but not true takes the
    record out of the table and does nothing else, so that a second read
    finds no record; a write request for such a connection leaves the
    record where it is. *)
Theorem _read_drops_false_record c chunk chunk' w :
  _connections (ua w) !! c = Some Falsy ->
  let w' := on_ua (fun a => set_connections (delete c (_connections a)) a) w in
  _read c chunk w = (Ok tt, w', []) /\
  _connections (ua w') !! c = None /\
  (forall c', c' <> c -> _connections (ua w') !! c' = _connections (ua w) !! c') /\
  _read c chunk' w' = (Ok tt, w', []) /\
  _write c w = (Ok tt, w, []).
Proof.
  intros Hc w'.
  assert (Hgone : _connections (ua w') !! c = None).
  { unfold w'. simpl. apply lookup_delete_eq. }
  split; [|split; [exact Hgone|split; [|split]]].
  - unfold _read. rewrite bind_gets, Hc. reflexivity.
  - intros c' Hne. unfold w'. simpl. apply lookup_delete_ne. congruence.
  - apply _read_unknown, Hgone.
  - unfold _write. rewrite bind_gets, Hc. reflexivity.
Qed.

(** *** A new connection *)

(** X23. When [_connection] returns an id, the table has for it a dict that is
    new, not the dict of any connection there was, with the callback, the
    mode and the transaction it was given and the flag [writing] clear;
    the other records and dicts are as they were. [IOLoop.client] was
    called once, with the connect timeout of the engine and a [client_cb]
    whose [connect_vars] is new and holds, when [_connection] returns, the
    id, the method [_connected] as callback and the proxy of the
    engine. *)
Theorem _connection_registers nb t cb w c :
  result (_connection nb t cb w) = Ok c ->
  let w' := final (_connection nb t cb w) in
  let l := fresh (dom (dicts w)) in
  let cv := fresh (dom (nonlocals w)) in
  dicts w !! l = None /\
  _connections (ua w') !! c = Some (Dict l) /\
  dicts w' !! l = Some (Conn cb nb (Some t) false) /\
  (forall c', c' <> c -> _connections (ua w') !! c' = _connections (ua w) !! c') /\
  (forall l', l' <> l -> dicts w' !! l' = dicts w !! l') /\
  nonlocals w !! cv = None /\
  nonlocals w' !! cv = Some (ConnectVars (method_connected Strong) Proxy (Some c)) /\
  exists o, trace (_connection nb t cb w) = [EvClient nb (client_cb Strong cv) o]
            /\ o_timeout o = connect_timeout (ua w).
Proof.
  intros Hr w' l cv.
  assert (Hl : dicts w !! l = None).
  { apply not_elem_of_dom. apply is_fresh. }
  assert (Hcv : nonlocals w !! cv = None).
  { apply not_elem_of_dom. apply is_fresh. }
  revert Hr. subst w'. unfold _connection, _connect.
  rewrite bind_gets, bind_on_ext_ua.
  destruct (endpoint t (ext w)) as [[p0|?|] e1]; cbn [fst snd]; try discriminate.
  rewrite ?bind_assoc, bind_gets, ?bind_assoc, bind_on_ext_ua.
  change (ext (set_ext e1 w)) with e1.
  destruct (peer t e1) as [[[[proto host] port]|?|] e2]; cbn [fst snd];
    try discriminate.
  rewrite ?bind_assoc, bind_gets, ?bind_assoc, bind_modify, ?bind_assoc.
  rewrite bind_tell, ?bind_assoc, bind_on_ext_ua.
  cbn [ext set_nonlocals set_ext].
  match goal with
  | |- context [client nb ?o e2] => set (opts := o)
  end.
  destruct (client nb opts e2) as [[c0|?|] e3]; cbn [fst snd]; try discriminate.
  rewrite ?bind_assoc, bind_modify, ?bind_assoc, bind_ret, bind_gets,
    bind_modify, bind_modify.
  unfold result, final, trace, ret. cbn [fst snd].
  intros [= ->].
  cbn [ua dicts nonlocals on_ua set_dicts set_nonlocals set_ext
       set_connections _connections connect_timeout].
  fold l cv.
  split; [exact Hl|].
  split; [apply lookup_insert_eq|].
  split; [apply lookup_insert_eq|].
  split; [intros c' Hne; apply lookup_insert_ne; congruence|].
  split; [intros l' Hne; apply lookup_insert_ne; congruence|].
  split; [exact Hcv|].
  split; [rewrite lookup_alter_eq, lookup_insert_eq; reflexivity|].
  exists opts. split; reflexivity.
Qed.

End Facts.

(** The connection ["c1"] with a transaction whose [client_write]
    raises: the request fails, and the next one does nothing. *)
Lemma write_failure_blocks_connection_witness :
  let w0 := final (set_writing 0%nat true Scenario.ready_engine) in
  @_write _ Scenario.failing_env "c1" Scenario.ready_engine =
    (Raise (Exception "no chunk"), w0, [EvClientWrite 0%nat w0]) /\
  @_write _ Scenario.failing_env "c1" w0 = (Ok tt, w0, []).
Proof.
  intros w0.
  destruct (@write_failure_blocks_connection _ Scenario.failing_env
              "c1" 0%nat (Conn (user_cb 0) false (Some 0%nat) false) 0%nat
              (Exception "no chunk") Scenario.ready_engine)
    as (Hraise & _ & Hnoop); try reflexivity.
  split; [exact Hraise | exact Hnoop].
Defined.

(** The connection ["c1"] with a transaction that is finished after its
    first chunk. *)
Lemma _write_finished_raises_witness :
  result (@_write _ Scenario.finishing_env "c1" Scenario.ready_engine) =
    Raise TypeError /\
  trace (@_write _ Scenario.finishing_env "c1" Scenario.ready_engine) =
    [EvClientWrite 0%nat (final (set_writing 0%nat true Scenario.ready_engine));
     EvStreamWrite false "c1" "GET / HTTP/1.1" None].
Proof.
  destruct (@_write_finished_raises _ Scenario.finishing_env
              "c1" 0%nat (Conn (user_cb 0) false (Some 0%nat) false) 0%nat
              "GET / HTTP/1.1"
              (final (set_writing 0%nat true Scenario.ready_engine))
              (Conn (user_cb 0) false (Some 0%nat) true)
              (Scenario.quiet 100) Scenario.ready_engine)
    as [Heq _]; try reflexivity.
  rewrite Heq. split; reflexivity.
Defined.

(** A read for ["c1"], whose record is not a dict. *)
Lemma _read_drops_false_record_witness :
  _connections (ua (final (_read "c1" "data" Scenario.stale_engine))) !! "c1" = None
  /\ _write "c1" Scenario.stale_engine = (Ok tt, Scenario.stale_engine, []).
Proof.
  destruct (_read_drops_false_record "c1" "data" "more" Scenario.stale_engine)
    as (Hread & Hgone & _ & _ & Hwrite); [reflexivity|].
  split; [rewrite Hread; exact Hgone | exact Hwrite].
Defined.

(** The first connection of an engine. *)
Lemma _connection_registers_witness :
  let w := Scenario.fresh_engine 0 in
  _connections (ua (final (_connection false 0%nat (user_cb 0) w))) !! "c1" =
    Some (Dict 0%nat) /\
  dicts (final (_connection false 0%nat (user_cb 0) w)) !! 0%nat =
    Some (Conn (user_cb 0) false (Some 0%nat) false).
Proof.
  intros w.
  destruct (_connection_registers false 0%nat (user_cb 0) w "c1")
    as (_ & Hc & Hd & _); [reflexivity|].
  split; [exact Hc | exact Hd].
Defined.

(** [_start] of an engine without a request timeout returns the id. *)
Lemma _start_returns_only_without_timeout_witness :
  result (_start 1 false 0%nat (user_cb 0) (Scenario.fresh_engine 0)) = Ok "c1" /\
  Qeq_bool (request_timeout (ua (final
    (_start 1 false 0%nat (user_cb 0) (Scenario.fresh_engine 0))))) 0 = true.
Proof.
  split; [reflexivity|].
  apply (_start_returns_only_without_timeout 1 false 0%nat (user_cb 0)
           (Scenario.fresh_engine 0) "c1").
  reflexivity.
Defined.

End UserAgentMore.

(** ** The environment variables *)

Module UtilFacts.
Import Util.

Lemma getenv_setenv (name : string) (v : option string)
    (default : value) (env : environ) :
  getenv name default (setenv name v env) =
  match v with Some s => VStr s | None => default end.
Proof.
  unfold getenv, setenv, environ in *. destruct v as [s|].
  - rewrite lookup_insert_eq. reflexivity.
  - destruct (env !! name) as [s|] eqn:Hn.
    + rewrite (bool_decide_eq_true_2 (is_Some (Some s))) by eauto.
      rewrite lookup_delete_eq. reflexivity.
    + rewrite (bool_decide_eq_false_2 (is_Some None)) by (intros [? ?]; discriminate).
      rewrite Hn. reflexivity.
Qed.

(** X25. What [setenv] has set, [getenv] returns, and what it has deleted,
    [getenv] answers with the default; the other variables are as they
    were, and setting or deleting twice is the same as once. *)
Theorem setenv_then_getenv (name name' : string) (v : option string)
    (default : value) (env : environ) :
  getenv name default (setenv name v env) =
    match v with Some s => VStr s | None => default end /\
  (name' <> name ->
   getenv name' default (setenv name v env) = getenv name' default env) /\
  setenv name v (setenv name v env) = setenv name v env.
Proof.
  split; [apply getenv_setenv|].
  unfold getenv, setenv, environ in *. destruct v as [s|].
  - split.
    + intros Hne. rewrite lookup_insert_ne by congruence. reflexivity.
    + apply insert_insert_eq.
  - destruct (env !! name) as [s|] eqn:Hn.
    + rewrite (bool_decide_eq_true_2 (is_Some (Some s))) by eauto. split.
      * intros Hne. rewrite lookup_delete_ne by congruence. reflexivity.
      * rewrite lookup_delete_eq.
        rewrite (bool_decide_eq_false_2 (is_Some None)) by (intros [? ?]; discriminate).
        reflexivity.
    + rewrite (bool_decide_eq_false_2 (is_Some None)) by (intros [? ?]; discriminate).
      split; [reflexivity|]. rewrite Hn.
      rewrite (bool_decide_eq_false_2 (is_Some None)) by (intros [? ?]; discriminate).
      reflexivity.
Qed.

(** X26. The flag [DEBUG] of the select reactor is true when
    [PYJO_REACTOR_DEBUG] is set to any text that is not empty, whatever
    the text says, the text ["0"] too, and only then; [detect] names the
    poll reactor unless [PYJO_REACTOR] is set, and then it returns the
    text of the variable. *)
Theorem settings_read_from_environment (env : environ) :
  (truth (DEBUG env) = true <->
   exists s, env !! "PYJO_REACTOR_DEBUG" = Some s /\ s <> EmptyString) /\
  truth (DEBUG (setenv "PYJO_REACTOR_DEBUG" (Some "0") env)) = true /\
  truth (DEBUG (setenv "PYJO_REACTOR_DEBUG" None env)) = false /\
  (forall v, detect (setenv "PYJO_REACTOR" v env) =
             VStr (default "Pyjo.Reactor.Poll" v)).
Proof.
  split; [|split; [|split]].
  - unfold DEBUG, getenv, environ in *.
    destruct (env !! "PYJO_REACTOR_DEBUG") as [s|]; simpl.
    + rewrite negb_true_iff, bool_decide_eq_false. split.
      * intros Hs. exists s. auto.
      * intros (s' & [= <-] & Hs). exact Hs.
    + split; [discriminate | intros (s & Hs & _); discriminate].
  - unfold DEBUG. rewrite getenv_setenv. reflexivity.
  - unfold DEBUG. rewrite getenv_setenv. reflexivity.
  - intros v. unfold detect. rewrite getenv_setenv. destruct v; reflexivity.
Qed.

End UtilFacts.
